(** * signalk-whatif-helper: path registry, value injector, PUT handlers, live updates

    A shallow embedding of [PathManager.ts], [PutHandlerManager.ts] and
    [WebSocketServer.ts].

    Conventions of the embedding.
    - JavaScript strings are Rocq [string]s.  The character-level
      operations the plugin performs are [endsWith]/[slice] with the ASCII
      suffix [".whatif-helper"], [includes], [toLowerCase] and
      [localeCompare].  The last two rest on the Unicode data of the engine:
      they are parameters of the embedding (class [Collation]), and what is
      proved holds for every engine.
    - Values of TypeScript type [any] (tree nodes, metadata, PUT values) are
      [JsValue]s; the property order of an object is the order of its list.
    - [Map] and [Set] keep insertion order, as in ECMAScript.
    - A call that may throw returns a [Result]; an [async] function returns a
      [Promise], which is rejected (never thrown) when its body throws.
    - An [async] method that is called and not awaited runs up to its first
      [await] inside the caller; what follows each [await] runs in a later
      turn of the engine.  [WebSocketServer.sendCurrentValues] is called so:
      its call is a state ([Call]) that [resume] takes from one [await] to
      the next, and a [Runtime] holds the calls that are pending.
    - The host (the SignalK server behind [ServerAPI]) answers reads and may
      refuse writes as a function of the [World], the record of everything the
      plugin has done to it so far.
    - [app.debug] and [app.error] only log; they are left out. *)

From Stdlib Require Import List String Ascii Bool Arith ZArith QArith Lia.
From Stdlib Require Import Permutation Sorted DecimalString.
From Stdlib Require OrderedTypeEx DecimalNat.
From Equations Require Import Equations.
Import ListNotations.

Local Close Scope Q_scope.
Local Open Scope nat_scope.
Local Open Scope list_scope.
Local Open Scope string_scope.

(* ===================================================================== *)
(** ** JavaScript strings *)
(* ===================================================================== *)

Module JsString.

(** [s.endsWith(t)] *)
Definition endsWith (s t : string) : bool :=
  let n := String.length s in
  let m := String.length t in
  (m <=? n)%nat && String.eqb (substring (n - m) m s) t.

(** [s.slice(0, -k)] *)
Definition sliceDropEnd (s : string) (k : nat) : string :=
  match k with
  | O => EmptyString
  | _ => substring 0 (String.length s - k) s
  end.

(** [c] lowered, for the letters [A]..[Z] *)
Definition lowerAscii (c : ascii) : ascii :=
  let n := nat_of_ascii c in
  if ((65 <=? n)%nat && (n <=? 90)%nat)%bool then ascii_of_nat (n + 32) else c.

(** every letter [A]..[Z] of [s] lowered, the other characters kept: what
    [s.toLowerCase()] is for a string of ASCII characters *)
Fixpoint lowerCaseAscii (s : string) : string :=
  match s with
  | EmptyString => EmptyString
  | String c r => String (lowerAscii c) (lowerCaseAscii r)
  end.


(** [s.includes(t)] *)
Fixpoint includes (s t : string) : bool :=
  String.prefix t s ||
  match s with
  | EmptyString => false
  | String _ r => includes r t
  end.

(** a string is truthy when it is not empty *)
Definition nonEmpty (s : string) : bool :=
  match s with EmptyString => false | _ => true end.

(** [t] repeated [k] times *)
Fixpoint repeat (t : string) (k : nat) : string :=
  match k with
  | O => EmptyString
  | S k' => repeat t k' ++ t
  end.

End JsString.

(* ===================================================================== *)
(** ** JavaScript values *)
(* ===================================================================== *)

#[local] Unset Elimination Schemes.
Inductive JsValue : Type :=
| JUndefined
| JNull
| JBool (b : bool)
| JNumber (q : Q)
| JString (s : string)
| JArray (items : list JsValue)
| JObject (props : list (string * JsValue)).
#[local] Set Elimination Schemes.

(** What a [throw] carries: an [Error] instance with its message, or any
    other value. *)
Inductive Thrown : Type :=
| ThrownError (message : string)
| ThrownValue (v : JsValue).

Inductive Result (A : Type) : Type :=
| Ok (a : A)
| Throw (e : Thrown).
Arguments Ok {A} a.
Arguments Throw {A} e.

(** The settled state of the promise an [async] function returns. *)
Inductive Promise (A : Type) : Type :=
| Fulfilled (a : A)
| Rejected (e : Thrown).
Arguments Fulfilled {A} a.
Arguments Rejected {A} e.

Module Js.

(** ToBoolean *)
Definition truthy (v : JsValue) : bool :=
  match v with
  | JUndefined | JNull => false
  | JBool b => b
  | JNumber q => negb (Qeq_bool q 0)
  | JString s => JsString.nonEmpty s
  | JArray _ | JObject _ => true
  end.

(** [a || b] *)
Definition or (a b : JsValue) : JsValue := if truthy a then a else b.

Definition isUndefined (v : JsValue) : bool :=
  match v with JUndefined => true | _ => false end.

Definition isNullish (v : JsValue) : bool :=
  match v with JUndefined | JNull => true | _ => false end.

(** [typeof v === 'object'] *)
Definition typeofObject (v : JsValue) : bool :=
  match v with JNull | JArray _ | JObject _ => true | _ => false end.

Fixpoint lookup (props : list (string * JsValue)) (k : string) : option JsValue :=
  match props with
  | [] => None
  | (k', v) :: r => if String.eqb k' k then Some v else lookup r k
  end.

(** [v.k] for a value that is neither [null] nor [undefined], and a key
    [k] that is not an array index or ["length"]: primitives and arrays
    have no such property. *)
Definition prop (v : JsValue) (k : string) : JsValue :=
  match v with
  | JObject props => match lookup props k with Some x => x | None => JUndefined end
  | _ => JUndefined
  end.

(** [v?.k] *)
Definition optProp (v : JsValue) (k : string) : JsValue :=
  if isNullish v then JUndefined else prop v k.

(** [k in v], for [v] with [typeof v === 'object'] and not [null];
    [None] is the TypeError that [in] raises on [null]. *)
Definition hasProp (v : JsValue) (k : string) : option bool :=
  match v with
  | JObject props =>
      Some (match lookup props k with Some _ => true | None => false end)
  | JArray _ => Some false
  | _ => None
  end.

End Js.

(* ===================================================================== *)
(** ** [Map] and [Set] *)
(* ===================================================================== *)

(** [Map<string, V>]: entries in insertion order, one per key. *)
Module JsMap.

Definition t (V : Type) : Type := list (string * V).

Section Ops.
Context {V : Type}.

Definition empty : t V := [].

Fixpoint get (m : t V) (k : string) : option V :=
  match m with
  | [] => None
  | (k', v) :: r => if String.eqb k' k then Some v else get r k
  end.

Definition has (m : t V) (k : string) : bool :=
  match get m k with Some _ => true | None => false end.

(** [m.set(k, v)]: a key already present keeps its position *)
Fixpoint set (m : t V) (k : string) (v : V) : t V :=
  match m with
  | [] => [(k, v)]
  | (k', v') :: r =>
      if String.eqb k' k then (k', v) :: r else (k', v') :: set r k v
  end.

(** [m.delete(k)] *)
Definition delete (m : t V) (k : string) : t V :=
  filter (fun kv => negb (String.eqb (fst kv) k)) m.

Definition keys (m : t V) : list string := map fst m.
Definition values (m : t V) : list V := map snd m.

End Ops.

End JsMap.

(** [Set<string>]: elements in insertion order, each once. *)
Module JsSet.

Definition t : Type := list string.

Definition empty : t := [].

Definition has (s : t) (x : string) : bool :=
  existsb (String.eqb x) s.

Definition add (s : t) (x : string) : t :=
  if has s x then s else (s ++ [x])%list.

Definition delete (s : t) (x : string) : t :=
  filter (fun y => negb (String.eqb x y)) s.

Definition clear (s : t) : t := [].

(** A [Set] iterator is live.  ECMAScript keeps the entries of a set in
    insertion order, turns a deleted entry into a hole without moving the
    others and appends an added one, and an iterator holds an index into
    them: it never visits an entry twice, it skips the entries deleted
    before it reaches them, and it visits the entries added while it runs.
    Here the holes are not kept and the position of an iterator is the
    number of entries before it that are still in the set:
    [reposition old new cursor] is that number once the set [old] has become
    [new], by deletions or by additions. *)
Definition reposition (old new : t) (cursor : nat) : nat :=
  List.length (filter (has new) (firstn cursor old)).

End JsSet.

(* ===================================================================== *)
(** ** The host: [ServerAPI] and what the plugin has done to it *)
(* ===================================================================== *)

(** [new Date().toISOString()] is an input of every operation that reads
    the clock. *)
Definition Timestamp : Type := string.

Inductive UpdateBody : Type :=
| Values (values : list (string * JsValue))  (* [values: [{path, value}]] *)
| Meta (meta : list (string * JsValue)).     (* [meta: [{path, value}]] *)

Record Update : Type := mkUpdate {
  upd_source : string;          (* [$source] *)
  upd_timestamp : Timestamp;
  upd_body : UpdateBody
}.

Record Delta : Type := mkDelta {
  delta_context : string;
  delta_updates : list Update
}.

(** A PUT interceptor installed at the host by [app.registerPutHandler]. *)
Record PutRegistration : Type := mkPutRegistration {
  reg_handle : nat;              (* identifies the returned unregister closure *)
  reg_context : string;
  reg_path : string;
  reg_source : option string     (* accepted source; [None] is [undefined] *)
}.

(** A callback scheduled with [setTimeout]. *)
Record Timer : Type := mkTimer {
  timer_delay : nat;
  timer_verifyPath : string
}.

Record World : Type := mkWorld {
  bus : list (string * Delta);          (* [app.handleMessage(id, delta)] calls accepted *)
  putHandlers : list PutRegistration;   (* interceptors currently installed *)
  nextHandle : nat;
  timers : list Timer
}.

Definition emptyWorld : World := mkWorld [] [] 0 [].

(** The host interface.  Reads answer, and writes may throw, as the host
    decides from the state of the world. *)
Record ServerAPI : Type := mkServerAPI {
  app_selfId : option string;
  app_hasGetPath : bool;                                   (* [(app as any).getPath] is defined *)
  app_getPath : World -> string -> Result JsValue;
  app_getSelfPath : World -> string -> Result JsValue;
  app_handleMessage : World -> string -> Delta -> Result unit;
  app_registerPutHandler :
    World -> string -> string -> option string -> Result unit;
  app_fetchVesselsSelf : World -> option JsValue           (* the parsed body of the HTTP fallback, when it succeeds *)
}.

(** The unregister closure [app.registerPutHandler] returns: calling it
    removes the registration it was returned for. *)
Definition Unregister : Type := nat.

Definition hostRegisterPutHandler (app : ServerAPI) (w : World)
    (context path : string) (source : option string) : Result (World * Unregister) :=
  match app_registerPutHandler app w context path source with
  | Throw e => Throw e
  | Ok _ =>
      let h := nextHandle w in
      Ok (mkWorld (bus w)
                  (putHandlers w ++ [mkPutRegistration h context path source])%list
                  (S h) (timers w), h)
  end.

Definition callUnregister (w : World) (h : Unregister) : World :=
  mkWorld (bus w)
          (filter (fun r => negb (Nat.eqb (reg_handle r) h)) (putHandlers w))
          (nextHandle w) (timers w).

Definition hostHandleMessage (app : ServerAPI) (w : World)
    (id : string) (delta : Delta) : Result World :=
  match app_handleMessage app w id delta with
  | Throw e => Throw e
  | Ok _ => Ok (mkWorld (bus w ++ [(id, delta)])%list (putHandlers w) (nextHandle w) (timers w))
  end.

Definition setTimeout (w : World) (t : Timer) : World :=
  mkWorld (bus w) (putHandlers w) (nextHandle w) (timers w ++ [t])%list.

(* ===================================================================== *)
(** ** The runtime: collation and [Array.prototype.sort] *)
(* ===================================================================== *)

(** What the engine draws from its Unicode data (ICU):
    [a.localeCompare(b)], negative, zero or positive, in the order of the
    default locale, and [s.toLowerCase()], the lower-case form of [s]. *)
Class Collation : Type := {
  localeCompare : string -> string -> Z;
  toLowerCase : string -> string
}.

(** A consistent comparator, as ECMAScript requires of a comparison
    function for [sort] to be specified. *)
Class ConsistentCollation (C : Collation) : Prop := {
  localeCompare_total :
    forall a b : string, (0 < localeCompare a b)%Z -> (localeCompare b a <= 0)%Z;
  localeCompare_trans :
    forall a b c : string,
      (localeCompare a b <= 0)%Z -> (localeCompare b c <= 0)%Z ->
      (localeCompare a c <= 0)%Z
}.


Module JsArray.

Section Sort.
Context {A : Type} (comparefn : A -> A -> Z).

Fixpoint insert (x : A) (l : list A) : list A :=
  match l with
  | [] => [x]
  | y :: r => if (comparefn x y <=? 0)%Z then x :: y :: r else y :: insert x r
  end.

(** [l.sort(comparefn)].  ECMAScript specifies a stable sort; for a
    consistent comparator its result is unique, and it is what inserting
    each element, from the last to the first, in front of the first element
    it does not compare above computes. *)
Definition sort (l : list A) : list A := fold_right insert [] l.

End Sort.

(** the own enumerable properties of an array: indices as keys *)
Fixpoint indexedFrom {A : Type} (i : nat) (l : list A) : list (string * A) :=
  match l with
  | [] => []
  | x :: r =>
      (DecimalString.NilEmpty.string_of_uint (Nat.to_uint i), x) :: indexedFrom (S i) r
  end.

End JsArray.

(* ===================================================================== *)
(** ** PathManager *)
(* ===================================================================== *)

Definition PLUGIN_ID : string := "signalk-whatif-helper".
Definition SOURCE_LABEL : string := "whatif-helper".

(** [`.${SOURCE_LABEL}`] *)
Definition whatifSuffix : string := "." ++ SOURCE_LABEL.

Definition inspect {A : Type} (a : A) : {b : A | a = b} := exist _ a eq_refl.

(** The loop
    [while (originalSource.endsWith(whatifSuffix))
       originalSource = originalSource.slice(0, -whatifSuffix.length)]. *)
Equations? stripWhatifSuffix (originalSource : string) : string
  by wf (String.length originalSource) lt :=
  stripWhatifSuffix originalSource with inspect (JsString.endsWith originalSource whatifSuffix) => {
    | exist _ true _ =>
        stripWhatifSuffix (JsString.sliceDropEnd originalSource (String.length whatifSuffix));
    | exist _ false _ => originalSource }.
Proof.
  unfold JsString.endsWith in e.
  apply andb_prop in e. destruct e as [Hle _].
  apply Nat.leb_le in Hle.
  unfold JsString.sliceDropEnd. cbn [String.length whatifSuffix append SOURCE_LABEL] in *.
  clear stripWhatifSuffix.
  assert (Hlen : forall n s, (String.length (substring 0 n s) <= n)%nat).
  { induction n; destruct s; simpl; auto with arith. }
  specialize (Hlen (String.length originalSource - 14)%nat originalSource).
  simpl in *. lia.
Qed.

Record PathInfo : Type := mkPathInfo {
  pi_path : string;
  pi_value : JsValue;
  pi_timestamp : JsValue;
  pi_source : JsValue;
  pi_meta : JsValue          (* [JUndefined] when the property is absent *)
}.

Record PathFilter : Type := mkPathFilter {
  pf_search : option string;
  pf_hasValue : option bool;
  pf_hasMeta : option bool;
  pf_baseUnit : option string
}.

Module PathManager.

Record t : Type := mk {
  createdPaths : JsMap.t JsValue;     (* [Map<string, PathMeta>] *)
  selfContext : string
}.

Definition initSelfContext (app : ServerAPI) : string :=
  match app_selfId app with
  | Some selfId => if JsString.nonEmpty selfId then "vessels." ++ selfId else "vessels.self"
  | None => "vessels.self"
  end.

(** [new PathManager(app)] *)
Definition create (app : ServerAPI) : t := mk JsMap.empty (initSelfContext app).

(** the own enumerable properties an object spread copies *)
Definition ownEntries (v : JsValue) : list (string * JsValue) :=
  match v with
  | JObject props => props
  | JArray items => JsArray.indexedFrom 0 items
  | JString s =>
      JsArray.indexedFrom 0
        (map (fun c => JString (String c EmptyString)) (list_ascii_of_string s))
  | _ => []
  end.

(** [{ ...a, ...b }] *)
Definition spread (a b : JsValue) : JsValue :=
  JObject (fold_left (fun acc kv => JsMap.set acc (fst kv) (snd kv))
                     (ownEntries a ++ ownEntries b)%list []).

(** the custom-metadata step shared by [extractPaths] and [getPath]:
    [const customMeta = this.createdPaths.get(p);
     if (customMeta) pathInfo.meta = { ...pathInfo.meta, ...customMeta }] *)
Definition withCustomMeta (created : JsMap.t JsValue) (p : string) (m : JsValue) : JsValue :=
  match JsMap.get created p with
  | Some customMeta => if Js.truthy customMeta then spread m customMeta else m
  | None => m
  end.

Definition skipProps : list string :=
  ["meta"; "timestamp"; "$source"; "source"; "values"; "pgn"; "sentence"].

Definition skipKey (key : string) : bool :=
  existsb (String.eqb key) skipProps || String.eqb key "value".

(** [currentPath ? `${currentPath}.${key}` : key] *)
Definition childPath (currentPath key : string) : string :=
  if JsString.nonEmpty currentPath then currentPath ++ "." ++ key else key.

(** [extractPaths(obj, currentPath, paths)]: the snapshots pushed on
    [paths], in order. *)
Fixpoint extractPaths (created : JsMap.t JsValue) (obj : JsValue)
    (currentPath : string) {struct obj} : list PathInfo :=
  match obj with
  | JObject props =>
      let leaf :=
        match Js.lookup props "value" with
        | Some v =>
            let m := if Js.truthy (Js.prop obj "meta") then Js.prop obj "meta" else JUndefined in
            [mkPathInfo currentPath v
               (Js.prop obj "timestamp")
               (Js.or (Js.prop obj "$source") (Js.optProp (Js.prop obj "source") "label"))
               (withCustomMeta created currentPath m)]
        | None => []
        end in
      let children :=
        (fix children (entries : list (string * JsValue)) : list PathInfo :=
           match entries with
           | [] => []
           | (key, child) :: rest =>
               let sub :=
                 if skipKey key then []
                 else if Js.truthy child && Js.typeofObject child
                      then extractPaths created child (childPath currentPath key)
                      else [] in
               List.app sub (children rest)
           end) props in
      List.app leaf children
  | JArray items =>
      (fix children (i : nat) (rest : list JsValue) : list PathInfo :=
         match rest with
         | [] => []
         | child :: rest' =>
             let sub :=
               if Js.truthy child && Js.typeofObject child
               then extractPaths created child
                      (childPath currentPath
                         (DecimalString.NilEmpty.string_of_uint (Nat.to_uint i)))
               else [] in
             List.app sub (children (S i) rest')
         end) 0 items
  | _ => []
  end.

(** [fetchPathsFromAPI(paths)]: [paths] afterwards; every failure is
    caught and logged. *)
Definition fetchPathsFromAPI (app : ServerAPI) (pm : t) (w : World)
    (paths : list PathInfo) : list PathInfo :=
  match app_fetchVesselsSelf app w with
  | Some data => (paths ++ extractPaths (createdPaths pm) data "")%list
  | None => paths
  end.

(** [v === s] for a string [s] *)
Definition strictEqString (v : JsValue) (s : string) : bool :=
  match v with JString t => String.eqb t s | _ => false end.

(** the body of [getAllPaths] up to [// Apply filters if provided] *)
Definition collectPaths (app : ServerAPI) (pm : t) (w : World) : list PathInfo :=
  match (if app_hasGetPath app then app_getPath app w "vessels.self" else Ok JNull) with
  | Throw _ => fetchPathsFromAPI app pm w []
  | Ok vesselData0 =>
      let vesselData :=
        if Js.truthy vesselData0 then vesselData0
        else match app_getSelfPath app w "" with
             | Ok v => v
             | Throw _ => vesselData0
             end in
      let paths :=
        if Js.truthy vesselData && Js.typeofObject vesselData
        then extractPaths (createdPaths pm) vesselData ""
        else [] in
      if (List.length paths =? 0)%nat then fetchPathsFromAPI app pm w paths else paths
  end.

(** the four [filtered = filtered.filter(...)] steps *)
Definition applyFilter {C : Collation} (filter : PathFilter) (paths : list PathInfo)
    : list PathInfo :=
  let filtered1 :=
    match pf_search filter with
    | Some search =>
        if JsString.nonEmpty search then
          let searchLower := toLowerCase search in
          List.filter (fun p => JsString.includes (toLowerCase (pi_path p)) searchLower) paths
        else paths
    | None => paths
    end in
  let filtered2 :=
    match pf_hasValue filter with
    | Some true => List.filter (fun p => negb (Js.isNullish (pi_value p))) filtered1
    | _ => filtered1
    end in
  let filtered3 :=
    match pf_hasMeta filter with
    | Some true => List.filter (fun p => negb (Js.isUndefined (pi_meta p))) filtered2
    | _ => filtered2
    end in
  match pf_baseUnit filter with
  | Some baseUnit =>
      if JsString.nonEmpty baseUnit then
        List.filter (fun p => strictEqString (Js.optProp (pi_meta p) "units") baseUnit) filtered3
      else filtered3
  | None => filtered3
  end.

(** [getAllPaths(filter?)]: the array the returned promise is fulfilled
    with (every call that may throw sits inside a [try]). *)
Definition getAllPaths {C : Collation} (app : ServerAPI) (pm : t) (w : World)
    (filter : option PathFilter) : list PathInfo :=
  let paths := collectPaths app pm w in
  let filtered :=
    match filter with
    | Some f => applyFilter f paths
    | None => paths
    end in
  JsArray.sort (fun a b => localeCompare (pi_path a) (pi_path b)) filtered.

(** [getPath(path)] *)
Definition getPath (app : ServerAPI) (pm : t) (w : World) (path : string)
    : Promise (option PathInfo) :=
  match app_getSelfPath app w path with
  | Throw e => Rejected e
  | Ok data =>
      if Js.isUndefined data then Fulfilled None
      else
        match
          (if Js.typeofObject data then
             match Js.hasProp data "value" with
             | Some true => Ok (Js.prop data "value")
             | Some false => Ok data
             | None =>
                 Throw (ThrownError "Cannot use 'in' operator to search for 'value' in null")
             end
           else Ok data)
        with
        | Throw e => Rejected e
        | Ok v =>
            let ts := Js.optProp data "timestamp" in
            let src := Js.or (Js.optProp data "$source")
                             (Js.optProp (Js.optProp data "source") "label") in
            match app_getSelfPath app w (path ++ ".meta") with
            | Throw e => Rejected e
            | Ok metaPath =>
                let m := if Js.truthy metaPath then metaPath else JUndefined in
                Fulfilled (Some (mkPathInfo path v ts src
                                   (withCustomMeta (createdPaths pm) path m)))
            end
        end
  end.

(** the value of [sourceLabel] when [setValue] builds its delta;
    [if (source)] fails for an absent and for an empty [source] *)
Definition sourceLabel (app : ServerAPI) (w : World) (path : string)
    (source : option string) : string :=
  let generated :=
    match app_getSelfPath app w path with
    | Throw _ => SOURCE_LABEL                                   (* [catch] *)
    | Ok currentData =>
        if Js.truthy currentData then
          let originalSource :=
            Js.or (Js.prop currentData "$source")
                  (Js.optProp (Js.prop currentData "source") "label") in
          if Js.truthy originalSource then
            match originalSource with
            | JString o => stripWhatifSuffix o ++ "." ++ SOURCE_LABEL
            | _ => SOURCE_LABEL   (* [endsWith] is not a function: TypeError, caught *)
            end
          else SOURCE_LABEL
        else SOURCE_LABEL
    end in
  match source with
  | Some s => if JsString.nonEmpty s then s else generated
  | None => generated
  end.

(** [setValue(path, value, source?)]: the body has no [await], so it
    runs when called; a throw inside it rejects the returned promise. *)
Definition setValue (app : ServerAPI) (pm : t) (w : World) (now : Timestamp)
    (path : string) (value : JsValue) (source : option string)
    : World * Promise unit :=
  let delta :=
    mkDelta (selfContext pm)
            [mkUpdate (sourceLabel app w path source) now (Values [(path, value)])] in
  match hostHandleMessage app w PLUGIN_ID delta with
  | Throw e => (w, Rejected e)
  | Ok w' => (setTimeout w' (mkTimer 500 path), Fulfilled tt)
  end.

(** [createPath(path, value, meta?)]; [now] and [nowMeta] are the two
    readings of the clock. *)
Definition createPath (app : ServerAPI) (pm : t) (w : World)
    (now nowMeta : Timestamp) (path : string) (value meta : JsValue)
    : t * World * Promise unit :=
  let pm1 :=
    if Js.truthy meta
    then mk (JsMap.set (createdPaths pm) path meta) (selfContext pm)
    else pm in
  match setValue app pm1 w now path value None with
  | (w1, Rejected e) => (pm1, w1, Rejected e)
  | (w1, Fulfilled _) =>
      if Js.truthy meta then
        match hostHandleMessage app w1 PLUGIN_ID
                (mkDelta (selfContext pm1)
                         [mkUpdate SOURCE_LABEL nowMeta (Meta [(path, meta)])]) with
        | Throw e => (pm1, w1, Rejected e)
        | Ok w2 => (pm1, w2, Fulfilled tt)
        end
      else (pm1, w1, Fulfilled tt)
  end.

Definition getCreatedPaths (pm : t) : list string := JsMap.keys (createdPaths pm).

Definition isCreatedPath (pm : t) (path : string) : bool :=
  JsMap.has (createdPaths pm) path.

End PathManager.

(* ===================================================================== *)
(** ** PutHandlerManager *)
(* ===================================================================== *)

Record PutHandlerInfo : Type := mkPutHandlerInfo {
  hi_path : string;
  hi_registeredAt : Timestamp;
  hi_acceptAllSources : bool
}.

Record PutOptions : Type := mkPutOptions {
  opt_acceptAllSources : option bool
}.

Inductive PutState : Type := COMPLETED | PENDING | FAILED.

Record PutResult : Type := mkPutResult {
  pr_state : PutState;
  pr_statusCode : option nat;
  pr_message : option string
}.

(** the [callback] the host passes to a PUT handler *)
Definition PutCallback : Type := PutResult -> Result unit.

(** what one invocation of a PUT handler does *)
Record PutOutcome : Type := mkPutOutcome {
  po_world : World;
  po_promise : Promise unit;          (* the promise [setValue] returned; the handler drops it *)
  po_callbackCalls : list PutResult;  (* the arguments [callback] was called with, in order *)
  po_returned : Result PutResult
}.

Module PutHandlerManager.

Record t : Type := mk {
  handlers : JsMap.t PutHandlerInfo;
  unregisterFunctions : JsMap.t Unregister
}.

(** [new PutHandlerManager(app, pathManager)] *)
Definition create : t := mk JsMap.empty JsMap.empty.

(** [error instanceof Error ? error.message : 'Unknown error'] *)
Definition errorMessage (e : Thrown) : string :=
  match e with
  | ThrownError message => message
  | ThrownValue _ => "Unknown error"
  end.

(** The closure [handler] that [registerHandler] installs, invoked by
    the host as [handler(context, putPath, value, callback)].

    [this.pathManager.setValue(putPath, value)] is a call of an [async]
    method that is not awaited: it returns a promise and does not throw.
    Inside the [try] only [callback(result)] can throw. *)
Definition handler (app : ServerAPI) (pm : PathManager.t) (w : World)
    (now : Timestamp) (context putPath : string) (value : JsValue)
    (callback : option PutCallback) : PutOutcome :=
  let '(w1, promise) := PathManager.setValue app pm w now putPath value None in
  let result := mkPutResult COMPLETED (Some 200) None in
  match callback with
  | None => mkPutOutcome w1 promise [] (Ok result)
  | Some cb =>
      match cb result with
      | Ok _ => mkPutOutcome w1 promise [result] (Ok result)
      | Throw error =>
          (* [catch (error)] *)
          let failed := mkPutResult FAILED (Some 500) (Some (errorMessage error)) in
          match cb failed with
          | Ok _ => mkPutOutcome w1 promise [result; failed] (Ok failed)
          | Throw e' => mkPutOutcome w1 promise [result; failed] (Throw e')
          end
      end
  end.

(** [options.acceptAllSources ? undefined : SOURCE_LABEL] *)
Definition acceptedSource (options : PutOptions) : option string :=
  match opt_acceptAllSources options with
  | Some true => None
  | _ => Some SOURCE_LABEL
  end.

(** [options.acceptAllSources ?? false] *)
Definition acceptAllSourcesOrFalse (options : PutOptions) : bool :=
  match opt_acceptAllSources options with
  | Some b => b
  | None => false
  end.

(** [registerHandler(path, options = {})]; a [Throw] leaves the manager
    and the world as they were. *)
Definition registerHandler (app : ServerAPI) (m : t) (w : World)
    (now : Timestamp) (path : string) (options : PutOptions)
    : Result (t * World) :=
  if JsMap.has (handlers m) path then Ok (m, w)
  else
    match hostRegisterPutHandler app w "vessels.self" path (acceptedSource options) with
    | Throw e => Throw e
    | Ok (w', unregister) =>
        Ok (mk (JsMap.set (handlers m) path
                  (mkPutHandlerInfo path now (acceptAllSourcesOrFalse options)))
               (JsMap.set (unregisterFunctions m) path unregister),
            w')
    end.

(** [unregisterHandler(path)] *)
Definition unregisterHandler (m : t) (w : World) (path : string)
    : t * World * bool :=
  match JsMap.get (unregisterFunctions m) path with
  | None => (m, w, false)
  | Some unregister =>
      (mk (JsMap.delete (handlers m) path)
          (JsMap.delete (unregisterFunctions m) path),
       callUnregister w unregister,
       true)
  end.

Definition getHandlers (m : t) : list PutHandlerInfo := JsMap.values (handlers m).

Definition hasPutHandler (m : t) (path : string) : bool := JsMap.has (handlers m) path.

Definition getHandler (m : t) (path : string) : option PutHandlerInfo :=
  JsMap.get (handlers m) path.

(** [for (const path of this.handlers.keys()) this.unregisterHandler(path)].
    The iterator is live, and each step deletes at most the entry just
    visited, so the keys visited are the keys at the start, in order. *)
Definition unregisterAll (m : t) (w : World) : t * World :=
  fold_left
    (fun st path =>
       let '(m', w', _) := unregisterHandler (fst st) (snd st) path in (m', w'))
    (JsMap.keys (handlers m)) (m, w).

End PutHandlerManager.

(* ===================================================================== *)
(** ** WebSocketServer *)
(* ===================================================================== *)

Inductive ReadyState : Type := CONNECTING | OPEN | CLOSING | CLOSED.

Inductive WSUpdate : Type :=
| WSUpdatePath (path : PathInfo)       (* [{type: 'update', path}] *)
| WSFull (paths : list PathInfo)       (* [{type: 'full', paths}] *)
| WSError (message : string).          (* [{type: 'error', message}] *)

Record WSMessage : Type := mkWSMessage {
  msg_type : string;
  msg_paths : option (list string);
  msg_path : option string
}.

Record WhatIfClient : Type := mkClient {
  ws_readyState : ReadyState;
  ws_sent : list WSUpdate;             (* the messages given to [ws.send], in order *)
  client_id : string;
  subscriptions : JsSet.t
}.

(** An event of the host's delta stream, [{path, value, timestamp,
    $source, source}]; [d_path = None] is a missing path. *)
Record BusDelta : Type := mkBusDelta {
  d_path : option string;
  d_value : JsValue;
  d_timestamp : JsValue;
  d_dollarSource : JsValue;
  d_source : JsValue
}.

Module WebSocketServer.

Record t : Type := mk {
  clients : list WhatIfClient;       (* [Set<WhatIfClient>], in insertion order *)
  clientIdCounter : nat
}.

Definition isOpen (r : ReadyState) : bool :=
  match r with OPEN => true | _ => false end.

(** [send(client, message)] *)
Definition send (client : WhatIfClient) (message : WSUpdate) : WhatIfClient :=
  if isOpen (ws_readyState client)
  then mkClient (ws_readyState client) (ws_sent client ++ [message])%list
                (client_id client) (subscriptions client)
  else client.

Definition sendError (client : WhatIfClient) (message : string) : WhatIfClient :=
  send client (WSError message).

Definition withSubscriptions (client : WhatIfClient) (subs : JsSet.t) : WhatIfClient :=
  mkClient (ws_readyState client) (ws_sent client) (client_id client) subs.

(** the ['connection'] listener *)
Definition onConnection (srv : t) (readyState : ReadyState) : t :=
  let n := S (clientIdCounter srv) in
  let client :=
    mkClient readyState []
             ("client-" ++ DecimalString.NilEmpty.string_of_uint (Nat.to_uint n))
             JsSet.empty in
  mk (clients srv ++ [send client (WSFull [])])%list n.

(** the ['close'] and ['error'] listeners of the socket of client [id] *)
Definition onClose (srv : t) (id : string) : t :=
  mk (filter (fun client => negb (String.eqb (client_id client) id)) (clients srv))
     (clientIdCounter srv).

(** [handleDelta(delta)]; [None] is a null delta *)
Definition handleDelta (srv : t) (delta : option BusDelta) : t :=
  match delta with
  | None => srv
  | Some d =>
      match d_path d with
      | None => srv
      | Some path =>
          if negb (JsString.nonEmpty path) then srv
          else
            let pathInfo :=
              mkPathInfo path (d_value d) (d_timestamp d)
                         (Js.or (d_dollarSource d) (Js.optProp (d_source d) "label"))
                         JUndefined in
            mk (map (fun client =>
                       if JsSet.has (subscriptions client) path
                          || JsSet.has (subscriptions client) "*"
                       then send client (WSUpdatePath pathInfo)
                       else client)
                    (clients srv))
               (clientIdCounter srv)
      end
  end.

(** the loop [for (const path of client.subscriptions)] of
    [sendCurrentValues]: the snapshots pushed, or the first rejection *)
Fixpoint readSubscribed (app : ServerAPI) (pm : PathManager.t) (w : World)
    (subs : list string) : Promise (list PathInfo) :=
  match subs with
  | [] => Fulfilled []
  | path :: rest =>
      match PathManager.getPath app pm w path with
      | Rejected e => Rejected e
      | Fulfilled pathInfo =>
          match readSubscribed app pm w rest with
          | Rejected e => Rejected e
          | Fulfilled l =>
              Fulfilled (match pathInfo with Some i => i :: l | None => l end)
          end
      end
  end.

(** [sendCurrentValues(client)] from its call to its end, when nothing
    else runs between its [await]s and the host stays in the state [w]: the
    client after it and the promise it returned.  How the call proceeds from
    one [await] to the next is [callSendCurrentValues] and [resume] below. *)
Definition sendCurrentValues {C : Collation} (app : ServerAPI)
    (pm : PathManager.t) (w : World) (client : WhatIfClient)
    : WhatIfClient * Promise unit :=
  let paths :=
    if JsSet.has (subscriptions client) "*"
    then Fulfilled (PathManager.getAllPaths app pm w None)
    else readSubscribed app pm w (subscriptions client) in
  match paths with
  | Rejected e => (client, Rejected e)
  | Fulfilled l => (send client (WSFull l), Fulfilled tt)
  end.

(** Where a call of the [async] method [sendCurrentValues] stands.  An
    [await] always suspends the call: what follows it runs in a later turn
    of the engine, after the listener that made the call has returned, on
    the client and on the host as they are then. *)
Inductive Call : Type :=
| AwaitAllPaths (allPaths : list PathInfo)
    (* at [await this.pathManager.getAllPaths()], the listing being the one
       the call of [getAllPaths] made *)
| AwaitPath (cursor : nat) (paths : list PathInfo) (pathInfo : Promise (option PathInfo))
    (* at [await this.pathManager.getPath(path)]: the position of the
       iterator of [client.subscriptions], [paths] so far, and what the read
       of [path] gave *)
| Settled (result : Promise unit).
    (* the call has ended: the promise it had returned is settled *)

(** the loop [for (const path of client.subscriptions)] from the position
    of its iterator up to the next [await], or, when the iterator is
    exhausted, to the [send] that ends the call *)
Definition nextPath (app : ServerAPI) (pm : PathManager.t) (w : World)
    (client : WhatIfClient) (cursor : nat) (paths : list PathInfo)
    : WhatIfClient * Call :=
  match nth_error (subscriptions client) cursor with
  | Some path => (client, AwaitPath (S cursor) paths (PathManager.getPath app pm w path))
  | None => (send client (WSFull paths), Settled (Fulfilled tt))
  end.

(** [this.sendCurrentValues(client)], the call: the body up to its first
    [await].  With an empty set and no wildcard there is none, and the call
    ends at once. *)
Definition callSendCurrentValues {C : Collation} (app : ServerAPI)
    (pm : PathManager.t) (w : World) (client : WhatIfClient) : WhatIfClient * Call :=
  if JsSet.has (subscriptions client) "*"
  then (client, AwaitAllPaths (PathManager.getAllPaths app pm w None))
  else nextPath app pm w client 0 [].

(** [if (pathInfo) paths.push(pathInfo)] *)
Definition pushIfFound (paths : list PathInfo) (pathInfo : option PathInfo) : list PathInfo :=
  match pathInfo with
  | Some i => (paths ++ [i])%list
  | None => paths
  end.

(** the call goes on after the [await] it stands at, the host being in
    the state [w] and the client as it is now *)
Definition resume (app : ServerAPI) (pm : PathManager.t) (w : World)
    (client : WhatIfClient) (call : Call) : WhatIfClient * Call :=
  match call with
  | AwaitAllPaths allPaths => (send client (WSFull allPaths), Settled (Fulfilled tt))
  | AwaitPath cursor paths (Fulfilled pathInfo) =>
      nextPath app pm w client cursor (pushIfFound paths pathInfo)
  | AwaitPath _ _ (Rejected e) => (client, Settled (Rejected e))
  | Settled result => (client, Settled result)
  end.

(** [handleMessage(client, message)].  For ['subscribe'] the second
    component is the call of [sendCurrentValues] that [handleMessage] makes
    and does not await: the listener returns with the call standing at its
    first [await]. *)
Definition handleMessage {C : Collation} (app : ServerAPI)
    (pm : PathManager.t) (w : World) (client : WhatIfClient)
    (message : WSMessage) : WhatIfClient * option Call :=
  if String.eqb (msg_type message) "subscribe" then
    let subs :=
      match msg_paths message with
      | Some paths => fold_left JsSet.add paths (subscriptions client)
      | None =>
          match msg_path message with
          | Some path =>
              if JsString.nonEmpty path
              then JsSet.add (subscriptions client) path
              else subscriptions client
          | None => subscriptions client
          end
      end in
    let '(client', call) :=
      callSendCurrentValues app pm w (withSubscriptions client subs) in
    (client', Some call)
  else if String.eqb (msg_type message) "unsubscribe" then
    let subs :=
      match msg_paths message with
      | Some paths => fold_left JsSet.delete paths (subscriptions client)
      | None =>
          match msg_path message with
          | Some path =>
              if JsString.nonEmpty path
              then JsSet.delete (subscriptions client) path
              else subscriptions client
          | None => subscriptions client
          end
      end in
    (withSubscriptions client subs, None)
  else if String.eqb (msg_type message) "unsubscribeAll" then
    (withSubscriptions client (JsSet.clear (subscriptions client)), None)
  else
    (sendError client ("Unknown message type: " ++ msg_type message), None).

End WebSocketServer.

(* ===================================================================== *)
(** ** Notions the statements use *)
(* ===================================================================== *)

(** The source label the tree currently reports for [path]: [$source],
    or else [source.label], of the node [app.getSelfPath(path)] returns;
    [JUndefined] when the read throws or returns nothing. *)
Definition currentSource (app : ServerAPI) (w : World) (path : string) : JsValue :=
  match app_getSelfPath app w path with
  | Ok currentData =>
      if Js.truthy currentData
      then Js.or (Js.prop currentData "$source")
                 (Js.optProp (Js.prop currentData "source") "label")
      else JUndefined
  | Throw _ => JUndefined
  end.

(** Hosts to run the plugin against. *)
Module SampleHost.

Definition lookupNode (table : list (string * JsValue)) (path : string) : JsValue :=
  match Js.lookup table path with
  | Some node => node
  | None => JUndefined
  end.

(** accepts every write; [getSelfPath] answers from a table of nodes
    that the writes do not change *)
Definition tableApp (table : list (string * JsValue)) : ServerAPI :=
  mkServerAPI None false
              (fun _ _ => Ok JUndefined)
              (fun _ path => Ok (lookupNode table path))
              (fun _ _ _ => Ok tt)
              (fun _ _ _ _ => Ok tt)
              (fun _ => None).

(** the node a values update leaves at [path] *)
Definition nodeOfUpdate (path : string) (u : Update) : option JsValue :=
  match upd_body u with
  | Values values =>
      match Js.lookup values path with
      | Some v =>
          Some (JObject [("value", v);
                         ("$source", JString (upd_source u));
                         ("timestamp", JString (upd_timestamp u))])
      | None => None
      end
  | Meta _ => None
  end.

(** the node the deltas accepted so far leave at [path]: the last
    value written wins *)
Definition nodeOfBus (b : list (string * Delta)) (path : string) : option JsValue :=
  fold_left
    (fun acc u => match nodeOfUpdate path u with Some n => Some n | None => acc end)
    (flat_map (fun e => delta_updates (snd e)) b)
    None.

(** accepts every write and applies it: [getSelfPath] answers with the
    last value written through [handleMessage], or else from the table *)
Definition liveApp (table : list (string * JsValue)) : ServerAPI :=
  mkServerAPI None false
              (fun _ _ => Ok JUndefined)
              (fun w path =>
                 Ok (match nodeOfBus (bus w) path with
                     | Some node => node
                     | None => lookupNode table path
                     end))
              (fun _ _ _ => Ok tt)
              (fun _ _ _ _ => Ok tt)
              (fun _ => None).

(** refuses every [handleMessage] with [new Error(message)] *)
Definition refusingApp (table : list (string * JsValue)) (message : string) : ServerAPI :=
  mkServerAPI None false
              (fun _ _ => Ok JUndefined)
              (fun _ path => Ok (lookupNode table path))
              (fun _ _ _ => Throw (ThrownError message))
              (fun _ _ _ _ => Ok tt)
              (fun _ => None).

Definition sog : string := "navigation.speedOverGround".

Definition n2kTable : list (string * JsValue) :=
  [(sog, JObject [("value", JNumber (3 # 1)); ("$source", JString "n2k-01")])].

Definition injectedTable : list (string * JsValue) :=
  [(sog, JObject [("value", JNumber (3 # 1)); ("$source", JString "n2k-01.whatif-helper")])].

End SampleHost.

(** Calls on a [PutHandlerManager], and the state after a sequence of
    them.  A [registerHandler] that throws leaves the state as it was. *)
Inductive PutCall : Type :=
| CallRegister (now : Timestamp) (path : string) (options : PutOptions)
| CallUnregister (path : string)
| CallUnregisterAll.

Definition stepPut (app : ServerAPI) (st : PutHandlerManager.t * World) (c : PutCall)
  : PutHandlerManager.t * World :=
  match c with
  | CallRegister now path options =>
      match PutHandlerManager.registerHandler app (fst st) (snd st) now path options with
      | Ok st' => st'
      | Throw _ => st
      end
  | CallUnregister path =>
      let '(m', w', _) := PutHandlerManager.unregisterHandler (fst st) (snd st) path in
      (m', w')
  | CallUnregisterAll => PutHandlerManager.unregisterAll (fst st) (snd st)
  end.

(** the world a fresh manager starts in: nothing installed yet *)
Definition freshWorld (b : list (string * Delta)) (n : nat) (t : list Timer) : World :=
  mkWorld b [] n t.

Definition runPut (app : ServerAPI) (w0 : World) (calls : list PutCall)
  : PutHandlerManager.t * World :=
  fold_left (stepPut app) calls (PutHandlerManager.create, w0).

(** the interceptors installed at the host for [path] *)
Definition activeFor (w : World) (path : string) : list PutRegistration :=
  filter (fun r => String.eqb (reg_path r) path) (putHandlers w).

(** What every reachable state of a [PutHandlerManager] satisfies: the
    two maps have the same keys, in the same order, and the host holds
    exactly the interceptors the unregister closures stand for. *)
Record PutInvariant (m : PutHandlerManager.t) (w : World) : Prop := mkPutInvariant {
  inv_keys :
    JsMap.keys (PutHandlerManager.handlers m)
    = JsMap.keys (PutHandlerManager.unregisterFunctions m);
  inv_nodup : NoDup (JsMap.keys (PutHandlerManager.handlers m));
  inv_host :
    map (fun r => (reg_path r, reg_handle r)) (putHandlers w)
    = PutHandlerManager.unregisterFunctions m;
  inv_fresh : Forall (fun r => reg_handle r < nextHandle w) (putHandlers w);
  inv_handles : NoDup (map reg_handle (putHandlers w));
  inv_info :
    Forall (fun kv => hi_path (snd kv) = fst kv) (PutHandlerManager.handlers m)
}.

(** [{state: 'COMPLETED', statusCode: 200}] *)
Definition completed200 : PutResult := mkPutResult COMPLETED (Some 200) None.

(** [{state: 'FAILED', statusCode: 500, message}] *)
Definition failed500 (message : string) : PutResult :=
  mkPutResult FAILED (Some 500) (Some message).

(** a host callback that returns normally *)
Definition quietCallback : PutCallback := fun _ => Ok tt.

(** an observer is sent updates for [path] when its set holds [path] or
    the wildcard *)
Definition subscribedTo (client : WhatIfClient) (path : string) : Prop :=
  In path (subscriptions client) \/ In "*" (subscriptions client).

(** the paths a ['subscribe'] or ['unsubscribe'] message names *)
Definition namedPaths (message : WSMessage) : list string :=
  match msg_paths message with
  | Some paths => paths
  | None =>
      match msg_path message with
      | Some path => if JsString.nonEmpty path then [path] else []
      | None => []
      end
  end.

(** the snapshots of a list of reads, those that found nothing left out *)
Definition found (reads : list (option PathInfo)) : list PathInfo :=
  flat_map (fun r => match r with Some i => [i] | None => [] end) reads.

(** Calls of [createPath], and the manager after a sequence of them run
    against a host in world [w]. *)
Record CreateCall : Type := mkCreateCall {
  cc_now : Timestamp;
  cc_nowMeta : Timestamp;
  cc_path : string;
  cc_value : JsValue;
  cc_meta : JsValue            (* [JUndefined] when no metadata is passed *)
}.

Definition stepCreate (app : ServerAPI) (st : PathManager.t * World) (c : CreateCall)
  : PathManager.t * World :=
  let '(pm', w', _) :=
    PathManager.createPath app (fst st) (snd st) (cc_now c) (cc_nowMeta c)
                           (cc_path c) (cc_value c) (cc_meta c) in
  (pm', w').

Definition runCreate (app : ServerAPI) (w : World) (calls : list CreateCall)
  : PathManager.t * World :=
  fold_left (stepCreate app) calls (PathManager.create app, w).

(** An engine to run examples with: the order of the character codes,
    and the lower case of the letters [A]..[Z]. *)
Definition codeOrder : Collation :=
  {| localeCompare := fun a b =>
       match String.compare a b with
       | Lt => (-1)%Z
       | Eq => 0%Z
       | Gt => 1%Z
       end;
     toLowerCase := JsString.lowerCaseAscii |}.

Module SampleTree.

(** [{ x: { y: { value: 1, $source: 'n2k-01' } } }] *)
Definition xy : JsValue :=
  JObject [("x", JObject [("y", JObject [("value", JNumber (1 # 1));
                                          ("$source", JString "n2k-01")])])].

(** the nodes [getSelfPath] finds in [xy] *)
Definition xyTable : list (string * JsValue) :=
  [("", xy);
   ("x", JObject [("y", JObject [("value", JNumber (1 # 1)); ("$source", JString "n2k-01")])]);
   ("x.y", JObject [("value", JNumber (1 # 1)); ("$source", JString "n2k-01")])].

Definition subscribeXY : WSMessage := mkWSMessage "subscribe" (Some ["x.y"; "no.such.path"]) None.

(** a tree with two tanks and a speed *)
Definition tanks : JsValue :=
  JObject
    [("tanks",
      JObject
        [("fuel",
          JObject
            [("0",
              JObject
                [("currentLevel",
                  JObject [("value", JNumber (3 # 4));
                           ("$source", JString "n2k-01");
                           ("meta", JObject [("units", JString "ratio")])])])]);
         ("freshWater",
          JObject
            [("0",
              JObject
                [("currentLevel",
                  JObject [("value", JNull);
                           ("$source", JString "n2k-02");
                           ("meta", JObject [("units", JString "ratio")])])])])]);
     ("navigation",
      JObject
        [("speedOverGround",
          JObject [("value", JNumber (3 # 1));
                   ("$source", JString "n2k-01");
                   ("meta", JObject [("units", JString "m/s")])])])].

Definition tanksTable : list (string * JsValue) := [("", tanks)].

Definition tankFilter : PathFilter :=
  mkPathFilter (Some "TANK") (Some true) (Some true) (Some "ratio").

End SampleTree.




(** the test of the search criterion:
    [path.toLowerCase().includes(search.toLowerCase())] *)
Definition searchMatches {C : Collation} (path search : string) : bool :=
  JsString.includes (toLowerCase path) (toLowerCase search).


Definition givenString (o : option string) : option string :=
  match o with
  | Some s => if JsString.nonEmpty s then Some s else None
  | None => None
  end.

Definition givenFlag (o : option bool) : bool :=
  match o with Some true => true | _ => false end.

(** [Satisfies], decided *)
Definition satisfiesb {C : Collation} (f : PathFilter) (p : PathInfo) : bool :=
  match givenString (pf_search f) with
  | Some s => searchMatches (pi_path p) s
  | None => true
  end
  && (if givenFlag (pf_hasValue f) then negb (Js.isNullish (pi_value p)) else true)
  && (if givenFlag (pf_hasMeta f) then negb (Js.isUndefined (pi_meta p)) else true)
  && match givenString (pf_baseUnit f) with
     | Some u => PathManager.strictEqString (Js.optProp (pi_meta p) "units") u
     | None => true
     end.


(** the order of the listing *)
Definition pathLe {C : Collation} (a b : PathInfo) : Prop :=
  (localeCompare (pi_path a) (pi_path b) <= 0)%Z.

(** what [getAllPaths] reads from the host *)
Definition treeReads (app : ServerAPI) (w : World)
  : bool * Result JsValue * Result JsValue * option JsValue :=
  (app_hasGetPath app,
   app_getPath app w "vessels.self",
   app_getSelfPath app w "",
   app_fetchVesselsSelf app w).

(* ===================================================================== *)
(** ** Notions for the walk of the tree *)
(* ===================================================================== *)

(** what [extractPaths] iterates over at a node: the properties of an
    object, the items of an array under their indices *)
Definition childEntries (v : JsValue) : list (string * JsValue) :=
  match v with
  | JObject props => props
  | JArray items => JsArray.indexedFrom 0 items
  | _ => []
  end.

(** [Reach root keys node]: following [keys] from [root], one entry of an
    object or array at a time, leads to [node] *)
Inductive Reach : JsValue -> list string -> JsValue -> Prop :=
| Reach_here (v : JsValue) : Reach v [] v
| Reach_step (v : JsValue) (key : string) (child : JsValue)
             (keys : list string) (node : JsValue) :
    In (key, child) (childEntries v) ->
    Reach child keys node ->
    Reach v (key :: keys) node.

(** no object of the tree has two properties of the same name, as is the
    case of every JavaScript object (the indices of an array are distinct
    anyway) *)
Inductive UniqueKeys : JsValue -> Prop :=
| UniqueKeys_node (v : JsValue) :
    NoDup (map fst (childEntries v)) ->
    (forall (key : string) (child : JsValue),
        In (key, child) (childEntries v) -> UniqueKeys child) ->
    UniqueKeys v.

(** [keys] leads from [obj], by keys that [extractPaths] follows, to an
    object that has a [value] key *)
Definition Leaf (obj : JsValue) (keys : list string) : Prop :=
  exists (props : list (string * JsValue)) (v : JsValue),
    Reach obj keys (JObject props)
    /\ Forall (fun key => PathManager.skipKey key = false) keys
    /\ Js.lookup props "value" = Some v.

(** the path [extractPaths] builds going down [keys] from [currentPath] *)
Definition joinPath (currentPath : string) (keys : list string) : string :=
  fold_left PathManager.childPath keys currentPath.

(** [typeof child === 'object'] and [child] truthy: an object or an array *)
Definition isContainer (v : JsValue) : bool := Js.truthy v && Js.typeofObject v.

(** the snapshot [extractPaths] pushes for an object [{...props}] that
    has a [value] key, found at [path] *)
Definition leafSnapshot (created : JsMap.t JsValue) (path : string)
    (props : list (string * JsValue)) (v : JsValue) : PathInfo :=
  mkPathInfo path v
    (Js.prop (JObject props) "timestamp")
    (Js.or (Js.prop (JObject props) "$source")
           (Js.optProp (Js.prop (JObject props) "source") "label"))
    (PathManager.withCustomMeta created path
       (if Js.truthy (Js.prop (JObject props) "meta")
        then Js.prop (JObject props) "meta" else JUndefined)).

(** [i] is the snapshot of the object found at [keys] under [obj], the
    walk having started at [currentPath] *)
Definition SnapshotAt (created : JsMap.t JsValue) (obj : JsValue) (currentPath : string)
    (keys : list string) (i : PathInfo) : Prop :=
  exists (props : list (string * JsValue)) (v : JsValue),
    Reach obj keys (JObject props)
    /\ Js.lookup props "value" = Some v
    /\ i = leafSnapshot created (joinPath currentPath keys) props v.

(** the loop of [extractPaths] over the properties of an object *)
Fixpoint extractEntries (created : JsMap.t JsValue) (currentPath : string)
    (entries : list (string * JsValue)) : list PathInfo :=
  match entries with
  | [] => []
  | (key, child) :: rest =>
      ((if PathManager.skipKey key then []
        else if isContainer child
             then PathManager.extractPaths created child (PathManager.childPath currentPath key)
             else [])
       ++ extractEntries created currentPath rest)%list
  end.

(** a snapshot with the registry's metadata for its path merged in *)
Definition applyRegistry (created : JsMap.t JsValue) (i : PathInfo) : PathInfo :=
  mkPathInfo (pi_path i) (pi_value i) (pi_timestamp i) (pi_source i)
             (PathManager.withCustomMeta created (pi_path i) (pi_meta i)).

(** the metadata the last [createPath] call for [p] with metadata gave *)
Definition lastMeta (calls : list CreateCall) (p : string) : option JsValue :=
  fold_left
    (fun acc c =>
       if String.eqb (cc_path c) p && Js.truthy (cc_meta c) then Some (cc_meta c) else acc)
    calls None.

(** the delta [setValue(path, value)] builds, without an explicit source *)
Definition valueDelta (app : ServerAPI) (pm : PathManager.t) (w : World)
    (now : Timestamp) (path : string) (value : JsValue) : Delta :=
  mkDelta (PathManager.selfContext pm)
          [mkUpdate (PathManager.sourceLabel app w path None) now (Values [(path, value)])].

(** the metadata delta [createPath] sends *)
Definition metaDelta (pm : PathManager.t) (nowMeta : Timestamp) (path : string)
    (meta : JsValue) : Delta :=
  mkDelta (PathManager.selfContext pm)
          [mkUpdate SOURCE_LABEL nowMeta (Meta [(path, meta)])].

(* ===================================================================== *)
(** ** Notions for the PUT handlers *)
(* ===================================================================== *)

(** an interceptor at the host is installed the way its stored
    registration says: for the self vessel, and accepting every source
    exactly when [acceptAllSources] is stored, the reserved one otherwise *)
Definition installedAsStored (m : PutHandlerManager.t) (r : PutRegistration) : Prop :=
  reg_context r = "vessels.self"
  /\ exists info : PutHandlerInfo,
      PutHandlerManager.getHandler m (reg_path r) = Some info
      /\ hi_path info = reg_path r
      /\ reg_source r = if hi_acceptAllSources info then None else Some SOURCE_LABEL.

(* ===================================================================== *)
(** ** Notions for the live updates *)
(* ===================================================================== *)

(** the ['message'] listener of the socket of client [id], for a message
    that parses: [handleMessage(client, message)] on that client, up to the
    return of the listener *)
Definition onMessage {C : Collation} (app : ServerAPI) (pm : PathManager.t) (w : World)
    (srv : WebSocketServer.t) (id : string) (message : WSMessage) : WebSocketServer.t :=
  WebSocketServer.mk
    (map (fun client =>
            if String.eqb (client_id client) id
            then fst (WebSocketServer.handleMessage app pm w client message)
            else client)
         (WebSocketServer.clients srv))
    (WebSocketServer.clientIdCounter srv).

(** What happens to a [WebSocketServer]: a connection is accepted, a
    socket closes, a client sends a message, the bus delivers a delta.  The
    world is the state of the host when the event is handled.  Each is
    handled by a listener that runs to its return; the calls of
    [sendCurrentValues] that the listener of a message leaves standing at an
    [await] go on in the turns of a [Runtime], below. *)
Inductive WsEvent : Type :=
| EvConnection (readyState : ReadyState)
| EvClose (id : string)
| EvMessage (w : World) (id : string) (message : WSMessage)
| EvDelta (delta : option BusDelta).

Definition stepWs {C : Collation} (app : ServerAPI) (pm : PathManager.t)
    (srv : WebSocketServer.t) (ev : WsEvent) : WebSocketServer.t :=
  match ev with
  | EvConnection readyState => WebSocketServer.onConnection srv readyState
  | EvClose id => WebSocketServer.onClose srv id
  | EvMessage w id message => onMessage app pm w srv id message
  | EvDelta delta => WebSocketServer.handleDelta srv delta
  end.

(** [new WebSocketServer(app, pathManager)] *)
Definition newServer : WebSocketServer.t := WebSocketServer.mk [] 0.

Definition runWs {C : Collation} (app : ServerAPI) (pm : PathManager.t)
    (events : list WsEvent) : WebSocketServer.t :=
  fold_left (stepWs app pm) events newServer.

(** [`client-${k}`] *)
Definition clientIdOf (k : nat) : string :=
  "client-" ++ DecimalString.NilEmpty.string_of_uint (Nat.to_uint k).

(** the number of connections accepted among [events] *)
Definition connections (events : list WsEvent) : nat :=
  List.length (filter (fun ev => match ev with EvConnection _ => true | _ => false end) events).

(* ===================================================================== *)
(** ** The turns of the engine *)
(* ===================================================================== *)

(** The server with the calls of [sendCurrentValues] that stand at an
    [await], each with the id of the client it was made for. *)
Record Runtime : Type := mkRuntime {
  rt_server : WebSocketServer.t;
  rt_pending : list (string * WebSocketServer.Call)
}.

(** A turn of the engine: the listener of an event runs, or one of the
    pending calls goes on, the [k]-th, the host being in state [w]. *)
Inductive Turn : Type :=
| TEvent (ev : WsEvent)
| TResume (w : World) (k : nat).

(** the client object of id [id] *)
Definition findClient (srv : WebSocketServer.t) (id : string) : option WhatIfClient :=
  find (fun client => String.eqb (client_id client) id) (WebSocketServer.clients srv).

(** the client object of id [client_id client'] is now [client'] *)
Definition putClient (srv : WebSocketServer.t) (client' : WhatIfClient) : WebSocketServer.t :=
  WebSocketServer.mk
    (map (fun client =>
            if String.eqb (client_id client) (client_id client') then client' else client)
         (WebSocketServer.clients srv))
    (WebSocketServer.clientIdCounter srv).

Definition removeNth {A : Type} (k : nat) (l : list A) : list A :=
  (firstn k l ++ skipn (S k) l)%list.

Definition replaceNth {A : Type} (k : nat) (x : A) (l : list A) : list A :=
  (firstn k l ++ x :: skipn (S k) l)%list.

(** the iterator of a pending call, after the set it runs over has
    changed from [old] to [new] *)
Definition repositioned (old new : JsSet.t) (call : WebSocketServer.Call)
    : WebSocketServer.Call :=
  match call with
  | WebSocketServer.AwaitPath cursor paths pathInfo =>
      WebSocketServer.AwaitPath (JsSet.reposition old new cursor) paths pathInfo
  | other => other
  end.

(** One turn.  The listener of a message changes the set of its client
    under the iterators of the calls pending for that client, and leaves
    the call it makes, if it has not ended, among the pending ones.  A call
    whose client has been removed by the listener of ['close'] goes on over
    a socket that is closed: it sends nothing, and is dropped. *)
Definition turn {C : Collation} (app : ServerAPI) (pm : PathManager.t)
    (rt : Runtime) (t : Turn) : Runtime :=
  match t with
  | TEvent ev =>
      let srv' := stepWs app pm (rt_server rt) ev in
      match ev with
      | EvMessage w id message =>
          match findClient (rt_server rt) id with
          | None => mkRuntime srv' (rt_pending rt)
          | Some client =>
              let '(client', call) := WebSocketServer.handleMessage app pm w client message in
              mkRuntime srv'
                (map (fun p =>
                        if String.eqb (fst p) id
                        then (fst p, repositioned (subscriptions client) (subscriptions client')
                                                  (snd p))
                        else p)
                     (rt_pending rt)
                 ++ match call with
                    | Some (WebSocketServer.Settled _) | None => []
                    | Some standing => [(id, standing)]
                    end)%list
          end
      | _ => mkRuntime srv' (rt_pending rt)
      end
  | TResume w k =>
      match nth_error (rt_pending rt) k with
      | None => rt
      | Some (id, call) =>
          match findClient (rt_server rt) id with
          | None => mkRuntime (rt_server rt) (removeNth k (rt_pending rt))
          | Some client =>
              let '(client', call') := WebSocketServer.resume app pm w client call in
              mkRuntime (putClient (rt_server rt) client')
                        (match call' with
                         | WebSocketServer.Settled _ => removeNth k (rt_pending rt)
                         | standing => replaceNth k (id, standing) (rt_pending rt)
                         end)
          end
      end
  end.

(** [new WebSocketServer(app, pathManager)], nothing pending *)
Definition newRuntime : Runtime := mkRuntime newServer [].

Definition runTurns {C : Collation} (app : ServerAPI) (pm : PathManager.t)
    (rt : Runtime) (turns : list Turn) : Runtime :=
  fold_left (turn app pm) turns rt.

(** the reads of the paths of a set, one a turn: the first in the state
    of the host at the call, each of the others in the state at the turn in
    which the call goes on *)
Definition readsInTurn (app : ServerAPI) (pm : PathManager.t)
    (subs : list string) (worlds : list World) (reads : list (option PathInfo)) : Prop :=
  Forall2 (fun pw r => PathManager.getPath app pm (snd pw) (fst pw) = Fulfilled r)
          (combine subs worlds) reads.

(** the call resumed turn after turn on the client it has left, no other
    turn in between, the host in the state [w] of [worlds] at each *)
Fixpoint resumeIn (app : ServerAPI) (pm : PathManager.t) (worlds : list World)
    (st : WhatIfClient * WebSocketServer.Call) : WhatIfClient * WebSocketServer.Call :=
  match worlds with
  | [] => st
  | w :: worlds' => resumeIn app pm worlds' (WebSocketServer.resume app pm w (fst st) (snd st))
  end.

(** the entry of a call among the pending ones: none once it has ended *)
Definition standing (id : string) (call : WebSocketServer.Call)
    : list (string * WebSocketServer.Call) :=
  match call with
  | WebSocketServer.Settled _ => []
  | other => [(id, other)]
  end.

(* ===================================================================== *)
(** ** Regular expressions, as far as [index.ts] uses them *)
(* ===================================================================== *)

Module RegExp.

(** a pattern anchored by [^] and [$]: [test] asks for a match of the
    whole string *)
Inductive t : Type :=
| Never                                   (* matches nothing *)
| Eps                                     (* matches the empty string *)
| Class (ranges : list (ascii * ascii))   (* [[a-zA-Z]], and [\.] as [[.-.]] *)
| Seq (r1 r2 : t)
| Alt (r1 r2 : t)
| Star (r : t).

(** [r+] *)
Definition plus (r : t) : t := Seq r (Star r).

Definition inRange (c : ascii) (range : ascii * ascii) : bool :=
  Nat.leb (nat_of_ascii (fst range)) (nat_of_ascii c)
  && Nat.leb (nat_of_ascii c) (nat_of_ascii (snd range)).

Definition inClass (ranges : list (ascii * ascii)) (c : ascii) : bool :=
  existsb (inRange c) ranges.

Fixpoint nullable (r : t) : bool :=
  match r with
  | Never => false
  | Eps => true
  | Class _ => false
  | Seq r1 r2 => nullable r1 && nullable r2
  | Alt r1 r2 => nullable r1 || nullable r2
  | Star _ => true
  end.

(** what is left of [r] to match after the character [c] *)
Fixpoint deriv (c : ascii) (r : t) : t :=
  match r with
  | Never => Never
  | Eps => Never
  | Class ranges => if inClass ranges c then Eps else Never
  | Seq r1 r2 =>
      if nullable r1
      then Alt (Seq (deriv c r1) r2) (deriv c r2)
      else Seq (deriv c r1) r2
  | Alt r1 r2 => Alt (deriv c r1) (deriv c r2)
  | Star r1 => Seq (deriv c r1) (Star r1)
  end.

(** [/^r$/.test(s)] *)
Fixpoint test (r : t) (s : string) : bool :=
  match s with
  | EmptyString => nullable r
  | String c rest => test (deriv c r) rest
  end.

(** the strings a pattern denotes *)
Inductive Matches : t -> string -> Prop :=
| MEps : Matches Eps EmptyString
| MClass ranges c : inClass ranges c = true -> Matches (Class ranges) (String c EmptyString)
| MSeq r1 r2 s1 s2 : Matches r1 s1 -> Matches r2 s2 -> Matches (Seq r1 r2) (s1 ++ s2)
| MAltL r1 r2 s : Matches r1 s -> Matches (Alt r1 r2) s
| MAltR r1 r2 s : Matches r2 s -> Matches (Alt r1 r2) s
| MStarNil r : Matches (Star r) EmptyString
| MStarCons r s1 s2 : Matches r s1 -> Matches (Star r) s2 -> Matches (Star r) (s1 ++ s2).

End RegExp.

Definition isLetter (c : ascii) : bool :=
  let n := nat_of_ascii c in
  (Nat.leb 65 n && Nat.leb n 90) || (Nat.leb 97 n && Nat.leb n 122).

Definition isDigit (c : ascii) : bool :=
  let n := nat_of_ascii c in Nat.leb 48 n && Nat.leb n 57.

Fixpoint allChars (f : ascii -> bool) (s : string) : bool :=
  match s with
  | EmptyString => true
  | String c r => f c && allChars f r
  end.

(** a letter followed by letters and digits, or one or more digits *)
Definition validSegment (s : string) : bool :=
  match s with
  | EmptyString => false
  | String c r =>
      (isLetter c && allChars (fun x => isLetter x || isDigit x) r)
      || (isDigit c && allChars isDigit r)
  end.

(** the pieces of [s] between its dots *)
Fixpoint segments (s : string) : list string :=
  match s with
  | EmptyString => [EmptyString]
  | String c r =>
      if Ascii.eqb c "." then EmptyString :: segments r
      else match segments r with
           | seg :: segs => String c seg :: segs
           | [] => [String c EmptyString]
           end
  end.

(** every piece between the dots is a valid segment *)
Definition validPathFormat (path : string) : bool :=
  forallb validSegment (segments path).

(** no dot in [s] *)
Definition noDot (s : string) : bool := allChars (fun c => negb (Ascii.eqb c ".")) s.

(** [pieces.join('.')] *)
Fixpoint joinDots (pieces : list string) : string :=
  match pieces with
  | [] => EmptyString
  | [x] => x
  | x :: rest => x ++ "." ++ joinDots rest
  end.

(* ===================================================================== *)
(** ** The HTTP routes of [index.ts] that call the managers *)
(* ===================================================================== *)

Module Routes.

(** the managers the plugin holds, and the host *)
Record Plugin : Type := mkPlugin {
  pathManager : PathManager.t;
  putHandlerManager : PutHandlerManager.t;
  world : World
}.

(** an entry of [scenario.paths] *)
Record ScenarioPath : Type := mkScenarioPath {
  sp_path : string;
  sp_value : JsValue;
  sp_meta : JsValue;                 (* [JUndefined] when absent *)
  sp_enablePut : option bool
}.

(** an entry of [results] in [POST /scenarios/:id/run] *)
Record RunResult : Type := mkRunResult {
  rr_path : string;
  rr_success : bool;
  rr_putRegistered : option bool;    (* absent on failure *)
  rr_error : option Thrown           (* the exception that [String(err)] renders *)
}.

Inductive ResponseBody : Type :=
| ErrorBody (error : string)                                   (* [{error}] *)
| CreatedBody (path : string) (value meta : JsValue) (hasPutHandler : bool)
| ValueBody (path : string) (value : JsValue) (source : option string)
            (timestamp : Timestamp)
| RegisteredBody (path : string) (registeredAt : Timestamp) (acceptAllSources : bool)
| RunBody (scenario : string) (applied failed putsRegistered : nat) (results : list RunResult)
| NoBody.                                                      (* [res.status(204).send()] *)

Record Response : Type := mkResponse {
  status : nat;
  body : ResponseBody
}.

(** [/^([a-zA-Z][a-zA-Z0-9]*|[0-9]+)(\.([a-zA-Z][a-zA-Z0-9]*|[0-9]+))*$/] *)
Definition segmentPattern : RegExp.t :=
  RegExp.Alt
    (RegExp.Seq (RegExp.Class [("a"%char, "z"%char); ("A"%char, "Z"%char)])
                (RegExp.Star (RegExp.Class [("a"%char, "z"%char); ("A"%char, "Z"%char); ("0"%char, "9"%char)])))
    (RegExp.plus (RegExp.Class [("0"%char, "9"%char)])).

Definition pathPattern : RegExp.t :=
  RegExp.Seq segmentPattern
             (RegExp.Star (RegExp.Seq (RegExp.Class [("."%char, "."%char)]) segmentPattern)).

(** the body of [POST /paths] *)
Record CreatePathRequest : Type := mkCreatePathRequest {
  cr_path : option string;
  cr_value : JsValue;
  cr_meta : JsValue;
  cr_enablePut : option bool
}.

(** [router.post('/paths', ...)]; [now], [nowMeta] and [nowPut] are the
    readings of the clock in [setValue], [createPath] and
    [registerHandler] *)
Definition postPaths (app : ServerAPI) (p : Plugin) (now nowMeta nowPut : Timestamp)
    (req : CreatePathRequest) : Plugin * Response :=
  match cr_path req with
  | None => (p, mkResponse 400 (ErrorBody "Path is required"))
  | Some path =>
      if negb (JsString.nonEmpty path)
      then (p, mkResponse 400 (ErrorBody "Path is required"))
      else if Js.isUndefined (cr_value req)
      then (p, mkResponse 400 (ErrorBody "Value is required"))
      else if negb (RegExp.test pathPattern path)
      then (p, mkResponse 400
                 (ErrorBody "Invalid path format. Use dot-separated segments (alphanumeric or numeric)."))
      else
        match PathManager.createPath app (pathManager p) (world p) now nowMeta
                                     path (cr_value req) (cr_meta req) with
        | (pm', w', Rejected _) =>
            (mkPlugin pm' (putHandlerManager p) w',
             mkResponse 500 (ErrorBody "Failed to create path"))
        | (pm', w', Fulfilled _) =>
            match cr_enablePut req with
            | Some true =>
                match PutHandlerManager.registerHandler app (putHandlerManager p) w' nowPut
                        path (mkPutOptions (Some true)) with
                | Throw _ =>
                    (mkPlugin pm' (putHandlerManager p) w',
                     mkResponse 500 (ErrorBody "Failed to create path"))
                | Ok (m', w'') =>
                    (mkPlugin pm' m' w'',
                     mkResponse 201 (CreatedBody path (cr_value req) (cr_meta req) true))
                end
            | other =>
                (mkPlugin pm' (putHandlerManager p) w',
                 mkResponse 201
                   (CreatedBody path (cr_value req) (cr_meta req)
                      (match other with Some b => b | None => false end)))
            end
        end
  end.

(** the body of [PUT /value/*] *)
Record SetValueRequest : Type := mkSetValueRequest {
  sv_value : JsValue;
  sv_source : option string
}.

(** [router.put('/value/*', ...)]; [skPath] is [req.params[0]] and
    [nowResponse] the clock read for the response *)
Definition putValue (app : ServerAPI) (p : Plugin) (now nowResponse : Timestamp)
    (skPath : string) (req : SetValueRequest) : Plugin * Response :=
  if negb (JsString.nonEmpty skPath)
  then (p, mkResponse 400 (ErrorBody "Path required"))
  else if Js.isUndefined (sv_value req)
  then (p, mkResponse 400 (ErrorBody "Value is required"))
  else
    match PathManager.setValue app (pathManager p) (world p) now skPath
                               (sv_value req) (sv_source req) with
    | (w', Rejected _) =>
        (mkPlugin (pathManager p) (putHandlerManager p) w',
         mkResponse 500 (ErrorBody "Failed to set value"))
    | (w', Fulfilled _) =>
        (mkPlugin (pathManager p) (putHandlerManager p) w',
         mkResponse 200 (ValueBody skPath (sv_value req) (sv_source req) nowResponse))
    end.

(** the body of [POST /puts] *)
Record RegisterPutRequest : Type := mkRegisterPutRequest {
  rp_path : option string;
  rp_options : option PutOptions
}.

(** [router.post('/puts', ...)] *)
Definition postPuts (app : ServerAPI) (p : Plugin) (now nowResponse : Timestamp)
    (req : RegisterPutRequest) : Plugin * Response :=
  match rp_path req with
  | None => (p, mkResponse 400 (ErrorBody "Path is required"))
  | Some path =>
      if negb (JsString.nonEmpty path)
      then (p, mkResponse 400 (ErrorBody "Path is required"))
      else if PutHandlerManager.hasPutHandler (putHandlerManager p) path
      then (p, mkResponse 409 (ErrorBody "PUT handler already registered for this path"))
      else
        let options :=
          match rp_options req with Some o => o | None => mkPutOptions None end in
        match PutHandlerManager.registerHandler app (putHandlerManager p) (world p) now
                path options with
        | Throw _ => (p, mkResponse 500 (ErrorBody "Failed to register PUT handler"))
        | Ok (m', w') =>
            (mkPlugin (pathManager p) m' w',
             mkResponse 201
               (RegisteredBody path nowResponse
                  (match rp_options req with
                   | Some o => PutHandlerManager.acceptAllSourcesOrFalse o
                   | None => false
                   end)))
        end
  end.

(** [router.delete('/puts/*', ...)] *)
Definition deletePuts (p : Plugin) (skPath : string) : Plugin * Response :=
  if negb (JsString.nonEmpty skPath)
  then (p, mkResponse 400 (ErrorBody "Path required"))
  else
    let '(m', w', success) :=
      PutHandlerManager.unregisterHandler (putHandlerManager p) (world p) skPath in
    if success
    then (mkPlugin (pathManager p) m' w', mkResponse 204 NoBody)
    else (p, mkResponse 404 (ErrorBody "PUT handler not found for this path")).

(** one turn of the loop of [POST /scenarios/:id/run] over
    [scenario.paths]; the three clock readings are those of [setValue],
    [createPath] and [registerHandler] *)
Definition applyScenarioPath (app : ServerAPI) (p : Plugin) (now nowMeta nowPut : Timestamp)
    (pathConfig : ScenarioPath) : Plugin * RunResult :=
  match PathManager.createPath app (pathManager p) (world p) now nowMeta
          (sp_path pathConfig) (sp_value pathConfig) (sp_meta pathConfig) with
  | (pm', w', Rejected err) =>
      (mkPlugin pm' (putHandlerManager p) w',
       mkRunResult (sp_path pathConfig) false None (Some err))
  | (pm', w', Fulfilled _) =>
      if match sp_enablePut pathConfig with Some b => b | None => false end
         && negb (PutHandlerManager.hasPutHandler (putHandlerManager p) (sp_path pathConfig))
      then
        match PutHandlerManager.registerHandler app (putHandlerManager p) w' nowPut
                (sp_path pathConfig) (mkPutOptions (Some true)) with
        | Throw err =>
            (mkPlugin pm' (putHandlerManager p) w',
             mkRunResult (sp_path pathConfig) false None (Some err))
        | Ok (m', w'') =>
            (mkPlugin pm' m' w'', mkRunResult (sp_path pathConfig) true (Some true) None)
        end
      else
        (mkPlugin pm' (putHandlerManager p) w',
         mkRunResult (sp_path pathConfig) true (Some false) None)
  end.

(** [for (const pathConfig of scenario.paths) { ... results.push(...) }] *)
Fixpoint applyScenarioPaths (app : ServerAPI) (p : Plugin)
    (steps : list (Timestamp * Timestamp * Timestamp * ScenarioPath))
  : Plugin * list RunResult :=
  match steps with
  | [] => (p, [])
  | (now, nowMeta, nowPut, pathConfig) :: rest =>
      let '(p1, result) := applyScenarioPath app p now nowMeta nowPut pathConfig in
      let '(p2, results) := applyScenarioPaths app p1 rest in
      (p2, result :: results)
  end.

(** [results.filter((r) => r.success).length] and the two other counts *)
Definition applied (results : list RunResult) : nat :=
  List.length (filter rr_success results).

Definition failed (results : list RunResult) : nat :=
  List.length (filter (fun r => negb (rr_success r)) results).

Definition putsRegistered (results : list RunResult) : nat :=
  List.length
    (filter (fun r => match rr_putRegistered r with Some b => b | None => false end) results).

(** [router.post('/scenarios/:id/run', ...)] once the scenario has been
    found: the loop and the summary it answers *)
Definition postScenarioRun (app : ServerAPI) (p : Plugin) (name : string)
    (steps : list (Timestamp * Timestamp * Timestamp * ScenarioPath)) : Plugin * Response :=
  let '(p', results) := applyScenarioPaths app p steps in
  (p', mkResponse 200
         (RunBody name (applied results) (failed results) (putsRegistered results) results)).

(** [plugin.start]: the managers are created *)
Definition start (app : ServerAPI) (w : World) : Plugin :=
  mkPlugin (PathManager.create app) PutHandlerManager.create w.

(** [plugin.stop]: [putHandlerManager.unregisterAll()] *)
Definition stop (p : Plugin) : Plugin :=
  let '(m', w') := PutHandlerManager.unregisterAll (putHandlerManager p) (world p) in
  mkPlugin (pathManager p) m' w'.

(** a request to one of the routes that change the managers or the host *)
Inductive Request : Type :=
| PostPaths (now nowMeta nowPut : Timestamp) (req : CreatePathRequest)
| PutValue (now nowResponse : Timestamp) (skPath : string) (req : SetValueRequest)
| PostPuts (now nowResponse : Timestamp) (req : RegisterPutRequest)
| DeletePuts (skPath : string)
| PostScenarioRun (name : string)
                  (steps : list (Timestamp * Timestamp * Timestamp * ScenarioPath)).

Definition handle (app : ServerAPI) (p : Plugin) (request : Request) : Plugin * Response :=
  match request with
  | PostPaths now nowMeta nowPut req => postPaths app p now nowMeta nowPut req
  | PutValue now nowResponse skPath req => putValue app p now nowResponse skPath req
  | PostPuts now nowResponse req => postPuts app p now nowResponse req
  | DeletePuts skPath => deletePuts p skPath
  | PostScenarioRun name steps => postScenarioRun app p name steps
  end.

(** the plugin after serving [requests] one after the other *)
Definition serve (app : ServerAPI) (p : Plugin) (requests : list Request) : Plugin :=
  fold_left (fun st request => fst (handle app st request)) requests p.

End Routes.

(** a host that accepts every delta and refuses every PUT registration
    with [new Error(message)] *)
Definition noPutApp (table : list (string * JsValue)) (message : string) : ServerAPI :=
  mkServerAPI None false
              (fun _ _ => Ok JUndefined)
              (fun _ path => Ok (SampleHost.lookupNode table path))
              (fun _ _ _ => Ok tt)
              (fun _ _ _ _ => Throw (ThrownError message))
              (fun _ => None).

(** [request] is a [POST /paths] for [path] that passes the checks of the
    route and carries metadata, or the run of a scenario that names [path]
    with metadata *)
Definition recordsPath (request : Routes.Request) (path : string) : bool :=
  match request with
  | Routes.PostPaths _ _ _ req =>
      match Routes.cr_path req with
      | Some given =>
          String.eqb given path
          && negb (Js.isUndefined (Routes.cr_value req))
          && RegExp.test Routes.pathPattern given
          && Js.truthy (Routes.cr_meta req)
      | None => false
      end
  | Routes.PostScenarioRun _ steps =>
      existsb (fun step =>
                 String.eqb (Routes.sp_path (snd step)) path
                 && Js.truthy (Routes.sp_meta (snd step)))
              steps
  | _ => false
  end.
Section StringFacts.

Lemma string_length_app (a b : string) :
  String.length (a ++ b) = String.length a + String.length b.
Proof. induction a as [|c a IH]; simpl; [reflexivity | now rewrite IH]. Qed.

Lemma string_app_nil_r (a : string) : a ++ "" = a.
Proof. induction a as [|c a IH]; simpl; [reflexivity | now rewrite IH]. Qed.

Lemma string_app_assoc (a b c : string) : (a ++ b) ++ c = a ++ (b ++ c).
Proof. induction a as [|x a IH]; simpl; [reflexivity | now rewrite IH]. Qed.

Lemma substring_0_length (t : string) : substring 0 (String.length t) t = t.
Proof. induction t as [|c t IH]; simpl; [reflexivity | now rewrite IH]. Qed.

Lemma substring_0_app (p t : string) :
  substring 0 (String.length p) (p ++ t) = p.
Proof.
  induction p as [|c p IH]; simpl.
  - destruct t; reflexivity.
  - now rewrite IH.
Qed.

Lemma substring_skip_app (p t : string) :
  substring (String.length p) (String.length t) (p ++ t) = t.
Proof.
  induction p as [|c p IH]; simpl.
  - apply substring_0_length.
  - exact IH.
Qed.

Lemma substring_split (s : string) (k : nat) :
  k <= String.length s ->
  substring 0 k s ++ substring k (String.length s - k) s = s.
Proof.
  revert k. induction s as [|c s IH]; intros k Hk; simpl in *.
  - destruct k; [reflexivity | lia].
  - destruct k as [|k]; simpl.
    + now rewrite substring_0_length.
    + rewrite IH by lia. reflexivity.
Qed.

End StringFacts.

Lemma endsWith_app (p t : string) : JsString.endsWith (p ++ t) t = true.
Proof.
  unfold JsString.endsWith.
  rewrite string_length_app.
  replace (String.length p + String.length t - String.length t) with (String.length p) by lia.
  rewrite substring_skip_app, String.eqb_refl.
  apply andb_true_iff; split; [apply Nat.leb_le; lia | reflexivity].
Qed.

Lemma endsWith_inv (s t : string) :
  JsString.endsWith s t = true ->
  s = substring 0 (String.length s - String.length t) s ++ t.
Proof.
  unfold JsString.endsWith. intros H.
  apply andb_true_iff in H. destruct H as [Hle Heq].
  apply Nat.leb_le in Hle. apply String.eqb_eq in Heq.
  pose proof (substring_split s (String.length s - String.length t)) as Hs.
  replace (String.length s - (String.length s - String.length t))
    with (String.length t) in Hs by lia.
  rewrite Heq in Hs. symmetry. apply Hs. lia.
Qed.

Lemma stripWhatifSuffix_step (s : string) :
  stripWhatifSuffix s =
  if JsString.endsWith s whatifSuffix
  then stripWhatifSuffix (JsString.sliceDropEnd s (String.length whatifSuffix))
  else s.
Proof.
  rewrite stripWhatifSuffix_equation_1 at 1.
  unfold stripWhatifSuffix_unfold_clause_1.
  destruct (inspect (JsString.endsWith s whatifSuffix)) as [[] E]; rewrite E; reflexivity.
Qed.

Lemma stripWhatifSuffix_app_suffix (b : string) :
  stripWhatifSuffix (b ++ whatifSuffix) = stripWhatifSuffix b.
Proof.
  rewrite stripWhatifSuffix_step, endsWith_app.
  unfold JsString.sliceDropEnd.
  change (String.length whatifSuffix) with 14.
  rewrite string_length_app.
  change (String.length whatifSuffix) with 14.
  replace (String.length b + 14 - 14) with (String.length b) by lia.
  now rewrite substring_0_app.
Qed.

Lemma stripWhatifSuffix_fixed (b : string) :
  JsString.endsWith b whatifSuffix = false -> stripWhatifSuffix b = b.
Proof. intros H. now rewrite stripWhatifSuffix_step, H. Qed.

Lemma stripWhatifSuffix_spec (s : string) :
  exists k : nat,
    s = stripWhatifSuffix s ++ JsString.repeat whatifSuffix k /\
    JsString.endsWith (stripWhatifSuffix s) whatifSuffix = false.
Proof.
  apply (stripWhatifSuffix_elim
           (fun s r => exists k : nat,
                s = r ++ JsString.repeat whatifSuffix k /\
                JsString.endsWith r whatifSuffix = false)).
  - intros o e [k [Hs Hr]] _.
    exists (S k). split; [|exact Hr].
    cbn [JsString.repeat]. rewrite <- string_app_assoc, <- Hs.
    apply endsWith_inv in e. exact e.
  - intros o e _. exists 0. cbn [JsString.repeat].
    now rewrite string_app_nil_r.
Qed.

(* ===================================================================== *)
(** ** The source label of an injected value *)
(* ===================================================================== *)

Lemma sourceLabel_generated (app : ServerAPI) (w : World) (path : string) :
  PathManager.sourceLabel app w path None =
  match currentSource app w path with
  | JString o =>
      if JsString.nonEmpty o then stripWhatifSuffix o ++ whatifSuffix else SOURCE_LABEL
  | _ => SOURCE_LABEL
  end.
Proof.
  unfold PathManager.sourceLabel, currentSource.
  destruct (app_getSelfPath app w path) as [currentData|e]; [|reflexivity].
  destruct (Js.truthy currentData); [|reflexivity].
  destruct (Js.or _ _) as [| |b|q|o|l|l]; cbn [Js.truthy]; try reflexivity.
  - now destruct b.
  - now destruct (negb _).
Qed.

Lemma setValue_outcome (app : ServerAPI) (pm : PathManager.t) (w : World)
    (now : Timestamp) (path : string) (value : JsValue) (source : option string) :
  let delta :=
    mkDelta (PathManager.selfContext pm)
            [mkUpdate (PathManager.sourceLabel app w path source) now
                      (Values [(path, value)])] in
  PathManager.setValue app pm w now path value source
  = match app_handleMessage app w PLUGIN_ID delta with
    | Ok _ =>
        (mkWorld (bus w ++ [(PLUGIN_ID, delta)])%list (putHandlers w) (nextHandle w)
                 (timers w ++ [mkTimer 500 path])%list,
         Fulfilled tt)
    | Throw e => (w, Rejected e)
    end.
Proof.
  cbv zeta. unfold PathManager.setValue, hostHandleMessage.
  destruct (app_handleMessage app w PLUGIN_ID _); reflexivity.
Qed.

(** C1.  Without an explicit source, [setValue] hands the host one delta
    for the path, labelled [label]; when the host accepts it the call is
    fulfilled and that delta, with that label, is what the bus has gained;
    when the host refuses it nothing is stored and the call is rejected.
    When the tree reports a source label [S] for the path (a non-empty
    string), [label] is [S] stripped of every trailing [".whatif-helper"] and
    suffixed with [".whatif-helper"] once, and an injection made over the
    label just stored stores that same label again.  When the tree reports no
    source label (none, an empty one, one that is no string, or the read
    fails) [label] is ["whatif-helper"]; the injection made over that label
    stores ["whatif-helper.whatif-helper"], as the rule for [S] has it. *)
Theorem setValue_source_label_idempotent :
  forall (app : ServerAPI) (pm : PathManager.t) (w : World) (now : Timestamp)
         (path : string) (value : JsValue),
    let label := PathManager.sourceLabel app w path None in
    let delta :=
      mkDelta (PathManager.selfContext pm) [mkUpdate label now (Values [(path, value)])] in
    let r := PathManager.setValue app pm w now path value None in
    (app_handleMessage app w PLUGIN_ID delta = Ok tt ->
     snd r = Fulfilled tt
     /\ bus (fst r) = (bus w ++ [(PLUGIN_ID, delta)])%list)
    /\ (forall e : Thrown,
           app_handleMessage app w PLUGIN_ID delta = Throw e -> r = (w, Rejected e))
    /\ (forall S : string,
           currentSource app w path = JString S -> S <> "" ->
           exists (base : string) (k : nat),
             S = base ++ JsString.repeat ".whatif-helper" k
             /\ JsString.endsWith base ".whatif-helper" = false
             /\ label = base ++ ".whatif-helper"
             /\ (forall w2 : World,
                    currentSource app w2 path = JString label ->
                    PathManager.sourceLabel app w2 path None = label)
             /\ (forall (w2 : World) (now2 : Timestamp) (value2 : JsValue),
                    currentSource app w2 path = JString label ->
                    app_handleMessage app w2 PLUGIN_ID
                      (mkDelta (PathManager.selfContext pm)
                               [mkUpdate label now2 (Values [(path, value2)])]) = Ok tt ->
                    bus (fst (PathManager.setValue app pm w2 now2 path value2 None))
                    = (bus w2
                       ++ [(PLUGIN_ID,
                            mkDelta (PathManager.selfContext pm)
                                    [mkUpdate label now2 (Values [(path, value2)])])])%list))
    /\ ((forall S : string, currentSource app w path = JString S -> S = "") ->
        label = "whatif-helper"
        /\ (forall w2 : World,
               currentSource app w2 path = JString label ->
               PathManager.sourceLabel app w2 path None = "whatif-helper.whatif-helper")).
Proof.
  intros app pm w now path value label delta r.
  assert (Hr : r = match app_handleMessage app w PLUGIN_ID delta with
                   | Ok _ =>
                       (mkWorld (bus w ++ [(PLUGIN_ID, delta)])%list (putHandlers w)
                                (nextHandle w) (timers w ++ [mkTimer 500 path])%list,
                        Fulfilled tt)
                   | Throw e => (w, Rejected e)
                   end)
    by apply setValue_outcome.
  split; [| split; [| split]].
  - intros Hok. rewrite Hr, Hok. split; reflexivity.
  - intros e He. rewrite Hr, He. reflexivity.
  - intros S HS Hne. subst label.
    destruct (stripWhatifSuffix_spec S) as [k [Hk Hends]].
    exists (stripWhatifSuffix S), k.
    assert (Hlabel : PathManager.sourceLabel app w path None
                     = stripWhatifSuffix S ++ whatifSuffix).
    { rewrite sourceLabel_generated, HS. destruct S; [congruence | reflexivity]. }
    assert (Hagain : forall w2 : World,
               currentSource app w2 path = JString (PathManager.sourceLabel app w path None) ->
               PathManager.sourceLabel app w2 path None
               = PathManager.sourceLabel app w path None).
    { intros w2 H2.
      rewrite sourceLabel_generated, H2, Hlabel.
      rewrite stripWhatifSuffix_app_suffix, (stripWhatifSuffix_fixed _ Hends).
      destruct (stripWhatifSuffix S); reflexivity. }
    split; [exact Hk |]. split; [exact Hends |]. split; [exact Hlabel |].
    split; [exact Hagain |].
    intros w2 now2 value2 H2 Hok.
    rewrite setValue_outcome, (Hagain w2 H2), Hok. reflexivity.
  - intros Hnone.
    assert (Hl : label = "whatif-helper").
    { subst label. rewrite sourceLabel_generated.
      destruct (currentSource app w path) as [| |b|q|o|l|l] eqn:E; try reflexivity.
      rewrite (Hnone o eq_refl). reflexivity. }
    split; [exact Hl |].
    intros w2 H2. rewrite Hl in H2.
    rewrite sourceLabel_generated, H2. reflexivity.
Qed.

Lemma setValue_source_label_witness :
  let app := SampleHost.liveApp SampleHost.n2kTable in
  let pm := PathManager.create app in
  let r1 := PathManager.setValue app pm emptyWorld "t1" SampleHost.sog (JNumber (5 # 1)) None in
  let r2 := PathManager.setValue app pm (fst r1) "t2" SampleHost.sog (JNumber (6 # 1)) None in
  currentSource app emptyWorld SampleHost.sog = JString "n2k-01"
  /\ snd r1 = Fulfilled tt
  /\ bus (fst r1)
     = [(PLUGIN_ID,
         mkDelta "vessels.self"
                 [mkUpdate "n2k-01.whatif-helper" "t1"
                           (Values [(SampleHost.sog, JNumber (5 # 1))])])]
  /\ currentSource app (fst r1) SampleHost.sog = JString "n2k-01.whatif-helper"
  /\ bus (fst r2)
     = [(PLUGIN_ID,
         mkDelta "vessels.self"
                 [mkUpdate "n2k-01.whatif-helper" "t1"
                           (Values [(SampleHost.sog, JNumber (5 # 1))])]);
        (PLUGIN_ID,
         mkDelta "vessels.self"
                 [mkUpdate "n2k-01.whatif-helper" "t2"
                           (Values [(SampleHost.sog, JNumber (6 # 1))])])].
Proof.
  intros app pm r1 r2.
  destruct (setValue_source_label_idempotent app pm emptyWorld "t1" SampleHost.sog
              (JNumber (5 # 1))) as (Hstore & _ & Hrule & _).
  destruct (Hstore eq_refl) as [Hfulfilled Hbus].
  destruct (Hrule "n2k-01" eq_refl ltac:(discriminate))
    as (base & k & _ & _ & _ & _ & Hagain).
  split; [reflexivity |]. split; [exact Hfulfilled |]. split; [exact Hbus |].
  split; [reflexivity |].
  subst r2. rewrite (Hagain (fst r1) "t2" (JNumber (6 # 1)) eq_refl eq_refl).
  reflexivity.
Defined.

(** The labels of the README: a value from ["n2k-01"] is relabelled
    ["n2k-01.whatif-helper"], and so is a value already carrying that label;
    a path the tree does not know gets ["whatif-helper"]. *)
Example sourceLabel_n2k :
  PathManager.sourceLabel (SampleHost.tableApp SampleHost.n2kTable)
                          emptyWorld SampleHost.sog None = "n2k-01.whatif-helper"
  /\ PathManager.sourceLabel (SampleHost.tableApp SampleHost.injectedTable)
                             emptyWorld SampleHost.sog None = "n2k-01.whatif-helper"
  /\ PathManager.sourceLabel (SampleHost.tableApp [])
                             emptyWorld SampleHost.sog None = "whatif-helper".
Proof. repeat split; reflexivity. Qed.

(** Two injections in a row into a host that applies them: both deltas
    carry the same label. *)
Example setValue_twice_live :
  let app := SampleHost.liveApp SampleHost.n2kTable in
  let pm := PathManager.create app in
  let w1 := fst (PathManager.setValue app pm emptyWorld "t1" SampleHost.sog (JNumber (5 # 1)) None) in
  let w2 := fst (PathManager.setValue app pm w1 "t2" SampleHost.sog (JNumber (6 # 1)) None) in
  map (fun e => map upd_source (delta_updates (snd e))) (bus w2)
  = [["n2k-01.whatif-helper"]; ["n2k-01.whatif-helper"]].
Proof. reflexivity. Qed.

(** A path the tree does not know: the first injection is labelled
    ["whatif-helper"]; from then on the label read back is that string,
    which carries no [".whatif-helper"] suffix, and the rule above gives
    ["whatif-helper.whatif-helper"] for every later injection. *)
Example setValue_new_path_live :
  let app := SampleHost.liveApp [] in
  let pm := PathManager.create app in
  let w1 := fst (PathManager.setValue app pm emptyWorld "t1" SampleHost.sog (JNumber (5 # 1)) None) in
  let w2 := fst (PathManager.setValue app pm w1 "t2" SampleHost.sog (JNumber (6 # 1)) None) in
  let w3 := fst (PathManager.setValue app pm w2 "t3" SampleHost.sog (JNumber (7 # 1)) None) in
  map (fun e => map upd_source (delta_updates (snd e))) (bus w3)
  = [["whatif-helper"]; ["whatif-helper.whatif-helper"]; ["whatif-helper.whatif-helper"]].
Proof. reflexivity. Qed.

(* ===================================================================== *)
(** ** Facts about [Map] *)
(* ===================================================================== *)

Section JsMapFacts.
Context {V : Type}.
Implicit Types (m : JsMap.t V) (k : string) (v : V).

Lemma JsMap_get_None_iff m k : JsMap.get m k = None <-> ~ In k (JsMap.keys m).
Proof.
  induction m as [|[k' v'] m IH]; simpl.
  - tauto.
  - destruct (String.eqb_spec k' k) as [->|Hne].
    + split; [discriminate | intros H; exfalso; apply H; now left].
    + rewrite IH. split; [intros H [E|I]; [congruence | tauto] | tauto].
Qed.

Lemma JsMap_has_true_iff m k : JsMap.has m k = true <-> In k (JsMap.keys m).
Proof.
  unfold JsMap.has.
  destruct (JsMap.get m k) eqn:E.
  - split; [intros _ | reflexivity].
    destruct (in_dec string_dec k (JsMap.keys m)) as [I|N]; [exact I|].
    apply JsMap_get_None_iff in N. congruence.
  - split; [discriminate|]. intros I. apply JsMap_get_None_iff in E. tauto.
Qed.

Lemma JsMap_has_false_iff m k : JsMap.has m k = false <-> JsMap.get m k = None.
Proof. unfold JsMap.has. destruct (JsMap.get m k); split; congruence. Qed.

Lemma JsMap_get_In m k v : JsMap.get m k = Some v -> In (k, v) m.
Proof.
  induction m as [|[k' v'] m IH]; simpl; [discriminate|].
  destruct (String.eqb_spec k' k) as [->|Hne].
  - intros H; inversion H; now left.
  - intros H; right; auto.
Qed.

Lemma JsMap_set_absent m k v : JsMap.get m k = None -> JsMap.set m k v = (m ++ [(k, v)])%list.
Proof.
  induction m as [|[k' v'] m IH]; simpl; [reflexivity|].
  destruct (String.eqb k' k); [discriminate|].
  intros H. now rewrite IH.
Qed.

Lemma JsMap_keys_set m k v :
  JsMap.keys (JsMap.set m k v) =
  if JsMap.has m k then JsMap.keys m else (JsMap.keys m ++ [k])%list.
Proof.
  unfold JsMap.has.
  induction m as [|[k' v'] m IH]; simpl; [reflexivity|].
  destruct (String.eqb k' k); simpl; [reflexivity|].
  rewrite IH. now destruct (JsMap.get m k).
Qed.

Lemma JsMap_get_set_same m k v : JsMap.get (JsMap.set m k v) k = Some v.
Proof.
  induction m as [|[k' v'] m IH]; simpl.
  - now rewrite String.eqb_refl.
  - destruct (String.eqb k' k) eqn:E; simpl; rewrite E; [reflexivity | exact IH].
Qed.

Lemma JsMap_get_set_other m k k' v :
  k' <> k -> JsMap.get (JsMap.set m k v) k' = JsMap.get m k'.
Proof.
  intros Hne.
  induction m as [|[k0 v0] m IH]; simpl.
  - destruct (String.eqb_spec k k'); [congruence | reflexivity].
  - destruct (String.eqb_spec k0 k) as [->|H0]; simpl.
    + destruct (String.eqb_spec k k'); [congruence | reflexivity].
    + now rewrite IH.
Qed.

Lemma JsMap_keys_delete m k :
  JsMap.keys (JsMap.delete m k) =
  filter (fun k' => negb (String.eqb k' k)) (JsMap.keys m).
Proof.
  unfold JsMap.delete, JsMap.keys.
  induction m as [|[k' v'] m IH]; simpl; [reflexivity|].
  destruct (String.eqb k' k); simpl; now rewrite IH.
Qed.

Lemma JsMap_get_delete_same m k : JsMap.get (JsMap.delete m k) k = None.
Proof.
  apply JsMap_get_None_iff. rewrite JsMap_keys_delete.
  intros I. apply filter_In in I. destruct I as [_ H].
  now rewrite String.eqb_refl in H.
Qed.

Lemma JsMap_get_delete_other m k k' :
  k' <> k -> JsMap.get (JsMap.delete m k) k' = JsMap.get m k'.
Proof.
  intros Hne. unfold JsMap.delete.
  induction m as [|[k0 v0] m IH]; simpl; [reflexivity|].
  destruct (String.eqb_spec k0 k) as [->|H0]; simpl.
  - destruct (String.eqb_spec k k'); [congruence | exact IH].
  - now rewrite IH.
Qed.

Lemma JsMap_delete_absent m k : JsMap.get m k = None -> JsMap.delete m k = m.
Proof.
  unfold JsMap.delete.
  induction m as [|[k' v'] m IH]; simpl; [reflexivity|].
  destruct (String.eqb k' k); [discriminate|]. simpl.
  intros H. now rewrite IH.
Qed.

End JsMapFacts.

Lemma JsMap_get_same_keys {A B : Type} (m1 : JsMap.t A) (m2 : JsMap.t B) (k : string) :
  JsMap.keys m1 = JsMap.keys m2 ->
  (JsMap.get m1 k = None <-> JsMap.get m2 k = None).
Proof. intros H. now rewrite !JsMap_get_None_iff, H. Qed.

(* ===================================================================== *)
(** ** Lists *)
(* ===================================================================== *)

Lemma map_filter_commute {A B : Type} (f : A -> B) (P : A -> bool) (Q : B -> bool) (l : list A) :
  (forall x, In x l -> P x = Q (f x)) ->
  map f (filter P l) = filter Q (map f l).
Proof.
  induction l as [|x l IH]; simpl; [reflexivity|].
  intros H. rewrite <- (H x) by now left.
  destruct (P x); simpl; rewrite IH; auto.
Qed.

Lemma NoDup_map_filter {A B : Type} (f : A -> B) (P : A -> bool) (l : list A) :
  NoDup (map f l) -> NoDup (map f (filter P l)).
Proof.
  induction l as [|x l IH]; simpl; [auto|].
  intros H. inversion H as [|? ? Hx Hl]; subst.
  destruct (P x); simpl; [constructor|]; auto.
  intros I. apply Hx. apply in_map_iff in I. destruct I as [y [E Iy]].
  apply in_map_iff. exists y. split; [exact E|].
  apply filter_In in Iy. tauto.
Qed.

Lemma NoDup_map_eq {A B : Type} (f : A -> B) (l : list A) (x y : A) :
  NoDup (map f l) -> In x l -> In y l -> f x = f y -> x = y.
Proof.
  induction l as [|z l IH]; simpl; [tauto|].
  intros H Ix Iy E. inversion H as [|? ? Hz Hl]; subst.
  destruct Ix as [->|Ix], Iy as [->|Iy]; auto.
  - exfalso; apply Hz. rewrite E. now apply in_map.
  - exfalso; apply Hz. rewrite <- E. now apply in_map.
Qed.

Lemma filter_all_false {A : Type} (P : A -> bool) (l : list A) :
  (forall x, In x l -> P x = false) -> filter P l = [].
Proof.
  induction l as [|x l IH]; simpl; [reflexivity|].
  intros H. rewrite (H x) by now left. apply IH. intros; apply H; now right.
Qed.

Lemma filter_all_true {A : Type} (P : A -> bool) (l : list A) :
  (forall x, In x l -> P x = true) -> filter P l = l.
Proof.
  induction l as [|x l IH]; simpl; [reflexivity|].
  intros H. rewrite (H x) by now left. f_equal. apply IH. intros; apply H; now right.
Qed.

Lemma NoDup_app_iff_tail {A : Type} (l : list A) (x : A) :
  NoDup (l ++ [x]) <-> NoDup l /\ ~ In x l.
Proof.
  induction l as [|y l IH]; simpl.
  - split; [intros _; split; [constructor | tauto] | intros _; repeat constructor; tauto].
  - split.
    + intros H. inversion H as [|? ? Hy Hl]; subst.
      apply IH in Hl. destruct Hl as [Hl Hx].
      split.
      * constructor; [|exact Hl]. intros I. apply Hy. apply in_or_app. now left.
      * intros [E|I]; [|tauto]. subst. apply Hy. apply in_or_app. right. now left.
    + intros [H Hx]. inversion H as [|? ? Hy Hl]; subst.
      constructor.
      * intros I. apply in_app_or in I. destruct I as [I|[E|[]]]; [tauto|].
        subst. apply Hx. now left.
      * apply IH. split; [exact Hl | tauto].
Qed.

(* ===================================================================== *)
(** ** The invariant of PutHandlerManager *)
(* ===================================================================== *)

Lemma PutInvariant_create (b : list (string * Delta)) (n : nat) (t : list Timer) :
  PutInvariant PutHandlerManager.create (freshWorld b n t).
Proof. constructor; simpl; constructor. Qed.

Lemma PutInvariant_paths (m : PutHandlerManager.t) (w : World) :
  PutInvariant m w ->
  map reg_path (putHandlers w) = JsMap.keys (PutHandlerManager.handlers m).
Proof.
  intros I. rewrite (inv_keys _ _ I), <- (inv_host _ _ I).
  unfold JsMap.keys. rewrite map_map. reflexivity.
Qed.

Lemma registerHandler_registered (app : ServerAPI) (m : PutHandlerManager.t) (w : World)
    (now : Timestamp) (path : string) (options : PutOptions) :
  PutHandlerManager.hasPutHandler m path = true ->
  PutHandlerManager.registerHandler app m w now path options = Ok (m, w).
Proof.
  unfold PutHandlerManager.hasPutHandler, PutHandlerManager.registerHandler.
  now intros ->.
Qed.

Lemma PutInvariant_register (app : ServerAPI) (m m' : PutHandlerManager.t) (w w' : World)
    (now : Timestamp) (path : string) (options : PutOptions) :
  PutInvariant m w ->
  PutHandlerManager.registerHandler app m w now path options = Ok (m', w') ->
  PutInvariant m' w'.
Proof.
  intros I. unfold PutHandlerManager.registerHandler, hostRegisterPutHandler.
  destruct (JsMap.has (PutHandlerManager.handlers m) path) eqn:Hhas.
  { intros H; inversion H; subst; exact I. }
  destruct (app_registerPutHandler _ _ _ _ _); [|discriminate].
  intros H; inversion H; subst; clear H.
  apply JsMap_has_false_iff in Hhas.
  assert (Hun : JsMap.get (PutHandlerManager.unregisterFunctions m) path = None).
  { apply (JsMap_get_same_keys _ _ path (inv_keys _ _ I)). exact Hhas. }
  destruct I as [Ik Ind Ih If Ihn Ii].
  constructor; simpl.
  - rewrite !JsMap_keys_set. unfold JsMap.has. rewrite Hhas, Hun. now rewrite Ik.
  - rewrite JsMap_keys_set. unfold JsMap.has. rewrite Hhas.
    apply NoDup_app_iff_tail. split; [exact Ind|].
    now apply JsMap_get_None_iff.
  - rewrite map_app, Ih. simpl. now rewrite JsMap_set_absent.
  - apply Forall_app. split.
    + eapply Forall_impl; [|exact If]. simpl. intros; lia.
    + constructor; [simpl; lia | constructor].
  - rewrite map_app. simpl. apply NoDup_app_iff_tail. split; [exact Ihn|].
    intros Hin. apply in_map_iff in Hin. destruct Hin as [r [E Hr]].
    rewrite Forall_forall in If. specialize (If r Hr). lia.
  - rewrite JsMap_set_absent by exact Hhas.
    apply Forall_app. split; [exact Ii | constructor; [reflexivity | constructor]].
Qed.

Lemma unregister_closure_targets_path (m : PutHandlerManager.t) (w : World)
    (path : string) (h : Unregister) :
  PutInvariant m w ->
  JsMap.get (PutHandlerManager.unregisterFunctions m) path = Some h ->
  forall r, In r (putHandlers w) ->
            Nat.eqb (reg_handle r) h = String.eqb (reg_path r) path.
Proof.
  intros I Hget r Hr.
  pose proof (PutInvariant_paths _ _ I) as Hpaths.
  destruct I as [Ik Ind Ih If Ihn Ii].
  apply JsMap_get_In in Hget. rewrite <- Ih in Hget.
  apply in_map_iff in Hget. destruct Hget as [r0 [E0 Hr0]].
  injection E0 as Ep Eh.
  destruct (Nat.eqb_spec (reg_handle r) h) as [Eh'|Nh];
    destruct (String.eqb_spec (reg_path r) path) as [Ep'|Np]; try reflexivity.
  - exfalso. apply Np.
    assert (r = r0) by (apply (NoDup_map_eq reg_handle (putHandlers w)); auto; congruence).
    subst r. exact Ep.
  - exfalso. apply Nh.
    assert (r = r0).
    { apply (NoDup_map_eq reg_path (putHandlers w)); auto; [|congruence].
      rewrite Hpaths. exact Ind. }
    subst r. exact Eh.
Qed.

Lemma callUnregister_removes_path (m : PutHandlerManager.t) (w : World)
    (path : string) (h : Unregister) :
  PutInvariant m w ->
  JsMap.get (PutHandlerManager.unregisterFunctions m) path = Some h ->
  putHandlers (callUnregister w h)
  = filter (fun r => negb (String.eqb (reg_path r) path)) (putHandlers w).
Proof.
  intros I Hget. simpl.
  apply filter_ext_in. intros r Hr.
  now rewrite (unregister_closure_targets_path m w path h I Hget r Hr).
Qed.

Lemma PutInvariant_unregister (m m' : PutHandlerManager.t) (w w' : World)
    (path : string) (b : bool) :
  PutInvariant m w ->
  PutHandlerManager.unregisterHandler m w path = (m', w', b) ->
  PutInvariant m' w'.
Proof.
  intros I. unfold PutHandlerManager.unregisterHandler.
  destruct (JsMap.get (PutHandlerManager.unregisterFunctions m) path) as [h|] eqn:Hget.
  2:{ intros H; inversion H; subst; exact I. }
  intros H; inversion H; subst; clear H.
  pose proof (callUnregister_removes_path m w path h I Hget) as Hw.
  destruct I as [Ik Ind Ih If Ihn Ii].
  constructor; simpl putHandlers; simpl nextHandle;
    cbn [PutHandlerManager.handlers PutHandlerManager.unregisterFunctions].
  - now rewrite !JsMap_keys_delete, Ik.
  - rewrite JsMap_keys_delete. now apply NoDup_filter.
  - simpl in Hw. rewrite Hw. unfold JsMap.delete. rewrite <- Ih.
    apply map_filter_commute. reflexivity.
  - rewrite Forall_forall in *. intros r Hr. apply filter_In in Hr. apply If. tauto.
  - now apply NoDup_map_filter.
  - unfold JsMap.delete. rewrite Forall_forall in *. intros kv Hkv.
    apply filter_In in Hkv. apply Ii. tauto.
Qed.

Lemma unregisterAll_loop (m : PutHandlerManager.t) (w : World) :
  PutInvariant m w ->
  PutHandlerManager.unregisterAll m w
  = (PutHandlerManager.mk [] [],
     mkWorld (bus w) [] (nextHandle w) (timers w)).
Proof.
  unfold PutHandlerManager.unregisterAll.
  remember (JsMap.keys (PutHandlerManager.handlers m)) as ks eqn:Hks.
  revert m w Hks.
  induction ks as [|k ks IH]; intros m w Hks I.
  - simpl. destruct m as [hs us]. simpl in *.
    pose proof (inv_keys _ _ I) as Ik. pose proof (inv_host _ _ I) as Ih. simpl in *.
    destruct hs; [|discriminate]. destruct us; [|discriminate].
    destruct w as [b ps n t]. simpl in *.
    destruct ps; [reflexivity | discriminate].
  - cbn [fold_left fst snd].
    assert (Hun : exists h, JsMap.get (PutHandlerManager.unregisterFunctions m) k = Some h).
    { destruct (JsMap.get (PutHandlerManager.unregisterFunctions m) k) eqn:E; [eauto|].
      exfalso. apply JsMap_get_None_iff in E. apply E.
      rewrite <- (inv_keys _ _ I), <- Hks. now left. }
    destruct Hun as [h Hh].
    destruct (PutHandlerManager.unregisterHandler m w k) as [[m1 w1] b1] eqn:Hstep.
    pose proof (PutInvariant_unregister _ _ _ _ _ _ I Hstep) as I1.
    unfold PutHandlerManager.unregisterHandler in Hstep. rewrite Hh in Hstep.
    inversion Hstep; subst; clear Hstep.
    rewrite (IH _ _); [reflexivity | | exact I1].
    cbn [PutHandlerManager.handlers]. rewrite JsMap_keys_delete, <- Hks.
    simpl. rewrite String.eqb_refl. simpl.
    pose proof (inv_nodup _ _ I) as Ind. rewrite <- Hks in Ind.
    inversion Ind as [|? ? Hk Hn]; subst.
    symmetry. apply filter_all_true. intros x Hx.
    destruct (String.eqb_spec x k); [subst; tauto | reflexivity].
Qed.

Lemma PutInvariant_step (app : ServerAPI) (st : PutHandlerManager.t * World) (c : PutCall) :
  PutInvariant (fst st) (snd st) ->
  PutInvariant (fst (stepPut app st c)) (snd (stepPut app st c)).
Proof.
  destruct st as [m w]. intros I. destruct c as [now path options|path|]; simpl in *.
  - destruct (PutHandlerManager.registerHandler app m w now path options) as [[m' w']|e] eqn:E.
    + simpl. eapply PutInvariant_register; eauto.
    + exact I.
  - destruct (PutHandlerManager.unregisterHandler m w path) as [[m' w'] b] eqn:E.
    simpl. eapply PutInvariant_unregister; eauto.
  - rewrite (unregisterAll_loop _ _ I). constructor; simpl; constructor.
Qed.

Lemma PutInvariant_run (app : ServerAPI) (b : list (string * Delta)) (n : nat)
    (t : list Timer) (calls : list PutCall) :
  PutInvariant (fst (runPut app (freshWorld b n t) calls))
               (snd (runPut app (freshWorld b n t) calls)).
Proof.
  unfold runPut.
  assert (H : forall st, PutInvariant (fst st) (snd st) ->
                         PutInvariant (fst (fold_left (stepPut app) calls st))
                                      (snd (fold_left (stepPut app) calls st))).
  { induction calls as [|c calls IH]; intros st I; simpl; [exact I|].
    apply IH. now apply PutInvariant_step. }
  apply H. apply PutInvariant_create.
Qed.

Lemma filter_key_NoDup_length {A : Type} (f : A -> string) (p : string) (l : list A) :
  NoDup (map f l) ->
  List.length (filter (fun r => String.eqb (f r) p) l) <= 1
  /\ (In p (map f l) <-> List.length (filter (fun r => String.eqb (f r) p) l) = 1).
Proof.
  induction l as [|x l IH]; simpl.
  - intros _. split; [lia | split; [tauto | discriminate]].
  - intros H. inversion H as [|? ? Hx Hl]; subst.
    destruct (IH Hl) as [IH1 IH2].
    destruct (String.eqb_spec (f x) p) as [E|N]; simpl.
    + assert (Hnone : filter (fun r => String.eqb (f r) p) l = []).
      { apply filter_all_false. intros y Hy.
        destruct (String.eqb_spec (f y) p) as [Ey|]; [|reflexivity].
        exfalso. apply Hx. rewrite E, <- Ey. now apply in_map. }
      rewrite Hnone. simpl. split; [lia | split; [reflexivity | now left]].
    + split; [exact IH1|]. rewrite <- IH2. split; [intros [E|I]; [congruence | exact I] | now right].
Qed.

Lemma handlers_paths (m : PutHandlerManager.t) (w : World) :
  PutInvariant m w ->
  map hi_path (PutHandlerManager.getHandlers m)
  = JsMap.keys (PutHandlerManager.handlers m).
Proof.
  intros I. pose proof (inv_info _ _ I) as Ii.
  unfold PutHandlerManager.getHandlers, JsMap.values, JsMap.keys.
  induction (PutHandlerManager.handlers m) as [|kv l IH]; simpl; [reflexivity|].
  inversion Ii; subst. f_equal; auto.
Qed.

(** C2.  After any sequence of [registerHandler], [unregisterHandler]
    and [unregisterAll] calls on a fresh manager, the host holds at most one
    interceptor for a path [p], and holds one exactly when [p] is
    registered.  A [registerHandler(p)] while [p] is registered returns
    normally and changes neither the manager (so the stored [registeredAt]
    and [acceptAllSources] of [p] are the original ones) nor the host. *)
Theorem at_most_one_put_interceptor :
  forall (app : ServerAPI) (b : list (string * Delta)) (n : nat) (t : list Timer)
         (calls : list PutCall) (p : string),
    let m := fst (runPut app (freshWorld b n t) calls) in
    let w := snd (runPut app (freshWorld b n t) calls) in
    List.length (activeFor w p) <= 1
    /\ (PutHandlerManager.hasPutHandler m p = true <-> List.length (activeFor w p) = 1)
    /\ (forall (now : Timestamp) (options : PutOptions),
           PutHandlerManager.hasPutHandler m p = true ->
           PutHandlerManager.registerHandler app m w now p options = Ok (m, w)
           /\ runPut app (freshWorld b n t) (calls ++ [CallRegister now p options])
              = (m, w)).
Proof.
  intros app b n t calls p m w.
  pose proof (PutInvariant_run app b n t calls) as I. fold m w in I.
  pose proof (PutInvariant_paths _ _ I) as Hpaths.
  assert (Hnd : NoDup (map reg_path (putHandlers w))).
  { rewrite Hpaths. apply (inv_nodup _ _ I). }
  destruct (filter_key_NoDup_length reg_path p (putHandlers w) Hnd) as [Hle Hiff].
  split; [exact Hle | split].
  - unfold PutHandlerManager.hasPutHandler. rewrite JsMap_has_true_iff, <- Hpaths.
    exact Hiff.
  - intros now options Hhas.
    pose proof (registerHandler_registered app m w now p options Hhas) as Hreg.
    split; [exact Hreg|].
    unfold runPut. rewrite fold_left_app. simpl.
    change (fold_left (stepPut app) calls (PutHandlerManager.create, freshWorld b n t))
      with (runPut app (freshWorld b n t) calls).
    fold m w. rewrite Hreg. reflexivity.
Qed.

Lemma at_most_one_put_interceptor_witness :
  let app := SampleHost.tableApp [] in
  let calls := [CallRegister "2025-12-13T10:00:00.000Z" SampleHost.sog (mkPutOptions None)] in
  let m := fst (runPut app (freshWorld [] 0 []) calls) in
  let w := snd (runPut app (freshWorld [] 0 []) calls) in
  PutHandlerManager.hasPutHandler m SampleHost.sog = true
  /\ PutHandlerManager.registerHandler app m w "2025-12-13T11:00:00.000Z" SampleHost.sog
       (mkPutOptions (Some true)) = Ok (m, w)
  /\ PutHandlerManager.getHandler m SampleHost.sog
     = Some (mkPutHandlerInfo SampleHost.sog "2025-12-13T10:00:00.000Z" false).
Proof.
  intros app calls m w.
  split; [reflexivity | split; [|reflexivity]].
  apply (proj2 (proj2 (at_most_one_put_interceptor
                         app [] 0 [] calls SampleHost.sog))
               "2025-12-13T11:00:00.000Z" (mkPutOptions (Some true))).
  reflexivity.
Defined.

(** C8.  In any state a fresh manager can reach: when [p] has no
    interceptor, [unregisterHandler(p)] returns [false] and changes nothing;
    otherwise it calls the unregister closure stored for [p], after which
    the host holds no interceptor for [p] and the same ones for every other
    path, deletes [p] from both maps, and returns [true]. *)
Theorem unregisterHandler_result :
  forall (app : ServerAPI) (b : list (string * Delta)) (n : nat) (t : list Timer)
         (calls : list PutCall) (p : string),
    let m := fst (runPut app (freshWorld b n t) calls) in
    let w := snd (runPut app (freshWorld b n t) calls) in
    (PutHandlerManager.hasPutHandler m p = false ->
     PutHandlerManager.unregisterHandler m w p = (m, w, false))
    /\ (PutHandlerManager.hasPutHandler m p = true ->
        exists (unregister : Unregister),
          JsMap.get (PutHandlerManager.unregisterFunctions m) p = Some unregister
          /\ PutHandlerManager.unregisterHandler m w p
             = (PutHandlerManager.mk
                  (JsMap.delete (PutHandlerManager.handlers m) p)
                  (JsMap.delete (PutHandlerManager.unregisterFunctions m) p),
                callUnregister w unregister, true)
          /\ activeFor (callUnregister w unregister) p = []
          /\ (forall q : string,
                 q <> p -> activeFor (callUnregister w unregister) q = activeFor w q)
          /\ JsMap.has (JsMap.delete (PutHandlerManager.handlers m) p) p = false
          /\ JsMap.has (JsMap.delete (PutHandlerManager.unregisterFunctions m) p) p = false
          /\ (forall q : string,
                 q <> p ->
                 JsMap.get (JsMap.delete (PutHandlerManager.handlers m) p) q
                 = PutHandlerManager.getHandler m q)).
Proof.
  intros app b n t calls p m w.
  pose proof (PutInvariant_run app b n t calls) as I. fold m w in I.
  unfold PutHandlerManager.hasPutHandler, PutHandlerManager.unregisterHandler.
  split.
  - intros Hhas. apply JsMap_has_false_iff in Hhas.
    apply (JsMap_get_same_keys _ _ p (inv_keys _ _ I)) in Hhas.
    now rewrite Hhas.
  - intros Hhas.
    destruct (JsMap.get (PutHandlerManager.unregisterFunctions m) p) as [h|] eqn:Hget.
    2:{ apply (JsMap_get_same_keys _ _ p (inv_keys _ _ I)) in Hget.
        apply JsMap_has_false_iff in Hget. congruence. }
    exists h. split; [reflexivity | split; [reflexivity|]].
    pose proof (callUnregister_removes_path m w p h I Hget) as Hw.
    unfold activeFor. rewrite Hw. clear Hw.
    repeat split.
    + apply filter_all_false. intros r Hr. apply filter_In in Hr.
      destruct Hr as [_ Hr]. now destruct (String.eqb (reg_path r) p).
    + intros q Hq.
      induction (putHandlers w) as [|r l IH]; simpl; [reflexivity|].
      destruct (String.eqb_spec (reg_path r) p) as [E|N]; simpl.
      * destruct (String.eqb_spec (reg_path r) q); [congruence | exact IH].
      * now rewrite IH.
    + apply JsMap_has_false_iff, JsMap_get_delete_same.
    + apply JsMap_has_false_iff, JsMap_get_delete_same.
    + intros q Hq. now apply JsMap_get_delete_other.
Qed.

Lemma unregisterHandler_result_witness :
  let app := SampleHost.tableApp [] in
  let m := fst (runPut app (freshWorld [] 0 []) []) in
  let w := snd (runPut app (freshWorld [] 0 []) []) in
  PutHandlerManager.hasPutHandler m "no.such.path" = false
  /\ PutHandlerManager.unregisterHandler m w "no.such.path" = (m, w, false).
Proof.
  intros app m w. split; [reflexivity|].
  apply (proj1 (unregisterHandler_result app [] 0 [] [] "no.such.path")).
  reflexivity.
Defined.

(** C9.  After any sequence of [registerHandler], [unregisterHandler]
    and [unregisterAll] calls on a fresh manager, [handlers] and
    [unregisterFunctions] have the same keys; [hasPutHandler(p)] holds
    exactly when [getHandler(p)] is defined and exactly when [p] is the path
    of an entry of [getHandlers()]; [unregisterAll] empties both maps and
    removes every interceptor from the host; on a manager with no
    registration it changes nothing. *)
Theorem handler_maps_same_keys :
  forall (app : ServerAPI) (b : list (string * Delta)) (n : nat) (t : list Timer)
         (calls : list PutCall),
    let m := fst (runPut app (freshWorld b n t) calls) in
    let w := snd (runPut app (freshWorld b n t) calls) in
    JsMap.keys (PutHandlerManager.handlers m)
    = JsMap.keys (PutHandlerManager.unregisterFunctions m)
    /\ (forall p : string,
           (PutHandlerManager.hasPutHandler m p = true
            <-> PutHandlerManager.getHandler m p <> None)
           /\ (PutHandlerManager.hasPutHandler m p = true
               <-> In p (map hi_path (PutHandlerManager.getHandlers m))))
    /\ PutHandlerManager.handlers (fst (PutHandlerManager.unregisterAll m w)) = []
    /\ PutHandlerManager.unregisterFunctions (fst (PutHandlerManager.unregisterAll m w)) = []
    /\ putHandlers (snd (PutHandlerManager.unregisterAll m w)) = []
    /\ (forall w0 : World,
           PutHandlerManager.unregisterAll PutHandlerManager.create w0
           = (PutHandlerManager.create, w0)).
Proof.
  intros app b n t calls m w.
  pose proof (PutInvariant_run app b n t calls) as I. fold m w in I.
  split; [exact (inv_keys _ _ I) | split].
  - intros p. split.
    + unfold PutHandlerManager.hasPutHandler, PutHandlerManager.getHandler, JsMap.has.
      destruct (JsMap.get (PutHandlerManager.handlers m) p); split; congruence.
    + rewrite (handlers_paths _ _ I). apply JsMap_has_true_iff.
  - rewrite (unregisterAll_loop _ _ I). simpl. repeat split; reflexivity.
Qed.

Lemma handler_maps_same_keys_witness :
  let app := SampleHost.tableApp [] in
  let calls := [CallRegister "2025-12-13T10:00:00.000Z" SampleHost.sog (mkPutOptions None);
                CallRegister "2025-12-13T10:00:01.000Z" "tanks.fuel.0.currentLevel"
                             (mkPutOptions (Some true));
                CallUnregister SampleHost.sog] in
  let m := fst (runPut app (freshWorld [] 0 []) calls) in
  PutHandlerManager.hasPutHandler m "tanks.fuel.0.currentLevel" = true
  /\ In "tanks.fuel.0.currentLevel" (map hi_path (PutHandlerManager.getHandlers m)).
Proof.
  intros app calls m. split; [reflexivity|].
  apply (proj2 (proj1 (proj2 (handler_maps_same_keys app [] 0 [] calls))
                      "tanks.fuel.0.currentLevel")).
  reflexivity.
Defined.

(* ===================================================================== *)
(** ** The installed PUT handler *)
(* ===================================================================== *)

(** C3 (as the code behaves).  The handler passes [putPath] and [value] to
    [setValue] and, with no callback or with one that returns normally,
    returns [{state: 'COMPLETED', statusCode: 200}] (and calls back with it
    once), whatever happens to the promise [setValue] returned.  On a host
    whose [handleMessage] throws, that promise is rejected, nothing reaches
    the bus, and the handler still reports [COMPLETED]/200: [FAILED]/500 is
    never reported for a failure of the injector. *)
Theorem put_handler_completed_despite_rejection :
  (forall (app : ServerAPI) (pm : PathManager.t) (w : World) (now : Timestamp)
          (context putPath : string) (value : JsValue),
      let injected := PathManager.setValue app pm w now putPath value None in
      let out := PutHandlerManager.handler app pm w now context putPath value
                                           (Some quietCallback) in
      let silent := PutHandlerManager.handler app pm w now context putPath value None in
      po_world out = fst injected
      /\ po_promise out = snd injected
      /\ po_returned out = Ok completed200
      /\ po_callbackCalls out = [completed200]
      /\ po_world silent = fst injected
      /\ po_promise silent = snd injected
      /\ po_returned silent = Ok completed200
      /\ po_callbackCalls silent = [])
  /\ (let app := SampleHost.refusingApp SampleHost.n2kTable "delta rejected" in
      let out := PutHandlerManager.handler app (PathManager.create app) emptyWorld
                                           "2025-12-13T10:00:00.000Z" "vessels.self"
                                           SampleHost.sog (JNumber (5 # 1))
                                           (Some quietCallback) in
      po_promise out = Rejected (ThrownError "delta rejected")
      /\ po_returned out = Ok completed200
      /\ po_callbackCalls out = [completed200]
      /\ bus (po_world out) = []).
Proof.
  split.
  - intros app pm w now context putPath value. unfold PutHandlerManager.handler.
    destruct (PathManager.setValue app pm w now putPath value None) as [w1 promise].
    simpl. repeat split.
  - repeat split.
Qed.

(** [FAILED]/500 is what the handler reports when the callback itself
    throws on the [COMPLETED] result. *)
Example put_handler_failed_on_callback_throw :
  let app := SampleHost.tableApp SampleHost.n2kTable in
  let callback : PutCallback :=
    fun r => match pr_state r with
             | COMPLETED => Throw (ThrownError "callback failed")
             | _ => Ok tt
             end in
  let out := PutHandlerManager.handler app (PathManager.create app) emptyWorld
                                       "2025-12-13T10:00:00.000Z" "vessels.self"
                                       SampleHost.sog (JNumber (5 # 1)) (Some callback) in
  po_promise out = Fulfilled tt
  /\ po_returned out = Ok (failed500 "callback failed")
  /\ po_callbackCalls out = [completed200; failed500 "callback failed"].
Proof. repeat split. Qed.

(* ===================================================================== *)
(** ** Live updates *)
(* ===================================================================== *)

Lemma JsSet_has_true_iff (s : JsSet.t) (x : string) : JsSet.has s x = true <-> In x s.
Proof.
  unfold JsSet.has. rewrite existsb_exists. split.
  - intros [y [Hy E]]. apply String.eqb_eq in E. now subst.
  - intros H. exists x. split; [exact H | apply String.eqb_refl].
Qed.

Lemma JsSet_has_false_iff (s : JsSet.t) (x : string) : JsSet.has s x = false <-> ~ In x s.
Proof.
  rewrite <- JsSet_has_true_iff. destruct (JsSet.has s x); split; congruence.
Qed.

Lemma JsSet_add_In (s : JsSet.t) (x y : string) :
  In y (JsSet.add s x) <-> In y s \/ y = x.
Proof.
  unfold JsSet.add. destruct (JsSet.has s x) eqn:E.
  - apply JsSet_has_true_iff in E. split; [tauto | intros [H| ->]; assumption].
  - rewrite in_app_iff. simpl. split; intros [H|H]; auto.
    + destruct H as [H|[]]; auto.
Qed.

Lemma JsSet_add_NoDup (s : JsSet.t) (x : string) : NoDup s -> NoDup (JsSet.add s x).
Proof.
  intros H. unfold JsSet.add. destruct (JsSet.has s x) eqn:E; [exact H|].
  apply NoDup_app_iff_tail. split; [exact H | now apply JsSet_has_false_iff].
Qed.

Lemma JsSet_add_all_In (paths : list string) (s : JsSet.t) (y : string) :
  In y (fold_left JsSet.add paths s) <-> In y s \/ In y paths.
Proof.
  revert s. induction paths as [|p paths IH]; intros s; simpl.
  - tauto.
  - rewrite IH, JsSet_add_In. split; intros H; intuition auto.
Qed.

Lemma JsSet_add_all_NoDup (paths : list string) (s : JsSet.t) :
  NoDup s -> NoDup (fold_left JsSet.add paths s).
Proof.
  revert s. induction paths as [|p paths IH]; intros s H; simpl; [exact H|].
  apply IH. now apply JsSet_add_NoDup.
Qed.

Lemma subscribedTo_dec (client : WhatIfClient) (path : string) :
  JsSet.has (subscriptions client) path || JsSet.has (subscriptions client) "*" = true
  <-> subscribedTo client path.
Proof.
  unfold subscribedTo. rewrite orb_true_iff, !JsSet_has_true_iff. reflexivity.
Qed.

(** C4.  For a change event with a non-empty path, [handleDelta] leaves
    the set of observers as it is and sends the snapshot
    [{path, value, timestamp, source}] of the event, as one ['update'], to
    each observer that is subscribed to the path or to ["*"] and whose
    socket is open.  An observer that is not subscribed (in particular one
    with an empty set) or whose socket is not open is left exactly as it
    was: nothing is sent to it and nothing is kept for later. *)
Theorem handleDelta_fan_out :
  forall (srv : WebSocketServer.t) (d : BusDelta) (path : string),
    d_path d = Some path ->
    path <> "" ->
    let update :=
      WSUpdatePath
        (mkPathInfo path (d_value d) (d_timestamp d)
                    (Js.or (d_dollarSource d) (Js.optProp (d_source d) "label"))
                    JUndefined) in
    WebSocketServer.clientIdCounter (WebSocketServer.handleDelta srv (Some d))
    = WebSocketServer.clientIdCounter srv
    /\ Forall2
         (fun c c' =>
            ws_readyState c' = ws_readyState c
            /\ client_id c' = client_id c
            /\ subscriptions c' = subscriptions c
            /\ (subscribedTo c path -> ws_readyState c = OPEN ->
                ws_sent c' = (ws_sent c ++ [update])%list)
            /\ (~ subscribedTo c path -> c' = c)
            /\ (subscriptions c = [] -> c' = c)
            /\ (ws_readyState c <> OPEN -> c' = c))
         (WebSocketServer.clients srv)
         (WebSocketServer.clients (WebSocketServer.handleDelta srv (Some d))).
Proof.
  intros srv d path Hpath Hne update.
  unfold WebSocketServer.handleDelta. rewrite Hpath.
  assert (Hnon : JsString.nonEmpty path = true) by (destruct path; [congruence | reflexivity]).
  rewrite Hnon. simpl. split; [reflexivity|].
  fold update.
  induction (WebSocketServer.clients srv) as [|c l IH]; simpl; constructor; [|exact IH].
  destruct (JsSet.has (subscriptions c) path || JsSet.has (subscriptions c) "*") eqn:Hsub.
  - apply subscribedTo_dec in Hsub.
    unfold WebSocketServer.send.
    destruct (ws_readyState c) eqn:Hrs; simpl; repeat split; auto;
      try tauto; try congruence;
      intros Hempty; destruct Hsub as [H|H]; rewrite Hempty in H; destruct H.
  - assert (Hn : ~ subscribedTo c path).
    { intros H. apply subscribedTo_dec in H. congruence. }
    repeat split; auto; tauto.
Qed.

Lemma handleDelta_fan_out_witness :
  let alice := mkClient OPEN [] "client-1" ["a.b"] in
  let bob := mkClient OPEN [] "client-2" [] in
  let carol := mkClient CLOSING [] "client-3" ["*"] in
  let srv := WebSocketServer.mk [alice; bob; carol] 3 in
  let d := mkBusDelta (Some "a.b") (JNumber (1 # 1)) (JString "2025-12-13T10:00:00.000Z")
                      (JString "n2k-01") JUndefined in
  d_path d = Some "a.b"
  /\ "a.b" <> ""
  /\ exists alice' bob' carol',
      WebSocketServer.clients (WebSocketServer.handleDelta srv (Some d))
      = [alice'; bob'; carol']
      /\ ws_sent alice'
         = [WSUpdatePath (mkPathInfo "a.b" (JNumber (1 # 1))
                                     (JString "2025-12-13T10:00:00.000Z")
                                     (JString "n2k-01") JUndefined)]
      /\ bob' = bob
      /\ carol' = carol.
Proof.
  intros alice bob carol srv d.
  split; [reflexivity | split; [discriminate |]].
  destruct (handleDelta_fan_out srv d "a.b" eq_refl ltac:(discriminate)) as [_ H].
  cbn in H.
  apply Forall2_cons_iff in H. destruct H as [Ha H].
  apply Forall2_cons_iff in H. destruct H as [Hb H].
  apply Forall2_cons_iff in H. destruct H as [Hc _].
  eexists _, _, _. split; [reflexivity|].
  destruct Ha as (_ & _ & _ & Ha & _).
  destruct Hb as (_ & _ & _ & _ & _ & Hb & _).
  destruct Hc as (_ & _ & _ & _ & _ & _ & Hc).
  split; [|split].
  - apply Ha; [left; left; reflexivity | reflexivity].
  - apply Hb. reflexivity.
  - apply Hc. discriminate.
Defined.

(** after ['unsubscribeAll'] the subscription set is empty *)
Lemma unsubscribeAll_clears {C : Collation} (app : ServerAPI) (pm : PathManager.t)
    (w : World) (client : WhatIfClient) :
  subscriptions (fst (WebSocketServer.handleMessage app pm w client
                        (mkWSMessage "unsubscribeAll" None None))) = [].
Proof. reflexivity. Qed.

(** a delta without a path is dropped *)
Lemma handleDelta_no_path (srv : WebSocketServer.t) (d : BusDelta) :
  d_path d = None \/ d_path d = Some "" ->
  WebSocketServer.handleDelta srv (Some d) = srv.
Proof.
  unfold WebSocketServer.handleDelta. intros [-> | ->]; reflexivity.
Qed.

Lemma readSubscribed_reads (app : ServerAPI) (pm : PathManager.t) (w : World)
    (subs : list string) (l : list PathInfo) :
  WebSocketServer.readSubscribed app pm w subs = Fulfilled l ->
  exists reads : list (option PathInfo),
    Forall2 (fun p r => PathManager.getPath app pm w p = Fulfilled r) subs reads
    /\ l = found reads.
Proof.
  revert l. induction subs as [|p subs IH]; simpl; intros l H.
  - inversion H. exists []. split; constructor.
  - destruct (PathManager.getPath app pm w p) as [r|e] eqn:Hp; [|discriminate].
    destruct (WebSocketServer.readSubscribed app pm w subs) as [l0|e]; [|discriminate].
    destruct (IH l0 eq_refl) as [reads [Hf Hl]].
    exists (r :: reads). split; [constructor; assumption|].
    inversion H. subst. destruct r; reflexivity.
Qed.

Lemma readSubscribed_fulfilled (app : ServerAPI) (pm : PathManager.t) (w : World)
    (subs : list string) :
  (forall p, In p subs -> exists r, PathManager.getPath app pm w p = Fulfilled r) ->
  exists l, WebSocketServer.readSubscribed app pm w subs = Fulfilled l.
Proof.
  induction subs as [|p subs IH]; simpl; intros H.
  - eauto.
  - destruct (H p (or_introl eq_refl)) as [r Hr]. rewrite Hr.
    destruct IH as [l Hl]; [intros; apply H; now right|].
    rewrite Hl. eauto.
Qed.

Lemma send_fields (client : WhatIfClient) (message : WSUpdate) :
  client_id (WebSocketServer.send client message) = client_id client
  /\ subscriptions (WebSocketServer.send client message) = subscriptions client
  /\ ws_readyState (WebSocketServer.send client message) = ws_readyState client.
Proof.
  unfold WebSocketServer.send. destruct (WebSocketServer.isOpen _); repeat split.
Qed.

Lemma nextPath_fields (app : ServerAPI) (pm : PathManager.t) (w : World)
    (client : WhatIfClient) (cursor : nat) (paths : list PathInfo) :
  client_id (fst (WebSocketServer.nextPath app pm w client cursor paths)) = client_id client
  /\ subscriptions (fst (WebSocketServer.nextPath app pm w client cursor paths))
     = subscriptions client
  /\ ws_readyState (fst (WebSocketServer.nextPath app pm w client cursor paths))
     = ws_readyState client.
Proof.
  unfold WebSocketServer.nextPath.
  destruct (nth_error (subscriptions client) cursor); cbn [fst]; [repeat split |].
  apply send_fields.
Qed.

Lemma callSendCurrentValues_fields {C : Collation} (app : ServerAPI) (pm : PathManager.t)
    (w : World) (client : WhatIfClient) :
  client_id (fst (WebSocketServer.callSendCurrentValues app pm w client)) = client_id client
  /\ subscriptions (fst (WebSocketServer.callSendCurrentValues app pm w client))
     = subscriptions client
  /\ ws_readyState (fst (WebSocketServer.callSendCurrentValues app pm w client))
     = ws_readyState client.
Proof.
  unfold WebSocketServer.callSendCurrentValues.
  destruct (JsSet.has (subscriptions client) "*"); [repeat split | apply nextPath_fields].
Qed.

Lemma resume_fields (app : ServerAPI) (pm : PathManager.t) (w : World)
    (client : WhatIfClient) (call : WebSocketServer.Call) :
  client_id (fst (WebSocketServer.resume app pm w client call)) = client_id client
  /\ subscriptions (fst (WebSocketServer.resume app pm w client call)) = subscriptions client
  /\ ws_readyState (fst (WebSocketServer.resume app pm w client call)) = ws_readyState client.
Proof.
  destruct call as [allPaths | cursor paths [pathInfo | e] | result]; cbn [WebSocketServer.resume fst].
  - apply send_fields.
  - apply nextPath_fields.
  - repeat split.
  - repeat split.
Qed.

(** the subscriptions named by a ['subscribe'] are in the set when the
    listener returns *)
Lemma subscribe_subscriptions {C : Collation} (app : ServerAPI) (pm : PathManager.t)
    (w : World) (client : WhatIfClient) (message : WSMessage) :
  msg_type message = "subscribe" ->
  subscriptions (fst (WebSocketServer.handleMessage app pm w client message))
  = fold_left JsSet.add (namedPaths message) (subscriptions client).
Proof.
  intros Ht. unfold WebSocketServer.handleMessage, namedPaths. rewrite Ht.
  change (String.eqb "subscribe" "subscribe") with true. cbv iota.
  set (subs := match msg_paths message with Some _ => _ | None => _ end).
  assert (Hsubs : subs = fold_left JsSet.add
                           match msg_paths message with
                           | Some paths => paths
                           | None => match msg_path message with
                                     | Some path => if JsString.nonEmpty path then [path] else []
                                     | None => []
                                     end
                           end (subscriptions client)).
  { subst subs. destruct (msg_paths message); [reflexivity|].
    destruct (msg_path message) as [p|]; [|reflexivity].
    destruct (JsString.nonEmpty p); reflexivity. }
  rewrite <- Hsubs. clearbody subs.
  pose proof (callSendCurrentValues_fields app pm w
                (WebSocketServer.withSubscriptions client subs)) as (_ & H & _).
  destruct (WebSocketServer.callSendCurrentValues app pm w
              (WebSocketServer.withSubscriptions client subs)) as [c' call].
  cbn [fst] in *. exact H.
Qed.

(* ===================================================================== *)
(** ** The created-paths registry *)
(* ===================================================================== *)

Lemma createPath_registry (app : ServerAPI) (pm : PathManager.t) (w : World)
    (now nowMeta : Timestamp) (path : string) (value meta : JsValue) :
  PathManager.createdPaths
    (fst (fst (PathManager.createPath app pm w now nowMeta path value meta)))
  = if Js.truthy meta
    then JsMap.set (PathManager.createdPaths pm) path meta
    else PathManager.createdPaths pm.
Proof.
  unfold PathManager.createPath.
  destruct (PathManager.setValue app _ w now path value None) as [w1 [u|e]].
  - destruct (Js.truthy meta); [|reflexivity].
    destruct (hostHandleMessage _ _ _ _); reflexivity.
  - destruct (Js.truthy meta); reflexivity.
Qed.

Lemma runCreate_snoc (app : ServerAPI) (w : World) (calls : list CreateCall) (c : CreateCall) :
  runCreate app w (calls ++ [c]) = stepCreate app (runCreate app w calls) c.
Proof. unfold runCreate. now rewrite fold_left_app. Qed.

Lemma stepCreate_registry (app : ServerAPI) (st : PathManager.t * World) (c : CreateCall) :
  PathManager.createdPaths (fst (stepCreate app st c))
  = if Js.truthy (cc_meta c)
    then JsMap.set (PathManager.createdPaths (fst st)) (cc_path c) (cc_meta c)
    else PathManager.createdPaths (fst st).
Proof.
  unfold stepCreate.
  rewrite <- createPath_registry with (app := app) (w := snd st) (now := cc_now c)
                                      (nowMeta := cc_nowMeta c) (value := cc_value c).
  destruct (PathManager.createPath _ _ _ _ _ _ _ _) as [[pm' w'] r]. reflexivity.
Qed.

(** C10 (amended).  [createPath] without metadata leaves the registry as
    it was: [isCreatedPath] answers as before for every path and
    [getCreatedPaths()] is the same list.  [createPath] with metadata
    records the path.  So after any sequence of [createPath] calls on a new
    manager, [isCreatedPath(p)] holds exactly when one of the calls was for
    [p] with metadata, and fails for a path only ever created without. *)
Theorem createPath_records_metadata_only :
  forall (app : ServerAPI) (pm : PathManager.t) (w : World)
         (now nowMeta : Timestamp) (path : string) (value meta : JsValue),
    let pm' := fst (fst (PathManager.createPath app pm w now nowMeta path value meta)) in
    (Js.truthy meta = false ->
     PathManager.createdPaths pm' = PathManager.createdPaths pm
     /\ PathManager.getCreatedPaths pm' = PathManager.getCreatedPaths pm
     /\ (forall q : string, PathManager.isCreatedPath pm' q = PathManager.isCreatedPath pm q)
     /\ (PathManager.isCreatedPath pm path = false ->
         PathManager.isCreatedPath pm' path = false
         /\ ~ In path (PathManager.getCreatedPaths pm')))
    /\ (Js.truthy meta = true ->
        PathManager.isCreatedPath pm' path = true
        /\ In path (PathManager.getCreatedPaths pm'))
    /\ (forall (calls : list CreateCall) (p : string),
           PathManager.isCreatedPath (fst (runCreate app w calls)) p = true
           <-> exists c : CreateCall,
                 In c calls /\ cc_path c = p /\ Js.truthy (cc_meta c) = true).
Proof.
  intros app pm w now nowMeta path value meta pm'.
  pose proof (createPath_registry app pm w now nowMeta path value meta) as Hreg.
  fold pm' in Hreg.
  split; [|split].
  - intros Hfalsy. rewrite Hfalsy in Hreg.
    unfold PathManager.getCreatedPaths, PathManager.isCreatedPath. rewrite Hreg.
    repeat split; auto.
    intros Hin. apply JsMap_has_true_iff in Hin. congruence.
  - intros Htruthy. rewrite Htruthy in Hreg.
    unfold PathManager.getCreatedPaths, PathManager.isCreatedPath. rewrite Hreg.
    assert (H : JsMap.has (JsMap.set (PathManager.createdPaths pm) path meta) path = true).
    { unfold JsMap.has. now rewrite JsMap_get_set_same. }
    split; [exact H | now apply JsMap_has_true_iff].
  - intros calls p. unfold PathManager.isCreatedPath.
    induction calls as [|c calls IH] using rev_ind.
    + simpl. split; [discriminate | intros [c [[] _]]].
    + rewrite runCreate_snoc, stepCreate_registry.
      destruct (Js.truthy (cc_meta c)) eqn:Hm.
      * rewrite JsMap_has_true_iff, JsMap_keys_set.
        destruct (JsMap.has (PathManager.createdPaths (fst (runCreate app w calls)))
                            (cc_path c)) eqn:Hhas.
        -- rewrite <- JsMap_has_true_iff. split.
           ++ intros H. apply IH in H. destruct H as [c0 [Hc0 H]].
              exists c0. split; [apply in_or_app; now left | exact H].
           ++ intros [c0 [Hc0 [Hp Ht]]]. apply in_app_or in Hc0.
              destruct Hc0 as [Hc0|[<-|[]]].
              ** apply IH. eauto.
              ** now rewrite <- Hp.
        -- rewrite in_app_iff, <- JsMap_has_true_iff. split.
           ++ intros [H|[H|[]]].
              ** apply IH in H. destruct H as [c0 [Hc0 H]].
                 exists c0. split; [apply in_or_app; now left | exact H].
              ** exists c. split; [apply in_or_app; right; now left | auto].
           ++ intros [c0 [Hc0 [Hp Ht]]]. apply in_app_or in Hc0.
              destruct Hc0 as [Hc0|[<-|[]]].
              ** left. apply IH. eauto.
              ** right. left. exact Hp.
      * rewrite IH. split.
        -- intros [c0 [Hc0 H]]. exists c0. split; [apply in_or_app; now left | exact H].
        -- intros [c0 [Hc0 [Hp Ht]]]. apply in_app_or in Hc0.
           destruct Hc0 as [Hc0|[<-|[]]]; [eauto | congruence].
Qed.

Lemma createPath_records_metadata_only_witness :
  let app := SampleHost.tableApp [] in
  let pm := PathManager.create app in
  let pm' := fst (fst (PathManager.createPath app pm emptyWorld
                         "2025-12-13T10:00:00.000Z" "2025-12-13T10:00:00.001Z"
                         "tanks.fuel.virtual.currentLevel" (JNumber (3 # 4)) JUndefined)) in
  Js.truthy JUndefined = false
  /\ PathManager.isCreatedPath pm "tanks.fuel.virtual.currentLevel" = false
  /\ PathManager.isCreatedPath pm' "tanks.fuel.virtual.currentLevel" = false
  /\ ~ In "tanks.fuel.virtual.currentLevel" (PathManager.getCreatedPaths pm').
Proof.
  intros app pm pm'.
  split; [reflexivity | split; [reflexivity|]].
  apply (proj1 (createPath_records_metadata_only app pm emptyWorld
                  "2025-12-13T10:00:00.000Z" "2025-12-13T10:00:00.001Z"
                  "tanks.fuel.virtual.currentLevel" (JNumber (3 # 4)) JUndefined));
    reflexivity.
Defined.

(** C10 as stated fails for a path recorded earlier: creating it again
    without metadata leaves it in the registry. *)
Lemma createPath_without_meta_counterexample :
  let app := SampleHost.tableApp [] in
  let path := "tanks.fuel.virtual.currentLevel" in
  let withMeta :=
    mkCreateCall "2025-12-13T10:00:00.000Z" "2025-12-13T10:00:00.001Z"
                 path (JNumber (3 # 4)) (JObject [("units", JString "ratio")]) in
  let withoutMeta :=
    mkCreateCall "2025-12-13T10:05:00.000Z" "2025-12-13T10:05:00.001Z"
                 path (JNumber (1 # 2)) JUndefined in
  let pm := fst (runCreate app emptyWorld [withMeta; withoutMeta]) in
  ~ (PathManager.isCreatedPath pm path = false
     /\ ~ In path (PathManager.getCreatedPaths pm)).
Proof.
  cbn. intros [H _]. discriminate H.
Qed.

(* ===================================================================== *)
(** ** [sort] with a consistent comparator *)
(* ===================================================================== *)

Section SortFacts.
Context {A : Type} (cmp : A -> A -> Z).

Let le (x y : A) : Prop := (cmp x y <= 0)%Z.

Lemma insert_Permutation (x : A) (l : list A) :
  Permutation (JsArray.insert cmp x l) (x :: l).
Proof.
  induction l as [|y l IH]; simpl; [apply Permutation_refl|].
  destruct (cmp x y <=? 0)%Z; [apply Permutation_refl|].
  eapply Permutation_trans; [apply perm_skip, IH | apply perm_swap].
Qed.


Lemma insert_filter_out (P : A -> bool) (x : A) (l : list A) :
  P x = false -> filter P (JsArray.insert cmp x l) = filter P l.
Proof.
  intros Hx. induction l as [|y l IH]; simpl; [now rewrite Hx|].
  destruct (cmp x y <=? 0)%Z; simpl; [now rewrite Hx|].
  now rewrite IH.
Qed.

Lemma insert_least (x : A) (l : list A) :
  Forall (le x) l -> JsArray.insert cmp x l = x :: l.
Proof.
  destruct l as [|y l]; simpl; [reflexivity|].
  intros H. inversion H as [|? ? Hy _]; subst.
  unfold le in Hy. apply Z.leb_le in Hy. now rewrite Hy.
Qed.

Hypothesis cmp_total : forall x y : A, (0 < cmp x y)%Z -> (cmp y x <= 0)%Z.
Hypothesis cmp_trans :
  forall x y z : A, (cmp x y <= 0)%Z -> (cmp y z <= 0)%Z -> (cmp x z <= 0)%Z.

Lemma insert_StronglySorted (x : A) (l : list A) :
  StronglySorted le l -> StronglySorted le (JsArray.insert cmp x l).
Proof.
  induction l as [|y l IH]; simpl; intros H.
  - repeat constructor.
  - inversion H as [|? ? Hl Hy]; subst.
    destruct (cmp x y <=? 0)%Z eqn:E.
    + apply Z.leb_le in E. constructor; [exact H|].
      constructor; [exact E|].
      eapply Forall_impl; [|exact Hy]. intros z Hz. now apply (cmp_trans x y z).
    + apply Z.leb_gt in E. constructor; [now apply IH|].
      eapply Permutation_Forall; [apply Permutation_sym, insert_Permutation|].
      constructor; [now apply cmp_total | exact Hy].
Qed.

Lemma sort_StronglySorted (l : list A) : StronglySorted le (JsArray.sort cmp l).
Proof.
  induction l as [|x l IH]; simpl; [constructor | now apply insert_StronglySorted].
Qed.

Lemma insert_filter_in (P : A -> bool) (x : A) (l : list A) :
  StronglySorted le l -> P x = true ->
  filter P (JsArray.insert cmp x l) = JsArray.insert cmp x (filter P l).
Proof.
  intros Hs Hx. induction l as [|y l IH]; simpl; [now rewrite Hx|].
  inversion Hs as [|? ? Hl Hy]; subst.
  destruct (cmp x y <=? 0)%Z eqn:E.
  - simpl. rewrite Hx. destruct (P y) eqn:Py.
    + simpl. now rewrite E.
    + symmetry. apply insert_least.
      apply Z.leb_le in E.
      rewrite Forall_forall in *. intros z Hz. apply filter_In in Hz.
      apply (cmp_trans x y z); [exact E | apply Hy; tauto].
  - simpl. destruct (P y) eqn:Py; simpl.
    + rewrite E. now rewrite IH.
    + now apply IH.
Qed.

Lemma sort_filter (P : A -> bool) (l : list A) :
  JsArray.sort cmp (filter P l) = filter P (JsArray.sort cmp l).
Proof.
  induction l as [|x l IH]; simpl; [reflexivity|].
  destruct (P x) eqn:Px.
  - simpl. rewrite IH. symmetry.
    apply insert_filter_in; [apply sort_StronglySorted | exact Px].
  - rewrite IH. symmetry. now apply insert_filter_out.
Qed.

End SortFacts.

(* ===================================================================== *)
(** ** Searching a path *)
(* ===================================================================== *)










Lemma nonEmpty_true_iff (s : string) : JsString.nonEmpty s = true <-> s <> "".
Proof. destruct s; simpl; split; congruence. Qed.

(* ===================================================================== *)
(** ** Filtering the listing *)
(* ===================================================================== *)

Lemma filter_filter {A : Type} (P Q : A -> bool) (l : list A) :
  filter Q (filter P l) = filter (fun x => P x && Q x) l.
Proof.
  induction l as [|x l IH]; simpl; [reflexivity|].
  destruct (P x); simpl; [destruct (Q x)|]; now rewrite IH.
Qed.

Lemma filter_true {A : Type} (l : list A) : filter (fun _ => true) l = l.
Proof. induction l as [|x l IH]; simpl; [reflexivity | now rewrite IH]. Qed.

Lemma applyFilter_satisfiesb {C : Collation} (f : PathFilter) (paths : list PathInfo) :
  PathManager.applyFilter f paths = filter (satisfiesb f) paths.
Proof.
  unfold PathManager.applyFilter, satisfiesb, searchMatches, givenString, givenFlag.
  destruct f as [s v m u]; cbn [pf_search pf_hasValue pf_hasMeta pf_baseUnit].
  set (P1 := fun p : PathInfo =>
               match (match s with
                      | Some s0 => if JsString.nonEmpty s0 then Some s0 else None
                      | None => None
                      end) with
               | Some s0 => JsString.includes (toLowerCase (pi_path p)) (toLowerCase s0)
               | None => true
               end).
  set (P2 := fun p : PathInfo =>
               if match v with Some true => true | _ => false end
               then negb (Js.isNullish (pi_value p)) else true).
  set (P3 := fun p : PathInfo =>
               if match m with Some true => true | _ => false end
               then negb (Js.isUndefined (pi_meta p)) else true).
  set (P4 := fun p : PathInfo =>
               match (match u with
                      | Some u0 => if JsString.nonEmpty u0 then Some u0 else None
                      | None => None
                      end) with
               | Some u0 => PathManager.strictEqString (Js.optProp (pi_meta p) "units") u0
               | None => true
               end).
  transitivity (filter P4 (filter P3 (filter P2 (filter P1 paths)))).
  - assert (H1 : match s with
                 | Some search =>
                     if JsString.nonEmpty search
                     then filter (fun p => JsString.includes (toLowerCase (pi_path p))
                                                             (toLowerCase search)) paths
                     else paths
                 | None => paths
                 end = filter P1 paths).
    { subst P1. destruct s as [s0|]; [destruct (JsString.nonEmpty s0)|];
        try reflexivity; now rewrite filter_true. }
    rewrite H1. generalize (filter P1 paths) as l1. intros l1.
    assert (H2 : match v with
                 | Some true => filter (fun p => negb (Js.isNullish (pi_value p))) l1
                 | _ => l1
                 end = filter P2 l1).
    { subst P2. destruct v as [[]|]; try reflexivity; now rewrite filter_true. }
    rewrite H2. generalize (filter P2 l1) as l2. intros l2.
    assert (H3 : match m with
                 | Some true => filter (fun p => negb (Js.isUndefined (pi_meta p))) l2
                 | _ => l2
                 end = filter P3 l2).
    { subst P3. destruct m as [[]|]; try reflexivity; now rewrite filter_true. }
    rewrite H3. generalize (filter P3 l2) as l3. intros l3.
    subst P4. destruct u as [u0|]; [destruct (JsString.nonEmpty u0)|];
      try reflexivity; now rewrite filter_true.
  - rewrite !filter_filter. apply filter_ext. intros p.
    subst P1 P2 P3 P4. cbv beta. rewrite ?andb_assoc. reflexivity.
Qed.



(* ===================================================================== *)
(** ** The listing *)
(* ===================================================================== *)

Lemma codeOrder_le_iff (a b : string) :
  (@localeCompare codeOrder a b <= 0)%Z
  <-> a = b \/ OrderedTypeEx.String_as_OT.lt a b.
Proof.
  unfold localeCompare, codeOrder.
  destruct (String.compare a b) eqn:E.
  - apply OrderedTypeEx.String_as_OT.cmp_eq in E. split; [now left | lia].
  - apply OrderedTypeEx.String_as_OT.cmp_lt in E. split; [now right | lia].
  - split; [lia|]. intros [H|H]; exfalso.
    + apply OrderedTypeEx.String_as_OT.cmp_eq in H.
      unfold OrderedTypeEx.String_as_OT.cmp in H. congruence.
    + apply OrderedTypeEx.String_as_OT.cmp_lt in H.
      unfold OrderedTypeEx.String_as_OT.cmp in H. congruence.
Qed.

#[export] Instance codeOrder_consistent : ConsistentCollation codeOrder.
Proof.
  constructor.
  - intros a b H. unfold localeCompare, codeOrder in *.
    rewrite String.compare_antisym.
    destruct (String.compare a b); simpl in *; lia.
  - intros a b c Hab Hbc. rewrite codeOrder_le_iff in *.
    destruct Hab as [->|Hab]; [exact Hbc|].
    destruct Hbc as [<-|Hbc]; [now right|].
    right. eapply OrderedTypeEx.String_as_OT.lt_trans; eassumption.
Qed.

Section Listing.
Context {C : Collation} {HC : ConsistentCollation C}.

Let byPath (a b : PathInfo) : Z := localeCompare (pi_path a) (pi_path b).

Lemma byPath_total (x y : PathInfo) : (0 < byPath x y)%Z -> (byPath y x <= 0)%Z.
Proof. apply localeCompare_total. Qed.

Lemma byPath_trans (x y z : PathInfo) :
  (byPath x y <= 0)%Z -> (byPath y z <= 0)%Z -> (byPath x z <= 0)%Z.
Proof. apply localeCompare_trans. Qed.

Lemma getAllPaths_filtered (app : ServerAPI) (pm : PathManager.t) (w : World)
    (f : PathFilter) :
  PathManager.getAllPaths app pm w (Some f)
  = filter (satisfiesb f) (PathManager.getAllPaths app pm w None).
Proof.
  unfold PathManager.getAllPaths. rewrite applyFilter_satisfiesb.
  apply (sort_filter byPath byPath_total byPath_trans).
Qed.

Lemma getAllPaths_sorted (app : ServerAPI) (pm : PathManager.t) (w : World)
    (filter : option PathFilter) :
  StronglySorted pathLe (PathManager.getAllPaths app pm w filter).
Proof.
  unfold PathManager.getAllPaths.
  apply (sort_StronglySorted byPath byPath_total byPath_trans).
Qed.

End Listing.

Lemma collectPaths_reads (app app' : ServerAPI) (pm pm' : PathManager.t) (w w' : World) :
  treeReads app' w' = treeReads app w ->
  PathManager.createdPaths pm' = PathManager.createdPaths pm ->
  PathManager.collectPaths app' pm' w' = PathManager.collectPaths app pm w.
Proof.
  unfold treeReads. intros H Hc. injection H as H1 H2 H3 H4.
  unfold PathManager.collectPaths, PathManager.fetchPathsFromAPI.
  now rewrite H1, H2, H3, H4, Hc.
Qed.






(** With a consistent [localeCompare] the filtered listing is moreover
    the unfiltered one, in its order, with the other snapshots removed. *)
Lemma getAllPaths_filter_in_order (C : Collation) (HC : ConsistentCollation C)
    (app : ServerAPI) (pm : PathManager.t) (w : World) (f : PathFilter) :
  PathManager.getAllPaths app pm w (Some f)
  = filter (satisfiesb f) (PathManager.getAllPaths app pm w None).
Proof. apply getAllPaths_filtered. Qed.

Example getAllPaths_tank_filter :
  let app := SampleHost.tableApp SampleTree.tanksTable in
  map pi_path (@PathManager.getAllPaths codeOrder app (PathManager.create app) emptyWorld None)
  = ["navigation.speedOverGround"; "tanks.freshWater.0.currentLevel";
     "tanks.fuel.0.currentLevel"]
  /\ map pi_path (@PathManager.getAllPaths codeOrder app (PathManager.create app) emptyWorld
                    (Some SampleTree.tankFilter))
     = ["tanks.fuel.0.currentLevel"].
Proof. split; reflexivity. Qed.

(** C7 (amended).  With a consistent [localeCompare], the listing is
    sorted by path in the order of [localeCompare], and it is a function of
    what the host answers to the reads of the tree, of the created-paths
    registry and of the filter: two calls that agree on these return the
    same list. *)
Theorem getAllPaths_sorted_deterministic :
  forall (C : Collation) (HC : ConsistentCollation C)
         (app : ServerAPI) (pm : PathManager.t) (w : World) (filter : option PathFilter),
    StronglySorted pathLe (PathManager.getAllPaths app pm w filter)
    /\ (forall (app' : ServerAPI) (pm' : PathManager.t) (w' : World),
           treeReads app' w' = treeReads app w ->
           PathManager.createdPaths pm' = PathManager.createdPaths pm ->
           PathManager.getAllPaths app' pm' w' filter
           = PathManager.getAllPaths app pm w filter).
Proof.
  intros C HC app pm w filter. split; [apply getAllPaths_sorted|].
  intros app' pm' w' Hr Hc. unfold PathManager.getAllPaths.
  now rewrite (collectPaths_reads app app' pm pm' w w' Hr Hc).
Qed.

Lemma getAllPaths_sorted_deterministic_witness :
  let app := SampleHost.tableApp SampleTree.tanksTable in
  let app' := SampleHost.liveApp SampleTree.tanksTable in
  let pm := PathManager.create app in
  treeReads app' emptyWorld = treeReads app emptyWorld
  /\ StronglySorted (@pathLe codeOrder)
       (@PathManager.getAllPaths codeOrder app pm emptyWorld None)
  /\ @PathManager.getAllPaths codeOrder app' pm emptyWorld None
     = @PathManager.getAllPaths codeOrder app pm emptyWorld None.
Proof.
  intros app app' pm.
  destruct (getAllPaths_sorted_deterministic codeOrder codeOrder_consistent
              app pm emptyWorld None) as [Hs Hd].
  split; [reflexivity | split; [exact Hs|]].
  apply Hd; reflexivity.
Defined.

(** C7 as stated fails: over the same tree and with the same filter, the
    listing of the manager that created ["x.y"] with metadata differs from
    the listing of a new manager, because the registry's metadata is merged
    into the snapshots. *)
Lemma getAllPaths_registry_counterexample :
  let app := SampleHost.tableApp SampleTree.xyTable in
  let created :=
    PathManager.createPath app (PathManager.create app) emptyWorld
      "2025-12-13T10:00:00.000Z" "2025-12-13T10:00:00.001Z"
      "x.y" (JNumber (1 # 1)) (JObject [("units", JString "m")]) in
  let pm := fst (fst created) in
  let w := snd (fst created) in
  ~ (@PathManager.getAllPaths codeOrder app pm w None
     = @PathManager.getAllPaths codeOrder app (PathManager.create app) w None).
Proof.
  cbn. intros H. discriminate H.
Qed.

(* ===================================================================== *)
(** ** The walk of the tree *)
(* ===================================================================== *)

Section JsValueInduction.
Variable P : JsValue -> Prop.
Hypothesis P_undefined : P JUndefined.
Hypothesis P_null : P JNull.
Hypothesis P_bool : forall b, P (JBool b).
Hypothesis P_number : forall q, P (JNumber q).
Hypothesis P_string : forall s, P (JString s).
Hypothesis P_array : forall items, Forall P items -> P (JArray items).
Hypothesis P_object :
  forall props, Forall (fun kv => P (snd kv)) props -> P (JObject props).

Fixpoint JsValue_nested_ind (v : JsValue) : P v :=
  match v with
  | JUndefined => P_undefined
  | JNull => P_null
  | JBool b => P_bool b
  | JNumber q => P_number q
  | JString s => P_string s
  | JArray items =>
      P_array items
        ((fix all (l : list JsValue) : Forall P l :=
            match l with
            | [] => Forall_nil P
            | x :: r => Forall_cons x (JsValue_nested_ind x) (all r)
            end) items)
  | JObject props =>
      P_object props
        ((fix all (l : list (string * JsValue)) : Forall (fun kv => P (snd kv)) l :=
            match l with
            | [] => Forall_nil _
            | kv :: r => Forall_cons kv (JsValue_nested_ind (snd kv)) (all r)
            end) props)
  end.

End JsValueInduction.

Lemma indexKey_not_skipped (i : nat) :
  PathManager.skipKey (DecimalString.NilEmpty.string_of_uint (Nat.to_uint i)) = false.
Proof.
  destruct (Nat.to_uint i); reflexivity.
Qed.

Lemma indexedFrom_In {A : Type} (n : nat) (l : list A) (k : string) (x : A) :
  In (k, x) (JsArray.indexedFrom n l) ->
  In x l /\ PathManager.skipKey k = false.
Proof.
  revert n. induction l as [|y l IH]; simpl; intros n H; [destruct H|].
  destruct H as [E|H].
  - injection E as <- <-. split; [now left | apply indexKey_not_skipped].
  - destruct (IH _ H). split; [now right | assumption].
Qed.

Lemma extractPaths_object (created : JsMap.t JsValue) (props : list (string * JsValue))
    (currentPath : string) :
  PathManager.extractPaths created (JObject props) currentPath
  = ((match Js.lookup props "value" with
      | Some v => [leafSnapshot created currentPath props v]
      | None => []
      end)
     ++ extractEntries created currentPath props)%list.
Proof.
  cbn [PathManager.extractPaths]. f_equal.
  induction props as [|[key child] props IH]; [reflexivity|].
  cbn [extractEntries]. unfold isContainer. f_equal. exact IH.
Qed.

Lemma extractPaths_array (created : JsMap.t JsValue) (items : list JsValue)
    (currentPath : string) :
  PathManager.extractPaths created (JArray items) currentPath
  = extractEntries created currentPath (JsArray.indexedFrom 0 items).
Proof.
  cbn [PathManager.extractPaths]. generalize 0 as n.
  induction items as [|child items IH]; intros n; [reflexivity|].
  cbn [JsArray.indexedFrom extractEntries].
  rewrite indexKey_not_skipped. unfold isContainer. f_equal. apply IH.
Qed.

Lemma extractPaths_step (created : JsMap.t JsValue) (obj : JsValue) (currentPath : string) :
  PathManager.extractPaths created obj currentPath
  = ((match obj with
      | JObject props =>
          match Js.lookup props "value" with
          | Some v => [leafSnapshot created currentPath props v]
          | None => []
          end
      | _ => []
      end)
     ++ extractEntries created currentPath (childEntries obj))%list.
Proof.
  destruct obj; try reflexivity.
  - apply extractPaths_array.
  - apply extractPaths_object.
Qed.

Lemma extractEntries_In (created : JsMap.t JsValue) (currentPath : string)
    (entries : list (string * JsValue)) (i : PathInfo) :
  In i (extractEntries created currentPath entries)
  <-> exists key child,
      In (key, child) entries
      /\ PathManager.skipKey key = false
      /\ isContainer child = true
      /\ In i (PathManager.extractPaths created child (PathManager.childPath currentPath key)).
Proof.
  induction entries as [|[key child] entries IH]; cbn [extractEntries].
  - split; [intros [] | intros (k & c & [] & _)].
  - rewrite in_app_iff, IH. split.
    + intros [H|(k & c & Hin & H)].
      * exists key, child. destruct (PathManager.skipKey key); [destruct H|].
        destruct (isContainer child); [|destruct H].
        repeat split; auto. now left.
      * exists k, c. split; [now right | exact H].
    + intros (k & c & [E|Hin] & Hs & Hc & Hi).
      * injection E as -> ->. left. now rewrite Hs, Hc.
      * right. exists k, c. auto.
Qed.

Lemma Reach_container (v : JsValue) (keys : list string) (props : list (string * JsValue)) :
  Reach v keys (JObject props) -> isContainer v = true.
Proof.
  intros H. inversion H as [|? key child ks node Hin Hr]; subst; [reflexivity|].
  destruct v; try destruct Hin; reflexivity.
Qed.

Lemma extractPaths_In (created : JsMap.t JsValue) (obj : JsValue) (currentPath : string)
    (i : PathInfo) :
  In i (PathManager.extractPaths created obj currentPath)
  <-> exists (keys : list string) (props : list (string * JsValue)) (v : JsValue),
      Reach obj keys (JObject props)
      /\ Forall (fun key => PathManager.skipKey key = false) keys
      /\ Js.lookup props "value" = Some v
      /\ i = leafSnapshot created (joinPath currentPath keys) props v.
Proof.
  split.
  - revert currentPath.
    induction obj as [| | | | |items IH|props IH] using JsValue_nested_ind;
      intros currentPath; rewrite extractPaths_step; try (intros []).
    + cbn [app childEntries]. rewrite extractEntries_In.
      intros (key & child & Hin & Hs & Hc & Hi).
      rewrite Forall_forall in IH.
      destruct (IH child (proj1 (indexedFrom_In _ _ _ _ Hin)) _ Hi)
        as (keys & props & v & Hr & Hk & Hv & ->).
      exists (key :: keys), props, v. repeat split; auto.
      econstructor; eauto.
    + rewrite in_app_iff. intros [Hleaf|Hsub].
      * destruct (Js.lookup props "value") as [v|] eqn:Hv; [|destruct Hleaf].
        destruct Hleaf as [<-|[]].
        exists [], props, v. repeat split; auto. constructor.
      * cbn [childEntries] in Hsub. rewrite extractEntries_In in Hsub.
        destruct Hsub as (key & child & Hin & Hs & Hc & Hi).
        rewrite Forall_forall in IH.
        destruct (IH (key, child) Hin _ Hi) as (keys & props' & v & Hr & Hk & Hv & ->).
        exists (key :: keys), props', v. repeat split; auto.
        econstructor; eauto.
  - intros (keys & props & v & Hr & Hk & Hv & ->).
    revert currentPath. remember (JObject props) as leaf eqn:El.
    induction Hr as [node|node key child keys leaf Hin Hr IH]; intros currentPath; subst.
    + rewrite extractPaths_step, in_app_iff. left. rewrite Hv. now left.
    + inversion Hk as [|? ? Hkey Hkeys]; subst.
      rewrite extractPaths_step, in_app_iff. right.
      apply extractEntries_In. exists key, child.
      repeat split; auto.
      * eapply Reach_container; eauto.
      * apply IH; auto.
Qed.

Lemma indexKey_inj (a b : nat) :
  DecimalString.NilEmpty.string_of_uint (Nat.to_uint a)
  = DecimalString.NilEmpty.string_of_uint (Nat.to_uint b) -> a = b.
Proof.
  intros H.
  apply (f_equal DecimalString.NilEmpty.uint_of_string) in H.
  rewrite !DecimalString.NilEmpty.usu in H. injection H as H.
  apply (f_equal Nat.of_uint) in H.
  now rewrite !DecimalNat.Unsigned.of_to in H.
Qed.

Lemma indexedFrom_keys {A : Type} (n : nat) (l : list A) (k : string) :
  In k (map fst (JsArray.indexedFrom n l)) ->
  exists i, n <= i /\ k = DecimalString.NilEmpty.string_of_uint (Nat.to_uint i).
Proof.
  revert n. induction l as [|x l IH]; intros n; cbn [JsArray.indexedFrom map fst In].
  - intros [].
  - intros [<- | H].
    + exists n. split; [lia | reflexivity].
    + destruct (IH (S n) H) as [i [Hi E]]. exists i. split; [lia | exact E].
Qed.

Lemma indexedFrom_NoDup {A : Type} (n : nat) (l : list A) :
  NoDup (map fst (JsArray.indexedFrom n l)).
Proof.
  revert n. induction l as [|x l IH]; intros n; cbn [JsArray.indexedFrom map fst].
  - constructor.
  - constructor; [| apply IH].
    intros H. destruct (indexedFrom_keys (S n) l _ H) as [i [Hi E]].
    apply indexKey_inj in E. lia.
Qed.

Lemma entry_unique {A : Type} (entries : list (string * A)) (k : string) (x y : A) :
  NoDup (map fst entries) -> In (k, x) entries -> In (k, y) entries -> x = y.
Proof.
  induction entries as [|[k0 z] entries IH]; cbn [map fst In]; intros Hnd Hx Hy; [destruct Hx |].
  inversion Hnd as [|? ? Hnot Hnd']; subst.
  destruct Hx as [Ex | Hx], Hy as [Ey | Hy].
  - congruence.
  - injection Ex as -> ->. exfalso. apply Hnot. apply in_map_iff. exists (k, y). auto.
  - injection Ey as -> ->. exfalso. apply Hnot. apply in_map_iff. exists (k, x). auto.
  - apply IH; assumption.
Qed.

Lemma Reach_functional (obj : JsValue) (keys : list string) (n1 n2 : JsValue) :
  UniqueKeys obj -> Reach obj keys n1 -> Reach obj keys n2 -> n1 = n2.
Proof.
  intros Hu H1. revert n2 Hu.
  induction H1 as [v | v key child keys node Hin Hr IH]; intros n2 Hu H2.
  - inversion H2; subst. reflexivity.
  - inversion H2 as [| ? ? child2 ? ? Hin2 Hr2]; subst.
    destruct Hu as [v Hnd Hch].
    assert (child2 = child) by (eapply entry_unique; eassumption). subst child2.
    apply IH; [apply (Hch key child Hin) | exact Hr2].
Qed.

Lemma Leaf_nil (obj : JsValue) :
  Leaf obj []
  <-> exists props v, obj = JObject props /\ Js.lookup props "value" = Some v.
Proof.
  unfold Leaf. split.
  - intros (props & v & Hr & _ & Hv). inversion Hr; subst. eauto.
  - intros (props & v & -> & Hv). exists props, v.
    split; [constructor | split; [constructor | exact Hv]].
Qed.

Lemma Leaf_cons (obj : JsValue) (key : string) (rest : list string) :
  Leaf obj (key :: rest)
  <-> exists child, In (key, child) (childEntries obj)
                    /\ PathManager.skipKey key = false /\ Leaf child rest.
Proof.
  unfold Leaf. split.
  - intros (props & v & Hr & Hk & Hv).
    inversion Hr as [| ? ? child ? ? Hin Hr']; subst.
    inversion Hk as [| ? ? Hkey Hrest]; subst.
    exists child. split; [exact Hin | split; [exact Hkey |]].
    exists props, v. auto.
  - intros (child & Hin & Hkey & props & v & Hr & Hk & Hv).
    exists props, v. split; [econstructor; eassumption | split; [constructor; assumption | exact Hv]].
Qed.

Lemma Leaf_container (child : JsValue) (rest : list string) :
  Leaf child rest -> isContainer child = true.
Proof. intros (props & v & Hr & _). eapply Reach_container; eassumption. Qed.

Lemma SnapshotAt_cons (created : JsMap.t JsValue) (obj : JsValue) (currentPath : string)
    (key : string) (child : JsValue) (rest : list string) (i : PathInfo) :
  In (key, child) (childEntries obj) ->
  SnapshotAt created child (PathManager.childPath currentPath key) rest i ->
  SnapshotAt created obj currentPath (key :: rest) i.
Proof.
  intros Hin (props & v & Hr & Hv & ->). exists props, v.
  split; [econstructor; eassumption | split; [exact Hv | reflexivity]].
Qed.

Lemma NoDup_map_cons (key : string) (chains : list (list string)) :
  NoDup chains -> NoDup (map (cons key) chains).
Proof.
  induction 1 as [|c chains Hnot Hnd IH]; cbn [map]; constructor; [| exact IH].
  intros H. apply in_map_iff in H as [c' [E Hc']]. injection E as ->. contradiction.
Qed.

Lemma Forall2_map_cons {B : Type} (R : list string -> B -> Prop)
    (R' : list string -> B -> Prop) (key : string) (chains : list (list string))
    (l : list B) :
  (forall rest i, R rest i -> R' (key :: rest) i) ->
  Forall2 R chains l -> Forall2 R' (map (cons key) chains) l.
Proof.
  intros H. induction 1; cbn [map]; constructor; auto.
Qed.

(** the chains of the leaves under the entries of a node, one for each
    snapshot of the loop, in its order *)
Lemma extractEntries_chains (created : JsMap.t JsValue) (obj : JsValue) (currentPath : string)
    (entries : list (string * JsValue)) :
  NoDup (map fst entries) ->
  (forall key child, In (key, child) entries -> In (key, child) (childEntries obj)) ->
  (forall key child,
      In (key, child) entries ->
      forall cp, exists chains : list (list string),
        NoDup chains
        /\ (forall keys, In keys chains <-> Leaf child keys)
        /\ Forall2 (SnapshotAt created child cp) chains
                   (PathManager.extractPaths created child cp)) ->
  exists chains : list (list string),
    NoDup chains
    /\ (forall keys,
           In keys chains
           <-> exists key child rest,
               keys = key :: rest /\ In (key, child) entries
               /\ PathManager.skipKey key = false /\ Leaf child rest)
    /\ Forall2 (SnapshotAt created obj currentPath) chains
               (extractEntries created currentPath entries).
Proof.
  induction entries as [|[key child] entries IH]; intros Hnd Hsub Hch.
  - exists []. split; [constructor | split; [| constructor]].
    intros keys. split; [intros [] | intros (k & c & r & _ & [] & _)].
  - inversion Hnd as [|? ? Hnot Hnd']; subst.
    destruct IH as (chains & Hn & Hin & Hf); [exact Hnd' | | |].
    { intros k c H. apply Hsub. right. exact H. }
    { intros k c H. apply (Hch k c). right. exact H. }
    assert (Hother : forall keys, In keys chains -> forall rest, keys <> key :: rest).
    { intros keys Hk rest ->. apply Hin in Hk as (k & c & r & E & Hkc & _).
      injection E as <- <-. apply Hnot. apply in_map_iff. exists (key, c). auto. }
    cbn [extractEntries].
    destruct (PathManager.skipKey key) eqn:Hskip;
      [| destruct (isContainer child) eqn:Hcont].
    + exists chains. split; [exact Hn | split; [| exact Hf]].
      intros keys. rewrite Hin. split.
      * intros (k & c & r & E & Hkc & H). exists k, c, r. split; [exact E |].
        split; [right; exact Hkc | exact H].
      * intros (k & c & r & E & [Ekc | Hkc] & Hs & Hl).
        -- injection Ekc as <- <-. congruence.
        -- exists k, c, r. auto.
    + destruct (Hch key child (or_introl eq_refl) (PathManager.childPath currentPath key))
        as (sub & Hsn & Hsin & Hsf).
      exists (map (cons key) sub ++ chains)%list. split; [| split].
      * apply NoDup_app; [apply NoDup_map_cons; exact Hsn | exact Hn |].
        intros keys H1 H2. apply in_map_iff in H1 as [rest [<- _]].
        apply (Hother _ H2 rest). reflexivity.
      * intros keys. rewrite in_app_iff, in_map_iff, Hin. split.
        -- intros [[rest [<- Hr]] | (k & c & r & E & Hkc & H)].
           ++ exists key, child, rest. split; [reflexivity |].
              split; [left; reflexivity | split; [exact Hskip | apply Hsin; exact Hr]].
           ++ exists k, c, r. split; [exact E | split; [right; exact Hkc | exact H]].
        -- intros (k & c & r & E & [Ekc | Hkc] & Hs & Hl).
           ++ injection Ekc as <- <-. left. exists r. split; [symmetry; exact E |].
              apply Hsin. exact Hl.
           ++ right. exists k, c, r. auto.
      * apply Forall2_app; [| exact Hf].
        apply (Forall2_map_cons (SnapshotAt created child
                                            (PathManager.childPath currentPath key))).
        -- intros rest i. apply SnapshotAt_cons. apply Hsub. left. reflexivity.
        -- exact Hsf.
    + exists chains. split; [exact Hn | split; [| exact Hf]].
      intros keys. rewrite Hin. split.
      * intros (k & c & r & E & Hkc & H). exists k, c, r. split; [exact E |].
        split; [right; exact Hkc | exact H].
      * intros (k & c & r & E & [Ekc | Hkc] & Hs & Hl).
        -- injection Ekc as <- <-. apply Leaf_container in Hl. congruence.
        -- exists k, c, r. auto.
Qed.

Lemma extractPaths_chains (created : JsMap.t JsValue) (obj : JsValue) :
  UniqueKeys obj ->
  forall currentPath : string,
  exists chains : list (list string),
    NoDup chains
    /\ (forall keys, In keys chains <-> Leaf obj keys)
    /\ Forall2 (SnapshotAt created obj currentPath) chains
               (PathManager.extractPaths created obj currentPath).
Proof.
  induction obj as [| | | | |items IH|props IH] using JsValue_nested_ind;
    intros Hu currentPath.
  1-5: (exists []; split; [constructor | split; [| constructor]];
        intros keys; split; [intros [] |];
        intros (props & v & Hr & _); inversion Hr as [| ? ? ? ? ? Hin _]; subst;
        destruct Hin).
  - inversion Hu as [v0 Hnd Hch]; subst v0.
    destruct (extractEntries_chains created (JArray items) currentPath
                (childEntries (JArray items)) Hnd (fun _ _ H => H))
      as (chains & Hn & Hin & Hf).
    { intros key child Hkc. rewrite Forall_forall in IH.
      apply IH; [apply (proj1 (indexedFrom_In _ _ _ _ Hkc)) | apply (Hch key child Hkc)]. }
    exists chains. rewrite extractPaths_step. cbn [List.app].
    split; [exact Hn | split; [| exact Hf]].
    intros [|key rest].
    + rewrite Hin, Leaf_nil. split.
      * intros (k & c & r & E & _). discriminate.
      * intros (props & v & E & _). discriminate.
    + rewrite Hin, Leaf_cons. split.
      * intros (k & c & r & E & H). injection E as <- <-. exists c. exact H.
      * intros (c & H). exists key, c, rest. split; [reflexivity | exact H].
  - inversion Hu as [v0 Hnd Hch]; subst v0.
    destruct (extractEntries_chains created (JObject props) currentPath
                (childEntries (JObject props)) Hnd (fun _ _ H => H))
      as (chains & Hn & Hin & Hf).
    { intros key child Hkc. rewrite Forall_forall in IH.
      apply (IH (key, child) Hkc). apply (Hch key child Hkc). }
    assert (Hnil : ~ In [] chains).
    { intros H. apply Hin in H as (k & c & r & E & _). discriminate. }
    rewrite extractPaths_step.
    destruct (Js.lookup props "value") as [v|] eqn:Hv.
    + exists ([] :: chains). split; [constructor; assumption | split].
      * intros [|key rest].
        -- rewrite Leaf_nil. split; [intros _; exists props, v; auto | intros _; left; reflexivity].
        -- cbn [In]. rewrite Hin, Leaf_cons. split.
           ++ intros [E | (k & c & r & E & H)]; [discriminate |].
              injection E as <- <-. exists c. exact H.
           ++ intros (c & H). right. exists key, c, rest. split; [reflexivity | exact H].
      * cbn [List.app]. constructor; [| exact Hf].
        exists props, v. split; [constructor | split; [exact Hv | reflexivity]].
    + exists chains. split; [exact Hn | split; [| exact Hf]].
      intros [|key rest].
      * rewrite Leaf_nil. split; [intros H; contradiction |].
        intros (props' & v & E & Hv'). injection E as <-. congruence.
      * rewrite Hin, Leaf_cons. split.
        -- intros (k & c & r & E & H). injection E as <- <-. exists c. exact H.
        -- intros (c & H). exists key, c, rest. split; [reflexivity | exact H].
Qed.

(** X1.  What [extractPaths] lists.  A snapshot is listed exactly when it
    is that of an object with a [value] key that can be reached from the root
    through objects and arrays by keys that are neither skipped properties
    nor [value]; its path is the chain of keys joined with dots after
    [currentPath], and its fields are those of that object.  In a tree where
    no object has two properties of the same name, a chain of keys leads to
    one node at most, and the list returned holds exactly one snapshot for
    each such chain: it is, snapshot by snapshot, the image of a list without
    repetition of all those chains. *)
Theorem extractPaths_lists_reachable_leaves :
  forall (created : JsMap.t JsValue) (obj : JsValue) (currentPath : string),
    (forall i : PathInfo,
        In i (PathManager.extractPaths created obj currentPath)
        <-> exists (keys : list string) (props : list (string * JsValue)) (v : JsValue),
            Reach obj keys (JObject props)
            /\ Forall (fun key => PathManager.skipKey key = false) keys
            /\ Js.lookup props "value" = Some v
            /\ i = leafSnapshot created (joinPath currentPath keys) props v)
    /\ (UniqueKeys obj ->
        (forall (keys : list string) (n1 n2 : JsValue),
            Reach obj keys n1 -> Reach obj keys n2 -> n1 = n2)
        /\ exists chains : list (list string),
            NoDup chains
            /\ (forall keys, In keys chains <-> Leaf obj keys)
            /\ Forall2 (SnapshotAt created obj currentPath) chains
                       (PathManager.extractPaths created obj currentPath)).
Proof.
  intros created obj currentPath. split.
  - intros i. apply extractPaths_In.
  - intros Hu. split.
    + intros keys n1 n2. apply Reach_functional. exact Hu.
    + apply extractPaths_chains. exact Hu.
Qed.

Lemma withCustomMeta_empty (p : string) (m : JsValue) :
  PathManager.withCustomMeta JsMap.empty p m = m.
Proof. reflexivity. Qed.

Lemma extractEntries_registry (created : JsMap.t JsValue) (currentPath : string)
    (entries : list (string * JsValue)) :
  Forall (fun kv => forall cp,
              PathManager.extractPaths created (snd kv) cp
              = map (applyRegistry created)
                    (PathManager.extractPaths JsMap.empty (snd kv) cp)) entries ->
  extractEntries created currentPath entries
  = map (applyRegistry created) (extractEntries JsMap.empty currentPath entries).
Proof.
  induction 1 as [|[key child] entries Hc _ IH]; [reflexivity|].
  cbn [extractEntries]. rewrite map_app, IH. f_equal.
  destruct (PathManager.skipKey key); [reflexivity|].
  destruct (isContainer child); [apply Hc | reflexivity].
Qed.

Lemma extractPaths_registry (created : JsMap.t JsValue) (obj : JsValue) (currentPath : string) :
  PathManager.extractPaths created obj currentPath
  = map (applyRegistry created) (PathManager.extractPaths JsMap.empty obj currentPath).
Proof.
  revert currentPath.
  induction obj as [| | | | |items IH|props IH] using JsValue_nested_ind;
    intros currentPath; try reflexivity.
  - rewrite !extractPaths_array. apply extractEntries_registry.
    assert (H : forall n, Forall (fun kv => forall cp,
                  PathManager.extractPaths created (snd kv) cp
                  = map (applyRegistry created)
                        (PathManager.extractPaths JsMap.empty (snd kv) cp))
                (JsArray.indexedFrom n items)).
    { induction IH as [|x l Hx _ IHl]; intros n; constructor; auto. }
    apply H.
  - rewrite !extractPaths_object, map_app. f_equal.
    + destruct (Js.lookup props "value"); reflexivity.
    + now apply extractEntries_registry.
Qed.

Lemma sort_map {A B : Type} (cmpA : A -> A -> Z) (cmpB : B -> B -> Z) (f : A -> B)
    (l : list A) :
  (forall a a', cmpB (f a) (f a') = cmpA a a') ->
  JsArray.sort cmpB (map f l) = map f (JsArray.sort cmpA l).
Proof.
  intros H. induction l as [|x l IH]; [reflexivity|].
  cbn [map JsArray.sort fold_right]. fold (JsArray.sort cmpB (map f l)).
  fold (JsArray.sort cmpA l). rewrite IH.
  generalize (JsArray.sort cmpA l) as s. intros s.
  induction s as [|y s IHs]; [reflexivity|].
  cbn [map JsArray.insert]. rewrite H.
  destruct (cmpA x y <=? 0)%Z; [reflexivity|].
  cbn [map]. now rewrite IHs.
Qed.

Lemma collectPaths_registry (app : ServerAPI) (pm : PathManager.t) (w : World) :
  PathManager.collectPaths app pm w
  = map (applyRegistry (PathManager.createdPaths pm))
        (PathManager.collectPaths app (PathManager.create app) w).
Proof.
  unfold PathManager.collectPaths, PathManager.fetchPathsFromAPI.
  cbn [PathManager.createdPaths PathManager.create].
  destruct (if app_hasGetPath app then _ else _) as [vesselData0|e].
  - set (vesselData := if Js.truthy vesselData0 then vesselData0 else _).
    destruct (Js.truthy vesselData && Js.typeofObject vesselData).
    + rewrite (extractPaths_registry (PathManager.createdPaths pm) vesselData "").
      rewrite length_map.
      destruct (List.length _ =? 0)%nat; [|reflexivity].
      destruct (app_fetchVesselsSelf app w); [|reflexivity].
      rewrite map_app. f_equal. apply extractPaths_registry.
    + cbn [List.length Nat.eqb List.app map].
      destruct (app_fetchVesselsSelf app w); [|reflexivity].
      apply extractPaths_registry.
  - destruct (app_fetchVesselsSelf app w); [|reflexivity].
    cbn [List.app]. apply extractPaths_registry.
Qed.

Lemma getAllPaths_applyRegistry {C : Collation} (app : ServerAPI) (pm : PathManager.t)
    (w : World) :
  PathManager.getAllPaths app pm w None
  = map (applyRegistry (PathManager.createdPaths pm))
        (PathManager.getAllPaths app (PathManager.create app) w None).
Proof.
  unfold PathManager.getAllPaths. rewrite collectPaths_registry.
  apply sort_map. reflexivity.
Qed.

(** X2.  The created-paths registry changes nothing in the listing but
    the metadata: the unfiltered listing of a manager is the listing a new
    manager would return, snapshot by snapshot in the same order, with the
    registry's metadata for each path merged into its [meta].  The paths,
    values, timestamps and sources listed do not depend on the registry. *)
Theorem getAllPaths_registry_only_changes_meta :
  forall (C : Collation) (app : ServerAPI) (pm : PathManager.t) (w : World),
    PathManager.getAllPaths app pm w None
    = map (applyRegistry (PathManager.createdPaths pm))
          (PathManager.getAllPaths app (PathManager.create app) w None)
    /\ map (fun i => (pi_path i, pi_value i, pi_timestamp i, pi_source i))
           (PathManager.getAllPaths app pm w None)
       = map (fun i => (pi_path i, pi_value i, pi_timestamp i, pi_source i))
             (PathManager.getAllPaths app (PathManager.create app) w None).
Proof.
  intros C app pm w.
  split; [apply getAllPaths_applyRegistry|].
  rewrite getAllPaths_applyRegistry, map_map. reflexivity.
Qed.

(* ===================================================================== *)
(** ** Reading one path, and the registry's metadata *)
(* ===================================================================== *)

Ltac break_match_goal :=
  match goal with
  | |- context [match ?x with _ => _ end] => destruct x eqn:?
  end.

(** X3.  [getPath] answers not-found exactly when the host's
    [getSelfPath] returns [undefined].  A [null] node is not not-found: it
    makes [getPath] reject with the TypeError of ['value' in null]; an
    exception of the host is passed on.  A snapshot returned bears the path
    asked for, and its value is the node's [value] property when the node is
    an object that has one, and the node itself otherwise. *)
Theorem getPath_not_found_and_value :
  forall (app : ServerAPI) (pm : PathManager.t) (w : World) (path : string),
    (PathManager.getPath app pm w path = Fulfilled None
     <-> app_getSelfPath app w path = Ok JUndefined)
    /\ (app_getSelfPath app w path = Ok JNull ->
        PathManager.getPath app pm w path
        = Rejected (ThrownError "Cannot use 'in' operator to search for 'value' in null"))
    /\ (forall e : Thrown,
           app_getSelfPath app w path = Throw e ->
           PathManager.getPath app pm w path = Rejected e)
    /\ (forall i : PathInfo,
           PathManager.getPath app pm w path = Fulfilled (Some i) ->
           pi_path i = path
           /\ exists data : JsValue,
               app_getSelfPath app w path = Ok data
               /\ data <> JUndefined /\ data <> JNull
               /\ pi_value i
                  = match data with
                    | JObject props =>
                        match Js.lookup props "value" with
                        | Some v => v
                        | None => data
                        end
                    | _ => data
                    end).
Proof.
  intros app pm w path. unfold PathManager.getPath.
  destruct (app_getSelfPath app w path) as [data|e] eqn:Hread.
  - split; [|split; [|split]].
    + destruct data; cbn; repeat break_match_goal; split; intros H;
        solve [reflexivity | discriminate H].
    + intros H. injection H as ->. reflexivity.
    + intros e H. discriminate H.
    + intros i. destruct data as [| |b|q|s|items|props];
        try destruct (Js.lookup props "value") as [v|] eqn:Hv;
        cbn; try rewrite Hv; cbn;
        destruct (app_getSelfPath app w (path ++ ".meta")); intros H;
        try discriminate H; injection H as <-;
          (split; [reflexivity|]); eexists; (split; [reflexivity|]);
            repeat split; try rewrite Hv; solve [discriminate | reflexivity].
  - split; [|split; [|split]].
    + split; intros H; discriminate H.
    + intros H. discriminate H.
    + intros e' H. now injection H as ->.
    + intros i H. discriminate H.
Qed.

Lemma lookup_is_get (l : list (string * JsValue)) (k : string) :
  Js.lookup l k = JsMap.get l k.
Proof. induction l as [|[k' v] l IH]; simpl; [reflexivity | now rewrite IH]. Qed.

Lemma lookup_app (l1 l2 : list (string * JsValue)) (k : string) :
  Js.lookup (l1 ++ l2) k
  = match Js.lookup l1 k with
    | Some v => Some v
    | None => Js.lookup l2 k
    end.
Proof.
  induction l1 as [|[k' v] l1 IH]; simpl; [reflexivity|].
  destruct (String.eqb k' k); [reflexivity | exact IH].
Qed.

Lemma lookup_None_iff (l : list (string * JsValue)) (k : string) :
  Js.lookup l k = None <-> ~ In k (map fst l).
Proof. rewrite lookup_is_get. apply JsMap_get_None_iff. Qed.

Lemma lookup_rev_NoDup (l : list (string * JsValue)) (k : string) :
  NoDup (map fst l) -> Js.lookup (rev l) k = Js.lookup l k.
Proof.
  induction l as [|[k' v] l IH]; [reflexivity|].
  cbn [map fst rev]. intros H. inversion H as [|? ? Hk Hl]; subst.
  rewrite lookup_app, IH by exact Hl. cbn [Js.lookup].
  destruct (String.eqb_spec k' k) as [->|N].
  - apply lookup_None_iff in Hk. now rewrite Hk.
  - now destruct (Js.lookup l k).
Qed.

Lemma fold_set_lookup (l acc : list (string * JsValue)) (k : string) :
  Js.lookup (fold_left (fun a kv => JsMap.set a (fst kv) (snd kv)) l acc) k
  = match Js.lookup (rev l) k with
    | Some v => Some v
    | None => Js.lookup acc k
    end.
Proof.
  revert acc. induction l as [|[k' v] l IH]; intros acc; [reflexivity|].
  cbn [fold_left fst snd rev]. rewrite IH, lookup_app. cbn [Js.lookup].
  destruct (Js.lookup (rev l) k); [reflexivity|].
  rewrite !lookup_is_get.
  destruct (String.eqb_spec k' k) as [->|N].
  - apply JsMap_get_set_same.
  - apply JsMap_get_set_other. congruence.
Qed.

Lemma withCustomMeta_registry_wins (created : JsMap.t JsValue) (p : string)
    (m : JsValue) (cm : list (string * JsValue)) (k : string) (v : JsValue) :
  JsMap.get created p = Some (JObject cm) ->
  NoDup (map fst cm) ->
  Js.lookup cm k = Some v ->
  Js.prop (PathManager.withCustomMeta created p m) k = v.
Proof.
  intros Hget Hnd Hk. unfold PathManager.withCustomMeta. rewrite Hget.
  cbn [Js.truthy PathManager.spread Js.prop].
  rewrite fold_set_lookup, rev_app_distr, lookup_app.
  cbn [PathManager.ownEntries]. now rewrite (lookup_rev_NoDup cm k Hnd), Hk.
Qed.

(** X4.  Create, then read: after [createPath(path, value, meta)] with a
    metadata object, every snapshot of [path] that [getPath] or the listing
    returns, in whatever state the tree is, shows each property of [meta]
    with the value given at creation; the registry wins over the tree's own
    metadata. *)
Theorem createPath_then_read_shows_metadata :
  forall (C : Collation) (app : ServerAPI) (pm : PathManager.t) (w : World)
         (now nowMeta : Timestamp) (path : string) (value : JsValue)
         (meta : list (string * JsValue)),
    NoDup (map fst meta) ->
    let pm' := fst (fst (PathManager.createPath app pm w now nowMeta path value
                           (JObject meta))) in
    forall (w' : World) (k : string) (v : JsValue),
      Js.lookup meta k = Some v ->
      (forall i : PathInfo,
          PathManager.getPath app pm' w' path = Fulfilled (Some i) ->
          Js.prop (pi_meta i) k = v)
      /\ (forall i : PathInfo,
             In i (PathManager.getAllPaths app pm' w' None) ->
             pi_path i = path ->
             Js.prop (pi_meta i) k = v).
Proof.
  intros C app pm w now nowMeta path value meta Hnd pm' w' k v Hk.
  assert (Hget : JsMap.get (PathManager.createdPaths pm') path = Some (JObject meta)).
  { unfold pm'. rewrite createPath_registry. cbn [Js.truthy]. apply JsMap_get_set_same. }
  split.
  - intros i. unfold PathManager.getPath.
    destruct (app_getSelfPath app w' path) as [data|e]; [|discriminate].
    destruct (Js.isUndefined data); [discriminate|].
    destruct (if Js.typeofObject data then _ else _) as [x|e]; [|discriminate].
    destruct (app_getSelfPath app w' (path ++ ".meta")) as [metaPath|e]; [|discriminate].
    intros H. injection H as <-. cbn [pi_meta].
    eapply withCustomMeta_registry_wins; eauto.
  - intros i Hin Hp.
    rewrite getAllPaths_applyRegistry in Hin.
    apply in_map_iff in Hin. destruct Hin as [i0 [<- _]].
    cbn [applyRegistry pi_meta pi_path] in *. rewrite Hp.
    eapply withCustomMeta_registry_wins; eauto.
Qed.

Lemma createPath_then_read_shows_metadata_witness :
  let app := SampleHost.tableApp SampleTree.tanksTable in
  let path := "tanks.fuel.0.currentLevel" in
  let meta := [("units", JString "m3"); ("description", JString "simulated tank")] in
  let pm' := fst (fst (PathManager.createPath app (PathManager.create app) emptyWorld
                         "2025-12-13T10:00:00.000Z" "2025-12-13T10:00:00.001Z"
                         path (JNumber (1 # 2)) (JObject meta))) in
  NoDup (map fst meta)
  /\ Js.lookup meta "units" = Some (JString "m3")
  /\ forall i : PathInfo,
      In i (@PathManager.getAllPaths codeOrder app pm' emptyWorld None) ->
      pi_path i = path ->
      Js.prop (pi_meta i) "units" = JString "m3".
Proof.
  intros app path meta pm'.
  assert (Hnd : NoDup (map fst meta)).
  { repeat constructor; simpl; intuition discriminate. }
  split; [exact Hnd | split; [reflexivity|]].
  apply (proj2 (createPath_then_read_shows_metadata codeOrder app (PathManager.create app)
                  emptyWorld "2025-12-13T10:00:00.000Z" "2025-12-13T10:00:00.001Z"
                  path (JNumber (1 # 2)) meta Hnd emptyWorld "units" (JString "m3")
                  eq_refl)).
Defined.

(* ===================================================================== *)
(** ** More on the created-paths registry *)
(* ===================================================================== *)

Lemma lastMeta_snoc (calls : list CreateCall) (c : CreateCall) (p : string) :
  lastMeta (calls ++ [c]) p
  = if String.eqb (cc_path c) p && Js.truthy (cc_meta c)
    then Some (cc_meta c) else lastMeta calls p.
Proof. unfold lastMeta. now rewrite fold_left_app. Qed.

(** X5.  After any sequence of [createPath] calls on a new manager,
    [getCreatedPaths()] lists no path twice, and the metadata the registry
    holds for a path is the one given by the last call that created this
    path with metadata (none if there was no such call). *)
Theorem createdPaths_latest_metadata :
  forall (app : ServerAPI) (w : World) (calls : list CreateCall),
    let pm := fst (runCreate app w calls) in
    NoDup (PathManager.getCreatedPaths pm)
    /\ forall p : string, JsMap.get (PathManager.createdPaths pm) p = lastMeta calls p.
Proof.
  intros app w calls. cbv zeta. unfold PathManager.getCreatedPaths.
  induction calls as [|c calls [IHn IHg]] using rev_ind.
  - split; [constructor | reflexivity].
  - rewrite runCreate_snoc, stepCreate_registry.
    destruct (Js.truthy (cc_meta c)) eqn:Hm.
    + split.
      * rewrite JsMap_keys_set.
        destruct (JsMap.has _ (cc_path c)) eqn:Hhas; [exact IHn|].
        apply NoDup_app_iff_tail. split; [exact IHn|].
        apply JsMap_get_None_iff. now apply JsMap_has_false_iff.
      * intros p. rewrite lastMeta_snoc, Hm, andb_true_r.
        destruct (String.eqb_spec (cc_path c) p) as [<-|N].
        -- apply JsMap_get_set_same.
        -- rewrite JsMap_get_set_other by congruence. apply IHg.
    + split; [exact IHn|].
      intros p. rewrite lastMeta_snoc, Hm, andb_false_r. apply IHg.
Qed.

(** X6.  [createPath] is not atomic.  When the host refuses the value
    delta, the call is rejected with the host's error and the world is left
    as it was, yet a path given with metadata is already in the registry.
    When the value delta is accepted it is on the bus with one 500 ms
    verification timer, also if the metadata delta that follows is refused.
    When both are accepted the bus has gained exactly the value delta and
    then the metadata delta, the latter labelled ["whatif-helper"]. *)
Theorem createPath_partial_effects :
  forall (app : ServerAPI) (pm : PathManager.t) (w : World) (now nowMeta : Timestamp)
         (path : string) (value meta : JsValue),
    let vd := valueDelta app pm w now path value in
    let md := metaDelta pm nowMeta path meta in
    let w1 := mkWorld (bus w ++ [(PLUGIN_ID, vd)])%list (putHandlers w) (nextHandle w)
                      (timers w ++ [mkTimer 500 path])%list in
    let r := PathManager.createPath app pm w now nowMeta path value meta in
    (forall e : Thrown,
        app_handleMessage app w PLUGIN_ID vd = Throw e ->
        snd (fst r) = w /\ snd r = Rejected e
        /\ (Js.truthy meta = true -> PathManager.isCreatedPath (fst (fst r)) path = true))
    /\ (app_handleMessage app w PLUGIN_ID vd = Ok tt ->
        (Js.truthy meta = false -> r = (pm, w1, Fulfilled tt))
        /\ (Js.truthy meta = true ->
            (forall e : Thrown,
                app_handleMessage app w1 PLUGIN_ID md = Throw e ->
                snd (fst r) = w1 /\ snd r = Rejected e)
            /\ (app_handleMessage app w1 PLUGIN_ID md = Ok tt ->
                snd r = Fulfilled tt
                /\ bus (snd (fst r)) = (bus w ++ [(PLUGIN_ID, vd); (PLUGIN_ID, md)])%list
                /\ timers (snd (fst r)) = (timers w ++ [mkTimer 500 path])%list
                /\ putHandlers (snd (fst r)) = putHandlers w))).
Proof.
  intros app pm w now nowMeta path value meta vd md w1 r.
  assert (Hctx : PathManager.selfContext
                   (if Js.truthy meta
                    then PathManager.mk (JsMap.set (PathManager.createdPaths pm) path meta)
                                        (PathManager.selfContext pm)
                    else pm) = PathManager.selfContext pm)
    by (destruct (Js.truthy meta); reflexivity).
  subst r. unfold PathManager.createPath, PathManager.setValue, hostHandleMessage.
  rewrite Hctx. fold (valueDelta app pm w now path value). fold vd.
  split.
  - intros e He. rewrite He. cbn [fst snd]. repeat split.
    intros Hm. rewrite Hm. unfold PathManager.isCreatedPath, JsMap.has.
    cbn [PathManager.createdPaths]. now rewrite JsMap_get_set_same.
  - intros Hv. rewrite Hv. cbn [setTimeout bus putHandlers nextHandle timers].
    fold w1. split.
    + intros Hm. now rewrite Hm.
    + intros Hm. rewrite Hm. cbn [PathManager.selfContext].
      fold (metaDelta pm nowMeta path meta). fold md. split.
      * intros e He. change (setTimeout _ _) with w1. rewrite He. split; reflexivity.
      * intros Hmd. change (setTimeout _ _) with w1. rewrite Hmd. cbn [fst snd bus timers putHandlers].
        repeat split. unfold w1. cbn [bus]. now rewrite <- app_assoc.
Qed.

Lemma createPath_partial_effects_witness :
  let app := SampleHost.refusingApp [] "delta rejected" in
  let pm := PathManager.create app in
  let r := PathManager.createPath app pm emptyWorld
             "2025-12-13T10:00:00.000Z" "2025-12-13T10:00:00.001Z"
             "tanks.fuel.virtual.currentLevel" (JNumber (3 # 4))
             (JObject [("units", JString "ratio")]) in
  snd (fst r) = emptyWorld
  /\ snd r = Rejected (ThrownError "delta rejected")
  /\ PathManager.isCreatedPath (fst (fst r)) "tanks.fuel.virtual.currentLevel" = true.
Proof.
  intros app pm r.
  destruct (proj1 (createPath_partial_effects app pm emptyWorld
                     "2025-12-13T10:00:00.000Z" "2025-12-13T10:00:00.001Z"
                     "tanks.fuel.virtual.currentLevel" (JNumber (3 # 4))
                     (JObject [("units", JString "ratio")]))
                  (ThrownError "delta rejected") eq_refl) as (Hw & Hr & Hc).
  split; [exact Hw | split; [exact Hr | apply Hc; reflexivity]].
Defined.

(* ===================================================================== *)
(** ** More on the PUT handlers *)
(* ===================================================================== *)

Lemma JsMap_delete_set_absent {V : Type} (m : JsMap.t V) (k : string) (v : V) :
  JsMap.get m k = None -> JsMap.delete (JsMap.set m k v) k = m.
Proof.
  intros H. rewrite (JsMap_set_absent m k v H). unfold JsMap.delete.
  rewrite filter_app. cbn [filter fst]. rewrite String.eqb_refl. cbn [negb].
  rewrite app_nil_r. apply JsMap_delete_absent. exact H.
Qed.

(** X7.  Register, then unregister: for a path that has no interceptor,
    a [registerHandler] that succeeds appends its registration to
    [getHandlers()], and the [unregisterHandler] that follows returns [true]
    and puts the manager and the host's interceptors back exactly as they
    were before the registration. *)
Theorem register_then_unregister_restores :
  forall (app : ServerAPI) (b : list (string * Delta)) (n : nat) (t : list Timer)
         (calls : list PutCall) (now : Timestamp) (p : string) (options : PutOptions)
         (m1 : PutHandlerManager.t) (w1 : World),
    let m := fst (runPut app (freshWorld b n t) calls) in
    let w := snd (runPut app (freshWorld b n t) calls) in
    PutHandlerManager.hasPutHandler m p = false ->
    PutHandlerManager.registerHandler app m w now p options = Ok (m1, w1) ->
    PutHandlerManager.getHandlers m1
    = (PutHandlerManager.getHandlers m
       ++ [mkPutHandlerInfo p now (PutHandlerManager.acceptAllSourcesOrFalse options)])%list
    /\ PutHandlerManager.unregisterHandler m1 w1 p
       = (m, mkWorld (bus w) (putHandlers w) (S (nextHandle w)) (timers w), true).
Proof.
  intros app b n t calls now p options m1 w1 m w Hhas Hreg.
  pose proof (PutInvariant_run app b n t calls) as I. fold m w in I.
  unfold PutHandlerManager.hasPutHandler in Hhas.
  unfold PutHandlerManager.registerHandler, hostRegisterPutHandler in Hreg.
  rewrite Hhas in Hreg.
  destruct (app_registerPutHandler app w _ _ _); [|discriminate].
  injection Hreg as <- <-.
  apply JsMap_has_false_iff in Hhas.
  assert (Hun : JsMap.get (PutHandlerManager.unregisterFunctions m) p = None).
  { apply (JsMap_get_same_keys _ _ p (inv_keys _ _ I)). exact Hhas. }
  split.
  - unfold PutHandlerManager.getHandlers, JsMap.values.
    cbn [PutHandlerManager.handlers]. rewrite (JsMap_set_absent _ _ _ Hhas).
    now rewrite map_app.
  - unfold PutHandlerManager.unregisterHandler.
    cbn [PutHandlerManager.unregisterFunctions PutHandlerManager.handlers].
    rewrite JsMap_get_set_same.
    rewrite (JsMap_delete_set_absent _ _ _ Hhas), (JsMap_delete_set_absent _ _ _ Hun).
    unfold callUnregister. cbn [bus putHandlers nextHandle timers].
    rewrite filter_app. cbn [filter reg_handle]. rewrite Nat.eqb_refl. cbn [negb].
    rewrite app_nil_r.
    rewrite (filter_all_true _ (putHandlers w)).
    + destruct m. reflexivity.
    + intros r Hr. pose proof (inv_fresh _ _ I) as If.
      rewrite Forall_forall in If. specialize (If r Hr).
      destruct (Nat.eqb_spec (reg_handle r) (nextHandle w)); [lia | reflexivity].
Qed.

Lemma register_then_unregister_restores_witness :
  let app := SampleHost.tableApp [] in
  let calls := [CallRegister "2025-12-13T10:00:00.000Z" "tanks.fuel.0.currentLevel"
                             (mkPutOptions (Some true))] in
  let m := fst (runPut app (freshWorld [] 0 []) calls) in
  let w := snd (runPut app (freshWorld [] 0 []) calls) in
  exists (m1 : PutHandlerManager.t) (w1 : World),
    PutHandlerManager.hasPutHandler m SampleHost.sog = false
    /\ PutHandlerManager.registerHandler app m w "2025-12-13T10:05:00.000Z" SampleHost.sog
         (mkPutOptions None) = Ok (m1, w1)
    /\ PutHandlerManager.unregisterHandler m1 w1 SampleHost.sog
       = (m, mkWorld (bus w) (putHandlers w) (S (nextHandle w)) (timers w), true).
Proof.
  intros app calls m w. eexists _, _.
  split; [reflexivity | split; [reflexivity|]].
  apply (proj2 (register_then_unregister_restores app [] 0 [] calls
                  "2025-12-13T10:05:00.000Z" SampleHost.sog (mkPutOptions None)
                  _ _ eq_refl eq_refl)).
Defined.

Lemma installedAsStored_step (app : ServerAPI) (st : PutHandlerManager.t * World)
    (c : PutCall) :
  PutInvariant (fst st) (snd st) ->
  Forall (installedAsStored (fst st)) (putHandlers (snd st)) ->
  Forall (installedAsStored (fst (stepPut app st c))) (putHandlers (snd (stepPut app st c))).
Proof.
  destruct st as [m w]. cbn [fst snd]. intros I H.
  pose proof (PutInvariant_paths _ _ I) as Hpaths.
  destruct c as [now path options|path|]; cbn [stepPut fst snd].
  - unfold PutHandlerManager.registerHandler, hostRegisterPutHandler.
    destruct (JsMap.has (PutHandlerManager.handlers m) path) eqn:Hhas; [exact H|].
    destruct (app_registerPutHandler app w _ _ _); [|exact H].
    cbn [fst snd putHandlers].
    apply JsMap_has_false_iff in Hhas.
    apply Forall_app. split.
    + rewrite Forall_forall in *. intros r Hr.
      destruct (H r Hr) as (Hc & info & Hg & Hp & Hs).
      split; [exact Hc|]. exists info. repeat split; auto.
      unfold PutHandlerManager.getHandler in *. cbn [PutHandlerManager.handlers].
      rewrite JsMap_get_set_other; [exact Hg|].
      intros E. apply JsMap_get_None_iff in Hhas. apply Hhas.
      rewrite <- Hpaths, <- E. now apply in_map.
    + constructor; [|constructor].
      split; [reflexivity|]. eexists. unfold PutHandlerManager.getHandler.
      cbn [PutHandlerManager.handlers reg_path reg_source].
      rewrite JsMap_get_set_same. split; [reflexivity | split; [reflexivity|]].
      unfold PutHandlerManager.acceptedSource, PutHandlerManager.acceptAllSourcesOrFalse.
      cbn [hi_acceptAllSources]. now destruct (opt_acceptAllSources options) as [[]|].
  - unfold PutHandlerManager.unregisterHandler.
    destruct (JsMap.get (PutHandlerManager.unregisterFunctions m) path) as [h|] eqn:Hget;
      [|exact H].
    cbn [fst snd]. rewrite (callUnregister_removes_path m w path h I Hget).
    rewrite Forall_forall in *. intros r Hr. apply filter_In in Hr.
    destruct Hr as [Hr Hne].
    destruct (H r Hr) as (Hc & info & Hg & Hp & Hs).
    split; [exact Hc|]. exists info. repeat split; auto.
    unfold PutHandlerManager.getHandler in *. cbn [PutHandlerManager.handlers].
    rewrite JsMap_get_delete_other; [exact Hg|].
    intros E. rewrite E, String.eqb_refl in Hne. discriminate.
  - rewrite (unregisterAll_loop _ _ I). constructor.
Qed.

(** X8.  After any sequence of [registerHandler], [unregisterHandler]
    and [unregisterAll] calls on a new manager, every interceptor the host
    holds was installed for the context ["vessels.self"], is described by
    the entry [getHandler] returns for its path, and accepts every source
    exactly when that entry says [acceptAllSources], the source
    ["whatif-helper"] only otherwise; the interceptors are held in the order
    in which [getHandlers()] lists them. *)
Theorem installed_interceptors_match_registrations :
  forall (app : ServerAPI) (b : list (string * Delta)) (n : nat) (t : list Timer)
         (calls : list PutCall),
    let m := fst (runPut app (freshWorld b n t) calls) in
    let w := snd (runPut app (freshWorld b n t) calls) in
    Forall (installedAsStored m) (putHandlers w)
    /\ map reg_path (putHandlers w) = map hi_path (PutHandlerManager.getHandlers m).
Proof.
  intros app b n t calls m w.
  pose proof (PutInvariant_run app b n t calls) as I. fold m w in I.
  split.
  - subst m w. unfold runPut.
    assert (H : forall st,
               PutInvariant (fst st) (snd st) ->
               Forall (installedAsStored (fst st)) (putHandlers (snd st)) ->
               Forall (installedAsStored (fst (fold_left (stepPut app) calls st)))
                      (putHandlers (snd (fold_left (stepPut app) calls st)))).
    { clear I. induction calls as [|c calls IH]; intros st I H; [exact H|].
      cbn [fold_left]. apply IH.
      - now apply PutInvariant_step.
      - now apply installedAsStored_step. }
    apply H; [apply PutInvariant_create | constructor].
  - rewrite (handlers_paths _ _ I). apply (PutInvariant_paths _ _ I).
Qed.

(** X9.  What an installed PUT handler can report, for any callback:
    what it does to the world and the promise it drops are those of
    [setValue]; it never reports [PENDING]; it reports [FAILED]/500 only
    when the callback itself threw on the [COMPLETED] result, with that
    exception's message; it throws only when the callback threw on both
    results; a result it returns is the last one the callback was given,
    and the callback is called twice at most. *)
Theorem put_handler_outcomes :
  forall (app : ServerAPI) (pm : PathManager.t) (w : World) (now : Timestamp)
         (context putPath : string) (value : JsValue) (callback : option PutCallback),
    let out := PutHandlerManager.handler app pm w now context putPath value callback in
    po_world out = fst (PathManager.setValue app pm w now putPath value None)
    /\ po_promise out = snd (PathManager.setValue app pm w now putPath value None)
    /\ List.length (po_callbackCalls out) <= 2
    /\ match po_returned out with
       | Ok r =>
           pr_state r <> PENDING
           /\ (r = completed200
               \/ exists (cb : PutCallback) (e : Thrown),
                   callback = Some cb
                   /\ cb completed200 = Throw e
                   /\ r = failed500 (PutHandlerManager.errorMessage e))
           /\ (callback = None \/ last (po_callbackCalls out) completed200 = r)
       | Throw e' =>
           exists (cb : PutCallback) (e : Thrown),
             callback = Some cb
             /\ cb completed200 = Throw e
             /\ cb (failed500 (PutHandlerManager.errorMessage e)) = Throw e'
       end.
Proof.
  intros app pm w now context putPath value callback.
  unfold PutHandlerManager.handler.
  destruct (PathManager.setValue app pm w now putPath value None) as [w1 promise].
  fold completed200.
  destruct callback as [cb|]; cbn.
  - destruct (cb completed200) as [u|e] eqn:E1; cbn.
    + repeat split; auto; try discriminate.
    + fold (failed500 (PutHandlerManager.errorMessage e)).
      destruct (cb (failed500 (PutHandlerManager.errorMessage e))) as [u|e'] eqn:E2; cbn.
      * repeat split; auto; try discriminate. right. eauto.
      * repeat split; auto. eauto.
  - repeat split; auto; discriminate.
Qed.

(* ===================================================================== *)
(** ** More on the live updates *)
(* ===================================================================== *)

Lemma JsSet_delete_In (s : JsSet.t) (x y : string) :
  In y (JsSet.delete s x) <-> In y s /\ y <> x.
Proof.
  unfold JsSet.delete. rewrite filter_In.
  destruct (String.eqb_spec x y) as [->|N]; cbn; split; intros [H1 H2]; split; auto;
    congruence.
Qed.

Lemma JsSet_delete_all_In (paths : list string) (s : JsSet.t) (y : string) :
  In y (fold_left JsSet.delete paths s) <-> In y s /\ ~ In y paths.
Proof.
  revert s. induction paths as [|p paths IH]; intros s; cbn [fold_left].
  - cbn. tauto.
  - rewrite IH, JsSet_delete_In. cbn [In]. split.
    + intros [[H1 H2] H3]. split; [exact H1|]. intros [E|H]; [congruence | tauto].
    + intros [H1 H2]. split; [split; [exact H1|] |].
      * intros E. apply H2. left. congruence.
      * intros H. apply H2. now right.
Qed.

Lemma JsSet_delete_all_NoDup (paths : list string) (s : JsSet.t) :
  NoDup s -> NoDup (fold_left JsSet.delete paths s).
Proof.
  revert s. induction paths as [|p paths IH]; intros s H; cbn [fold_left]; [exact H|].
  apply IH. unfold JsSet.delete. now apply NoDup_filter.
Qed.

Lemma unsubscribe_subscriptions {C : Collation} (app : ServerAPI) (pm : PathManager.t)
    (w : World) (client : WhatIfClient) (message : WSMessage) :
  msg_type message = "unsubscribe" ->
  WebSocketServer.handleMessage app pm w client message
  = (WebSocketServer.withSubscriptions client
       (fold_left JsSet.delete (namedPaths message) (subscriptions client)),
     None).
Proof.
  intros Ht. unfold WebSocketServer.handleMessage, namedPaths. rewrite Ht.
  change (String.eqb "unsubscribe" "subscribe") with false.
  change (String.eqb "unsubscribe" "unsubscribe") with true. cbv iota.
  destruct (msg_paths message); [reflexivity|].
  destruct (msg_path message) as [p|]; [|reflexivity].
  destruct (JsString.nonEmpty p); reflexivity.
Qed.

(** X10.  What the control messages other than ['subscribe'] do.  An
    ['unsubscribe'] removes from the observer's set exactly the paths it
    names and sends nothing; an ['unsubscribeAll'] empties the set and
    sends nothing; a message of any other type leaves the set as it is and
    is answered, on an open socket, by the one error message
    ["Unknown message type: "] followed by the type.  None of them starts a
    snapshot. *)
Theorem control_messages_effect :
  forall (C : Collation) (app : ServerAPI) (pm : PathManager.t) (w : World)
         (client : WhatIfClient) (message : WSMessage),
    msg_type message <> "subscribe" ->
    let client' := fst (WebSocketServer.handleMessage app pm w client message) in
    snd (WebSocketServer.handleMessage app pm w client message) = None
    /\ ws_readyState client' = ws_readyState client
    /\ client_id client' = client_id client
    /\ (msg_type message = "unsubscribe" ->
        ws_sent client' = ws_sent client
        /\ forall x, In x (subscriptions client')
                     <-> In x (subscriptions client) /\ ~ In x (namedPaths message))
    /\ (msg_type message = "unsubscribeAll" ->
        ws_sent client' = ws_sent client /\ subscriptions client' = [])
    /\ (msg_type message <> "unsubscribe" -> msg_type message <> "unsubscribeAll" ->
        subscriptions client' = subscriptions client
        /\ ws_sent client'
           = if WebSocketServer.isOpen (ws_readyState client)
             then (ws_sent client
                   ++ [WSError ("Unknown message type: " ++ msg_type message)])%list
             else ws_sent client).
Proof.
  intros C app pm w client message Hns client'. subst client'.
  destruct (String.eqb_spec (msg_type message) "unsubscribe") as [Eu|Nu].
  - rewrite (unsubscribe_subscriptions app pm w client message Eu).
    cbn [fst snd WebSocketServer.withSubscriptions ws_readyState client_id ws_sent
             subscriptions].
    split; [reflexivity|]. split; [reflexivity|]. split; [reflexivity|].
    split; [intros _; split; [reflexivity | intros x; apply JsSet_delete_all_In]|].
    split; [intros Ea; rewrite Eu in Ea; discriminate Ea|].
    intros N. contradiction.
  - unfold WebSocketServer.handleMessage.
    destruct (String.eqb_spec (msg_type message) "subscribe") as [E|_]; [contradiction|].
    destruct (String.eqb_spec (msg_type message) "unsubscribe") as [E|_]; [contradiction|].
    destruct (String.eqb_spec (msg_type message) "unsubscribeAll") as [Ea|Na].
    + cbn [fst snd WebSocketServer.withSubscriptions ws_readyState client_id ws_sent
               subscriptions JsSet.clear].
      split; [reflexivity|]. split; [reflexivity|]. split; [reflexivity|].
      split; [intros E; contradiction|].
      split; [intros _; split; reflexivity|].
      intros _ N. contradiction.
    + cbn [fst snd]. unfold WebSocketServer.sendError, WebSocketServer.send.
      split; [reflexivity|].
      split; [destruct (WebSocketServer.isOpen (ws_readyState client)); reflexivity|].
      split; [destruct (WebSocketServer.isOpen (ws_readyState client)); reflexivity|].
      split; [intros E; contradiction|].
      split; [intros E; contradiction|].
      intros _ _.
      destruct (WebSocketServer.isOpen (ws_readyState client)); split; reflexivity.
Qed.

Lemma control_messages_effect_witness :
  let app := SampleHost.tableApp [] in
  let pm := PathManager.create app in
  let client := mkClient OPEN [WSFull []] "client-1" ["a.b"; "c.d"; "*"] in
  let message := mkWSMessage "unsubscribe" (Some ["c.d"; "x.y"]) None in
  let client' := fst (@WebSocketServer.handleMessage codeOrder app pm emptyWorld
                        client message) in
  msg_type message <> "subscribe"
  /\ msg_type message = "unsubscribe"
  /\ ws_sent client' = ws_sent client
  /\ (In "a.b" (subscriptions client') /\ ~ In "c.d" (subscriptions client')).
Proof.
  intros app pm client message client'.
  assert (Hns : msg_type message <> "subscribe") by discriminate.
  destruct (control_messages_effect codeOrder app pm emptyWorld client message Hns)
    as (_ & _ & _ & Hu & _).
  destruct (Hu eq_refl) as [Hsent Hin].
  split; [exact Hns | split; [reflexivity | split; [exact Hsent|]]].
  split.
  - apply Hin. split; [now left|]. cbn. intuition discriminate.
  - intros H. apply Hin in H. destruct H as [_ H]. apply H. now left.
Defined.

Lemma clientIdOf_inj (a b : nat) : clientIdOf a = clientIdOf b -> a = b.
Proof.
  unfold clientIdOf. intros H. cbn in H. injection H as H.
  apply (f_equal DecimalString.NilEmpty.uint_of_string) in H.
  rewrite !DecimalString.NilEmpty.usu in H. injection H as H.
  apply (f_equal Nat.of_uint) in H.
  now rewrite !DecimalNat.Unsigned.of_to in H.
Qed.

Lemma sendCurrentValues_fields {C : Collation} (app : ServerAPI) (pm : PathManager.t)
    (w : World) (client : WhatIfClient) :
  client_id (fst (WebSocketServer.sendCurrentValues app pm w client)) = client_id client
  /\ subscriptions (fst (WebSocketServer.sendCurrentValues app pm w client))
     = subscriptions client.
Proof.
  unfold WebSocketServer.sendCurrentValues.
  destruct (if JsSet.has _ "*" then _ else _); cbn [fst]; [|split; reflexivity].
  destruct (send_fields client (WSFull a)) as (H1 & H2 & _). now split.
Qed.

Lemma handleMessage_fields {C : Collation} (app : ServerAPI) (pm : PathManager.t)
    (w : World) (client : WhatIfClient) (message : WSMessage) :
  client_id (fst (WebSocketServer.handleMessage app pm w client message)) = client_id client
  /\ (NoDup (subscriptions client) ->
      NoDup (subscriptions (fst (WebSocketServer.handleMessage app pm w client message)))).
Proof.
  destruct (String.eqb_spec (msg_type message) "subscribe") as [Es|Ns].
  - split.
    + unfold WebSocketServer.handleMessage. rewrite Es.
      change (String.eqb "subscribe" "subscribe") with true. cbv iota.
      set (subs := match msg_paths message with Some _ => _ | None => _ end).
      destruct (WebSocketServer.callSendCurrentValues app pm w
                  (WebSocketServer.withSubscriptions client subs)) as [c' call] eqn:E.
      cbn [fst].
      pose proof (callSendCurrentValues_fields app pm w
                    (WebSocketServer.withSubscriptions client subs)) as [H _].
      rewrite E in H. exact H.
    + intros Hnd. rewrite (subscribe_subscriptions app pm w client message Es).
      now apply JsSet_add_all_NoDup.
  - destruct (String.eqb_spec (msg_type message) "unsubscribe") as [Eu|Nu].
    + rewrite (unsubscribe_subscriptions app pm w client message Eu).
      cbn [fst WebSocketServer.withSubscriptions client_id subscriptions].
      split; [reflexivity|]. intros Hnd. now apply JsSet_delete_all_NoDup.
    + unfold WebSocketServer.handleMessage.
      destruct (String.eqb_spec (msg_type message) "subscribe") as [E|_]; [contradiction|].
      destruct (String.eqb_spec (msg_type message) "unsubscribe") as [E|_]; [contradiction|].
      destruct (String.eqb (msg_type message) "unsubscribeAll"); cbn [fst].
      * split; [reflexivity | intros _; constructor].
      * unfold WebSocketServer.sendError.
        destruct (send_fields client
                    (WSError ("Unknown message type: " ++ msg_type message)))
          as (H1 & H2 & _).
        rewrite H1, H2. split; [reflexivity | auto].
Qed.

Lemma connections_snoc (events : list WsEvent) (ev : WsEvent) :
  connections (events ++ [ev])
  = connections events + match ev with EvConnection _ => 1 | _ => 0 end.
Proof.
  unfold connections. rewrite filter_app, length_app.
  destruct ev; reflexivity.
Qed.

(** X11.  After any sequence of connections, closes, client messages
    and bus deltas on a new server, the connected clients have pairwise
    distinct ids, each of the form ["client-k"] with [k] between 1 and the
    number of connections accepted so far (which is what the counter
    holds), and no subscription set holds a path twice. *)
Theorem clients_have_distinct_ids :
  forall (C : Collation) (app : ServerAPI) (pm : PathManager.t) (events : list WsEvent),
    let srv := runWs app pm events in
    WebSocketServer.clientIdCounter srv = connections events
    /\ NoDup (map client_id (WebSocketServer.clients srv))
    /\ Forall (fun client =>
                 NoDup (subscriptions client)
                 /\ exists k : nat,
                     1 <= k <= connections events /\ client_id client = clientIdOf k)
              (WebSocketServer.clients srv).
Proof.
  intros C app pm events. cbv zeta. unfold runWs.
  induction events as [|ev events (Hc & Hn & Hf)] using rev_ind.
  - repeat split; constructor.
  - rewrite fold_left_app. cbn [fold_left]. rewrite connections_snoc.
    set (srv := fold_left (stepWs app pm) events newServer) in *.
    destruct ev as [rs|id|w id message|delta]; cbn [stepWs].
    + unfold WebSocketServer.onConnection. cbn [WebSocketServer.clientIdCounter
                                                  WebSocketServer.clients].
      fold (clientIdOf (S (WebSocketServer.clientIdCounter srv))).
      set (fresh := mkClient rs [] (clientIdOf (S (WebSocketServer.clientIdCounter srv)))
                             JsSet.empty).
      destruct (send_fields fresh (WSFull [])) as (Hid & Hsubs & _).
      split; [lia | split].
      * rewrite map_app. cbn [map]. rewrite Hid. cbn [fresh client_id].
        apply NoDup_app_iff_tail. split; [exact Hn|].
        intros Hin. apply in_map_iff in Hin. destruct Hin as [c [E Hin]].
        rewrite Forall_forall in Hf. destruct (Hf c Hin) as (_ & k & Hk & Ek).
        rewrite Ek in E. apply clientIdOf_inj in E. lia.
      * apply Forall_app. split.
        -- eapply Forall_impl; [|exact Hf]. cbv beta.
           intros c (H1 & k & Hk & Ek). split; [exact H1|]. exists k. split; [lia | exact Ek].
        -- constructor; [|constructor]. rewrite Hid, Hsubs. cbn [fresh subscriptions client_id].
           split; [constructor|]. exists (S (WebSocketServer.clientIdCounter srv)).
           split; [lia | reflexivity].
    + unfold WebSocketServer.onClose. cbn [WebSocketServer.clientIdCounter
                                             WebSocketServer.clients].
      split; [lia | split].
      * now apply NoDup_map_filter.
      * rewrite Forall_forall in *. intros c Hin. apply filter_In in Hin.
        destruct (Hf c (proj1 Hin)) as (H1 & k & Hk & Ek).
        split; [exact H1|]. exists k. split; [lia | exact Ek].
    + unfold onMessage. cbn [WebSocketServer.clientIdCounter WebSocketServer.clients].
      split; [lia | split].
      * rewrite map_map.
        rewrite (map_ext _ client_id); [exact Hn|].
        intros c. destruct (String.eqb (client_id c) id); [|reflexivity].
        apply handleMessage_fields.
      * rewrite Forall_forall in *. intros c' Hin. apply in_map_iff in Hin.
        destruct Hin as [c [<- Hin]].
        destruct (Hf c Hin) as (H1 & k & Hk & Ek).
        destruct (String.eqb (client_id c) id).
        -- destruct (handleMessage_fields app pm w c message) as [Hid Hnd].
           split; [now apply Hnd|]. exists k. rewrite Hid. split; [lia | exact Ek].
        -- split; [exact H1|]. exists k. split; [lia | exact Ek].
    + assert (Hd : WebSocketServer.clientIdCounter (WebSocketServer.handleDelta srv delta)
                   = WebSocketServer.clientIdCounter srv
                   /\ exists f : WhatIfClient -> WhatIfClient,
                       WebSocketServer.clients (WebSocketServer.handleDelta srv delta)
                       = map f (WebSocketServer.clients srv)
                       /\ forall c, client_id (f c) = client_id c
                                    /\ subscriptions (f c) = subscriptions c).
      { unfold WebSocketServer.handleDelta.
        destruct delta as [d|]; [|split; [reflexivity|]; exists (fun c => c);
                                   split; [now rewrite map_id | auto]].
        destruct (d_path d) as [path|]; [|split; [reflexivity|]; exists (fun c => c);
                                           split; [now rewrite map_id | auto]].
        destruct (negb (JsString.nonEmpty path));
          [split; [reflexivity|]; exists (fun c => c); split; [now rewrite map_id | auto]|].
        split; [reflexivity|]. eexists. split; [reflexivity|].
        intros c. cbv beta.
        destruct (JsSet.has (subscriptions c) path || JsSet.has (subscriptions c) "*");
          [|auto].
        destruct (send_fields c (WSUpdatePath
                    (mkPathInfo path (d_value d) (d_timestamp d)
                       (Js.or (d_dollarSource d) (Js.optProp (d_source d) "label"))
                       JUndefined))) as (H1 & H2 & _).
        auto. }
      destruct Hd as (Hcount & f & Hclients & Hfields).
      rewrite Hcount, Hclients. split; [lia | split].
      * rewrite map_map. rewrite (map_ext _ client_id); [exact Hn|].
        intros c. apply Hfields.
      * rewrite Forall_forall in *. intros c' Hin. apply in_map_iff in Hin.
        destruct Hin as [c [<- Hin]].
        destruct (Hf c Hin) as (H1 & k & Hk & Ek).
        destruct (Hfields c) as [Hi Hs]. rewrite Hi, Hs.
        split; [exact H1|]. exists k. split; [lia | exact Ek].
Qed.

Lemma filter_map_commute {A : Type} (f : A -> A) (P : A -> bool) (l : list A) :
  (forall x, P (f x) = P x) ->
  filter P (map f l) = map f (filter P l).
Proof.
  intros H. induction l as [|x l IH]; [reflexivity|].
  cbn [map filter]. rewrite H. destruct (P x); cbn [map]; now rewrite IH.
Qed.

(** X12.  Closing a socket removes every client with that id and no
    other, and it commutes with the delivery of a delta: the remaining
    clients are sent the same updates whether the close is handled before
    the delta or after it. *)
Theorem close_commutes_with_delta :
  forall (srv : WebSocketServer.t) (id : string) (delta : option BusDelta),
    WebSocketServer.handleDelta (WebSocketServer.onClose srv id) delta
    = WebSocketServer.onClose (WebSocketServer.handleDelta srv delta) id
    /\ ~ In id (map client_id (WebSocketServer.clients (WebSocketServer.onClose srv id)))
    /\ (forall client : WhatIfClient,
           In client (WebSocketServer.clients srv) -> client_id client <> id ->
           In client (WebSocketServer.clients (WebSocketServer.onClose srv id))).
Proof.
  intros srv id delta. split; [|split].
  - unfold WebSocketServer.handleDelta, WebSocketServer.onClose.
    destruct delta as [d|]; [|reflexivity].
    destruct (d_path d) as [path|]; [|reflexivity].
    destruct (negb (JsString.nonEmpty path)); [reflexivity|].
    cbn [WebSocketServer.clients WebSocketServer.clientIdCounter]. f_equal.
    symmetry. apply filter_map_commute. intros c.
    destruct (JsSet.has (subscriptions c) path || JsSet.has (subscriptions c) "*");
      [|reflexivity].
    now rewrite (proj1 (send_fields c _)).
  - cbn. intros H. apply in_map_iff in H. destruct H as [c [E H]].
    apply filter_In in H. destruct H as [_ H]. rewrite E, String.eqb_refl in H.
    discriminate H.
  - intros client Hin Hne. cbn. apply filter_In. split; [exact Hin|].
    destruct (String.eqb_spec (client_id client) id); [contradiction | reflexivity].
Qed.

Lemma close_commutes_with_delta_witness :
  let alice := mkClient OPEN [] "client-1" ["a.b"] in
  let bob := mkClient OPEN [] "client-2" ["*"] in
  let srv := WebSocketServer.mk [alice; bob] 2 in
  In alice (WebSocketServer.clients srv)
  /\ client_id alice <> "client-2"
  /\ In alice (WebSocketServer.clients (WebSocketServer.onClose srv "client-2")).
Proof.
  intros alice bob srv.
  assert (Hin : In alice (WebSocketServer.clients srv)) by (left; reflexivity).
  assert (Hne : client_id alice <> "client-2") by discriminate.
  split; [exact Hin | split; [exact Hne|]].
  apply (proj2 (proj2 (close_commutes_with_delta srv "client-2" None)) alice Hin Hne).
Defined.

(** X13.  How the snapshot after a ['subscribe'] can fail.  With the
    wildcard in the set, [sendCurrentValues] completes whatever the host
    does.  Without it, the subscribed paths are read in the order of the
    set; at the first read that is rejected nothing is sent, the client is
    left as it was, and the promise is rejected with that error. *)
Theorem sendCurrentValues_failure :
  forall (C : Collation) (app : ServerAPI) (pm : PathManager.t) (w : World)
         (client : WhatIfClient),
    (In "*" (subscriptions client) ->
     snd (WebSocketServer.sendCurrentValues app pm w client) = Fulfilled tt)
    /\ (~ In "*" (subscriptions client) ->
        forall (before : list string) (path : string) (after : list string) (e : Thrown),
          subscriptions client = (before ++ path :: after)%list ->
          (forall p, In p before -> exists r, PathManager.getPath app pm w p = Fulfilled r) ->
          PathManager.getPath app pm w path = Rejected e ->
          WebSocketServer.sendCurrentValues app pm w client = (client, Rejected e)).
Proof.
  intros C app pm w client. unfold WebSocketServer.sendCurrentValues. split.
  - intros Hstar. apply JsSet_has_true_iff in Hstar. now rewrite Hstar.
  - intros Hstar before path after e Hsubs Hbefore Hpath.
    apply JsSet_has_false_iff in Hstar. rewrite Hstar, Hsubs.
    assert (H : WebSocketServer.readSubscribed app pm w (before ++ path :: after)
                = Rejected e).
    { clear Hsubs. induction before as [|p before IH]; cbn [List.app WebSocketServer.readSubscribed].
      - now rewrite Hpath.
      - destruct (Hbefore p (or_introl eq_refl)) as [r Hr]. rewrite Hr.
        rewrite IH; [reflexivity|]. intros q Hq. apply Hbefore. now right. }
    now rewrite H.
Qed.

Lemma sendCurrentValues_failure_witness :
  let app := SampleHost.tableApp [("x.y", JObject [("value", JNumber (1 # 1))]);
                                  ("broken", JNull)] in
  let pm := PathManager.create app in
  let client := mkClient OPEN [WSFull []] "client-1" ["x.y"; "broken"; "z"] in
  ~ In "*" (subscriptions client)
  /\ @WebSocketServer.sendCurrentValues codeOrder app pm emptyWorld client
     = (client,
        Rejected (ThrownError "Cannot use 'in' operator to search for 'value' in null")).
Proof.
  intros app pm client.
  assert (Hstar : ~ In "*" (subscriptions client)).
  { cbn. intuition discriminate. }
  split; [exact Hstar|].
  apply (proj2 (sendCurrentValues_failure codeOrder app pm emptyWorld client) Hstar
               ["x.y"] "broken" ["z"]).
  - reflexivity.
  - intros p [<-|[]]. eexists. reflexivity.
  - reflexivity.
Defined.

(* ===================================================================== *)
(** ** The path pattern of [POST /paths] *)
(* ===================================================================== *)

Lemma append_nil_r (s : string) : (s ++ "")%string = s.
Proof. induction s; simpl; congruence. Qed.

Lemma append_assoc (a b c : string) : ((a ++ b) ++ c)%string = (a ++ (b ++ c))%string.
Proof. induction a; simpl; congruence. Qed.

Lemma append_eq_nil (a b : string) : (a ++ b)%string = "" -> a = "" /\ b = "".
Proof. destruct a; simpl; [auto | discriminate]. Qed.

Lemma Matches_nullable (r : RegExp.t) :
  RegExp.Matches r "" <-> RegExp.nullable r = true.
Proof.
  split.
  - intros H. remember ""%string as s eqn:Hs.
    induction H; simpl; try reflexivity; try discriminate.
    + apply append_eq_nil in Hs as [-> ->].
      rewrite IHMatches1, IHMatches2; reflexivity.
    + rewrite IHMatches by assumption. reflexivity.
    + rewrite IHMatches by assumption. apply orb_true_r.
  - induction r; simpl; intros H; try discriminate.
    + constructor.
    + apply andb_prop in H as [H1 H2].
      change ""%string with (("" ++ "")%string). constructor; auto.
    + apply orb_prop in H as [H | H].
      * apply RegExp.MAltL; auto.
      * apply RegExp.MAltR; auto.
    + constructor.
Qed.

Lemma Matches_deriv_sound (c : ascii) (r : RegExp.t) :
  forall s, RegExp.Matches (RegExp.deriv c r) s -> RegExp.Matches r (String c s).
Proof.
  induction r; simpl; intros s H.
  - inversion H.
  - inversion H.
  - destruct (RegExp.inClass ranges c) eqn:Hc; inversion H; subst.
    constructor; assumption.
  - assert (Hseq : forall t, RegExp.Matches (RegExp.Seq (RegExp.deriv c r1) r2) t ->
                             RegExp.Matches (RegExp.Seq r1 r2) (String c t)).
    { intros t Ht. inversion Ht; subst.
      change (String c (s1 ++ s2)) with ((String c s1 ++ s2)%string).
      constructor; auto. }
    destruct (RegExp.nullable r1) eqn:Hn.
    + inversion H; subst.
      * apply Hseq; assumption.
      * change (String c s) with (("" ++ String c s)%string).
        constructor; [apply Matches_nullable; assumption | auto].
    + apply Hseq; assumption.
  - inversion H; subst.
    + apply RegExp.MAltL; auto.
    + apply RegExp.MAltR; auto.
  - inversion H; subst.
    change (String c (s1 ++ s2)) with ((String c s1 ++ s2)%string).
    constructor; auto.
Qed.

Lemma Matches_deriv_complete (c : ascii) (r : RegExp.t) (t : string) :
  RegExp.Matches r t ->
  forall rest, t = String c rest -> RegExp.Matches (RegExp.deriv c r) rest.
Proof.
  induction 1; intros rest Ht; simpl.
  - discriminate.
  - injection Ht as -> <-. rewrite H. constructor.
  - destruct s1 as [|c1 s1'].
    + simpl in Ht. subst s2.
      assert (Hn : RegExp.nullable r1 = true) by (apply Matches_nullable; assumption).
      rewrite Hn. apply RegExp.MAltR. auto.
    + simpl in Ht. injection Ht as -> <-.
      assert (Hs : RegExp.Matches (RegExp.Seq (RegExp.deriv c r1) r2) (s1' ++ s2)).
      { constructor; auto. }
      destruct (RegExp.nullable r1); [apply RegExp.MAltL|]; assumption.
  - apply RegExp.MAltL; auto.
  - apply RegExp.MAltR; auto.
  - discriminate.
  - destruct s1 as [|c1 s1'].
    + simpl in Ht. apply (IHMatches2 rest Ht).
    + simpl in Ht. injection Ht as -> <-.
      constructor; auto.
Qed.

(** the matcher decides the denotation *)
Lemma test_Matches (s : string) :
  forall r, RegExp.test r s = true <-> RegExp.Matches r s.
Proof.
  induction s as [|c s IH]; intros r; simpl.
  - symmetry. apply Matches_nullable.
  - rewrite IH. split.
    + apply Matches_deriv_sound.
    + intros H. apply (Matches_deriv_complete c r _ H s eq_refl).
Qed.

Lemma Matches_star_class (ranges : list (ascii * ascii)) (s : string) :
  RegExp.Matches (RegExp.Star (RegExp.Class ranges)) s
  <-> allChars (RegExp.inClass ranges) s = true.
Proof.
  split.
  - intros H. remember (RegExp.Star (RegExp.Class ranges)) as r eqn:Hr.
    induction H; try discriminate.
    + reflexivity.
    + injection Hr as ->.
      inversion H as [| ? c Hc | | | | |]; subst. simpl.
      rewrite Hc. apply IHMatches2. reflexivity.
  - induction s as [|c s IH]; simpl; intros H.
    + constructor.
    + apply andb_prop in H as [Hc Hs].
      change (String c s) with ((String c "" ++ s)%string).
      constructor; [constructor; assumption | auto].
Qed.

Lemma allChars_ext (f g : ascii -> bool) (s : string) :
  (forall c, f c = g c) -> allChars f s = allChars g s.
Proof. intros E. induction s; simpl; [reflexivity | rewrite E, IHs; reflexivity]. Qed.

Lemma allChars_impl (f g : ascii -> bool) (s : string) :
  (forall c, f c = true -> g c = true) -> allChars f s = true -> allChars g s = true.
Proof.
  intros E. induction s; simpl; [reflexivity |].
  intros H. apply andb_prop in H as [H1 H2]. rewrite (E _ H1). auto.
Qed.

Lemma allChars_app (f : ascii -> bool) (a b : string) :
  allChars f (a ++ b) = allChars f a && allChars f b.
Proof. induction a; simpl; [reflexivity | rewrite IHa, andb_assoc; reflexivity]. Qed.

Lemma inClass_letter (c : ascii) :
  RegExp.inClass [("a"%char, "z"%char); ("A"%char, "Z"%char)] c = isLetter c.
Proof.
  unfold RegExp.inClass, RegExp.inRange, isLetter. cbn [existsb fst snd].
  change (nat_of_ascii "a") with 97. change (nat_of_ascii "z") with 122.
  change (nat_of_ascii "A") with 65. change (nat_of_ascii "Z") with 90.
  rewrite orb_false_r. apply orb_comm.
Qed.

Lemma inClass_digit (c : ascii) :
  RegExp.inClass [("0"%char, "9"%char)] c = isDigit c.
Proof.
  unfold RegExp.inClass, RegExp.inRange, isDigit. cbn [existsb fst snd].
  change (nat_of_ascii "0") with 48. change (nat_of_ascii "9") with 57.
  apply orb_false_r.
Qed.

Lemma inClass_alnum (c : ascii) :
  RegExp.inClass [("a"%char, "z"%char); ("A"%char, "Z"%char); ("0"%char, "9"%char)] c
  = isLetter c || isDigit c.
Proof.
  unfold RegExp.inClass, RegExp.inRange, isLetter, isDigit. cbn [existsb fst snd].
  change (nat_of_ascii "a") with 97. change (nat_of_ascii "z") with 122.
  change (nat_of_ascii "A") with 65. change (nat_of_ascii "Z") with 90.
  change (nat_of_ascii "0") with 48. change (nat_of_ascii "9") with 57.
  rewrite orb_false_r, orb_assoc. f_equal. apply orb_comm.
Qed.

Lemma inClass_dot (c : ascii) :
  RegExp.inClass [("."%char, "."%char)] c = Ascii.eqb c ".".
Proof.
  unfold RegExp.inClass, RegExp.inRange. cbn [existsb fst snd].
  change (nat_of_ascii ".") with 46. rewrite orb_false_r.
  destruct (Ascii.eqb_spec c ".") as [-> | Hne].
  - reflexivity.
  - apply andb_false_iff.
    destruct (Nat.leb 46 (nat_of_ascii c)) eqn:H1; [right | left; reflexivity].
    destruct (Nat.leb (nat_of_ascii c) 46) eqn:H2; [exfalso | reflexivity].
    apply Nat.leb_le in H1, H2. apply Hne.
    rewrite <- (ascii_nat_embedding c).
    replace (nat_of_ascii c) with 46 by lia. reflexivity.
Qed.

Lemma alnum_not_dot (c : ascii) :
  isLetter c || isDigit c = true -> Ascii.eqb c "." = false.
Proof.
  intros H. destruct (Ascii.eqb_spec c ".") as [-> | Hne]; [| reflexivity].
  vm_compute in H. discriminate.
Qed.

(** the first alternative: a letter, then letters and digits; the
    second: one or more digits *)
Lemma Matches_segmentPattern (s : string) :
  RegExp.Matches Routes.segmentPattern s <-> validSegment s = true.
Proof.
  unfold Routes.segmentPattern, RegExp.plus. split.
  - intros H. inversion H as [| | | ? ? ? H1 | ? ? ? H1 | |]; subst.
    + inversion H1 as [| | ? ? ? ? Ha Hb | | | |]; subst.
      inversion Ha as [| ? c Hc | | | | |]; subst. apply Matches_star_class in Hb.
      simpl. rewrite <- inClass_letter, Hc. simpl.
      rewrite (allChars_ext _ _ _ (fun c => eq_sym (inClass_alnum c))), Hb. reflexivity.
    + inversion H1 as [| | ? ? ? ? Ha Hb | | | |]; subst.
      inversion Ha as [| ? c Hc | | | | |]; subst. apply Matches_star_class in Hb.
      simpl. rewrite <- inClass_digit, Hc. simpl.
      rewrite (allChars_ext _ _ _ (fun c => eq_sym (inClass_digit c))), Hb.
      apply orb_true_r.
  - destruct s as [|c r]; simpl; [discriminate |].
    intros H. apply orb_prop in H as [H | H]; apply andb_prop in H as [Hc Hr].
    + apply RegExp.MAltL.
      change (String c r) with ((String c "" ++ r)%string). constructor.
      * constructor. rewrite inClass_letter. assumption.
      * apply Matches_star_class.
        rewrite (allChars_ext _ _ _ inClass_alnum). assumption.
    + apply RegExp.MAltR.
      change (String c r) with ((String c "" ++ r)%string). constructor.
      * constructor. rewrite inClass_digit. assumption.
      * apply Matches_star_class.
        rewrite (allChars_ext _ _ _ inClass_digit). assumption.
Qed.

Lemma isLetter_alnum (c : ascii) : isLetter c = true -> isLetter c || isDigit c = true.
Proof. intros ->. reflexivity. Qed.

Lemma isDigit_alnum (c : ascii) : isDigit c = true -> isLetter c || isDigit c = true.
Proof. intros ->. apply orb_true_r. Qed.

Lemma validSegment_alnum (s : string) :
  validSegment s = true -> allChars (fun c => isLetter c || isDigit c) s = true.
Proof.
  destruct s as [|c r]; simpl; [discriminate |].
  intros H. apply orb_prop in H as [H | H]; apply andb_prop in H as [Hc Hr].
  - rewrite Hc, Hr. reflexivity.
  - rewrite Hc, orb_true_r. simpl.
    apply (allChars_impl isDigit); [apply isDigit_alnum | assumption].
Qed.

Lemma validSegment_noDot (s : string) : validSegment s = true -> noDot s = true.
Proof.
  intros H. apply validSegment_alnum in H. unfold noDot.
  apply (allChars_impl (fun c => isLetter c || isDigit c)); [| assumption].
  intros c Hc. rewrite (alnum_not_dot c Hc). reflexivity.
Qed.

Lemma segments_not_nil (s : string) : segments s <> [].
Proof.
  induction s as [|c r IH]; simpl; [discriminate |].
  destruct (Ascii.eqb c "."); [discriminate |].
  destruct (segments r); discriminate.
Qed.

Lemma segments_noDot (s : string) : noDot s = true -> segments s = [s].
Proof.
  unfold noDot. induction s as [|c r IH]; simpl; [reflexivity |].
  intros H. apply andb_prop in H as [Hc Hr].
  destruct (Ascii.eqb c "."); [discriminate |].
  rewrite (IH Hr). reflexivity.
Qed.

Lemma segments_app_dot (a b : string) :
  noDot a = true -> segments (a ++ String "." b) = a :: segments b.
Proof.
  unfold noDot. induction a as [|c r IH]; simpl; [reflexivity |].
  intros H. apply andb_prop in H as [Hc Hr].
  destruct (Ascii.eqb c "."); [discriminate |].
  rewrite (IH Hr). reflexivity.
Qed.

Lemma segments_pieces_noDot (s : string) :
  Forall (fun piece => noDot piece = true) (segments s).
Proof.
  induction s as [|c r IH]; simpl.
  - repeat constructor.
  - destruct (Ascii.eqb c ".") eqn:Hc.
    + constructor; [reflexivity | assumption].
    + destruct (segments r) as [|seg segs].
      * constructor; [| constructor]. unfold noDot. simpl. rewrite Hc. reflexivity.
      * inversion IH; subst. constructor; [| assumption].
        unfold noDot in *. simpl. rewrite Hc. assumption.
Qed.

Lemma joinDots_cons (x y : string) (rest : list string) :
  joinDots (x :: y :: rest) = (x ++ String "." (joinDots (y :: rest)))%string.
Proof. reflexivity. Qed.

Lemma joinDots_segments (s : string) : joinDots (segments s) = s.
Proof.
  induction s as [|c r IH]; [reflexivity |].
  cbn [segments].
  pose proof (segments_not_nil r) as Hn.
  destruct (segments r) as [|seg segs] eqn:Hs; [contradiction |].
  destruct (Ascii.eqb_spec c ".") as [-> | Hne].
  - rewrite joinDots_cons, IH. reflexivity.
  - destruct segs as [|seg2 segs].
    + cbn [joinDots] in *. congruence.
    + rewrite joinDots_cons in *. cbn [append]. rewrite IH. reflexivity.
Qed.

Lemma segments_joinDots (pieces : list string) :
  pieces <> [] -> Forall (fun piece => noDot piece = true) pieces ->
  segments (joinDots pieces) = pieces.
Proof.
  induction pieces as [|x rest IH]; intros Hne Hall; [contradiction |].
  inversion Hall as [| ? ? Hx Hrest]; subst.
  destruct rest as [|y rest].
  - simpl. apply segments_noDot. assumption.
  - rewrite joinDots_cons, segments_app_dot by assumption.
    rewrite IH; [reflexivity | discriminate | assumption].
Qed.

Lemma Matches_dotted_tail (t : string) :
  RegExp.Matches
    (RegExp.Star (RegExp.Seq (RegExp.Class [("."%char, "."%char)]) Routes.segmentPattern)) t ->
  forall s1, validSegment s1 = true ->
             forallb validSegment (segments (s1 ++ t)) = true.
Proof.
  intros H.
  remember (RegExp.Star (RegExp.Seq (RegExp.Class [("."%char, "."%char)])
                                    Routes.segmentPattern)) as r eqn:Hr.
  induction H; try discriminate; intros a Ha.
  - rewrite append_nil_r, segments_noDot by (apply validSegment_noDot; assumption).
    simpl. rewrite Ha. reflexivity.
  - injection Hr as ->.
    inversion H as [| | ? ? d u Hd Hs | | | |]; subst.
    inversion Hd as [| ? c Hc | | | | |]; subst.
    rewrite inClass_dot in Hc. apply Ascii.eqb_eq in Hc. subst c.
    apply Matches_segmentPattern in Hs.
    rewrite append_assoc. simpl.
    rewrite segments_app_dot by (apply validSegment_noDot; assumption).
    simpl. rewrite Ha. simpl.
    apply IHMatches2; [reflexivity | assumption].
Qed.

Lemma Matches_joinDots_tail (rest : list string) :
  forallb validSegment rest = true ->
  forall x, exists t,
    joinDots (x :: rest) = (x ++ t)%string /\
    RegExp.Matches
      (RegExp.Star (RegExp.Seq (RegExp.Class [("."%char, "."%char)]) Routes.segmentPattern)) t.
Proof.
  induction rest as [|y rest IH]; intros Hall x.
  - exists ""%string. split; [simpl; symmetry; apply append_nil_r | constructor].
  - simpl in Hall. apply andb_prop in Hall as [Hy Hrest].
    destruct (IH Hrest y) as [t [Ht Hm]].
    exists (((String "." "" ++ y) ++ t)%string). split.
    + rewrite joinDots_cons, Ht. simpl. reflexivity.
    + constructor; [| assumption].
      constructor.
      * constructor. rewrite inClass_dot. reflexivity.
      * apply Matches_segmentPattern. assumption.
Qed.

Lemma Matches_pathPattern (s : string) :
  RegExp.Matches Routes.pathPattern s <-> validPathFormat s = true.
Proof.
  unfold Routes.pathPattern, validPathFormat. split.
  - intros H. inversion H as [| | ? ? a t Ha Ht | | | |]; subst.
    apply Matches_segmentPattern in Ha.
    apply Matches_dotted_tail; assumption.
  - intros H. rewrite <- (joinDots_segments s).
    pose proof (segments_not_nil s) as Hn.
    destruct (segments s) as [|x rest]; [contradiction |].
    simpl in H. apply andb_prop in H as [Hx Hrest].
    destruct (Matches_joinDots_tail rest Hrest x) as [t [-> Hm]].
    constructor; [apply Matches_segmentPattern; assumption | assumption].
Qed.

Lemma test_pathPattern (s : string) :
  RegExp.test Routes.pathPattern s = validPathFormat s.
Proof.
  destruct (validPathFormat s) eqn:Hv.
  - apply test_Matches, Matches_pathPattern. assumption.
  - destruct (RegExp.test Routes.pathPattern s) eqn:Ht; [| reflexivity].
    apply test_Matches, Matches_pathPattern in Ht. congruence.
Qed.

(** X14.  The pattern of [POST /paths] accepts exactly the strings made of
    one or more pieces joined by single dots, each piece being a letter
    followed by letters and digits, or a non-empty run of digits: the
    matcher agrees with the piece-by-piece check, an accepted string is
    the join of its valid pieces, and every join of valid pieces is
    accepted.  So the empty string, a leading, trailing or doubled dot,
    and any character other than an ASCII letter, digit or dot are
    refused. *)
Theorem pathPattern_accepts_dotted_segments :
  (forall s, RegExp.test Routes.pathPattern s = forallb validSegment (segments s))
  /\ (forall s, joinDots (segments s) = s)
  /\ (forall pieces,
        pieces <> [] -> forallb validSegment pieces = true ->
        RegExp.test Routes.pathPattern (joinDots pieces) = true)
  /\ (forall s,
        RegExp.test Routes.pathPattern s = true ->
        s <> ""%string
        /\ allChars (fun c => isLetter c || isDigit c || Ascii.eqb c ".") s = true
        /\ ~ In ""%string (segments s)).
Proof.
  split; [| split; [| split]].
  - intros s. apply test_pathPattern.
  - apply joinDots_segments.
  - intros pieces Hne Hall.
    rewrite test_pathPattern. unfold validPathFormat.
    rewrite segments_joinDots; [assumption | assumption |].
    apply Forall_forall. intros p Hp.
    apply validSegment_noDot.
    rewrite forallb_forall in Hall. auto.
  - intros s Ht. rewrite test_pathPattern in Ht. unfold validPathFormat in Ht.
    rewrite forallb_forall in Ht.
    split; [| split].
    + intros ->. specialize (Ht ""%string (or_introl eq_refl)). discriminate.
    + rewrite <- (joinDots_segments s).
      pose proof (segments_not_nil s) as Hn.
      induction (segments s) as [|x rest IH]; [contradiction |].
      assert (Hx : allChars (fun c => isLetter c || isDigit c || Ascii.eqb c ".") x = true).
      { apply (allChars_impl (fun c => isLetter c || isDigit c)).
        - intros c ->. reflexivity.
        - apply validSegment_alnum, Ht. left. reflexivity. }
      destruct rest as [|y rest]; [exact Hx |].
      rewrite joinDots_cons, allChars_app, Hx.
      cbn [andb allChars]. change (Ascii.eqb "." ".") with true.
      rewrite orb_true_r. cbn [andb].
      apply IH; [| discriminate].
      intros p Hp. apply Ht. right. assumption.
    + intros Hin. specialize (Ht _ Hin). discriminate.
Qed.

(** the pattern on some inputs *)
Lemma pathPattern_accepts_dotted_segments_witness :
  RegExp.test Routes.pathPattern "tanks.fuel.0.currentLevel" = true
  /\ RegExp.test Routes.pathPattern "tanks..fuel" = false
  /\ RegExp.test Routes.pathPattern "0x.a" = false
  /\ RegExp.test Routes.pathPattern (joinDots ["a1"; "22"; "b"]) = true.
Proof.
  split; [reflexivity | split; [reflexivity | split; [reflexivity |]]].
  apply (proj1 (proj2 (proj2 pathPattern_accepts_dotted_segments))).
  - discriminate.
  - reflexivity.
Defined.

(* ===================================================================== *)
(** ** The routes *)
(* ===================================================================== *)

Lemma isUndefined_true_iff (v : JsValue) : Js.isUndefined v = true <-> v = JUndefined.
Proof. destruct v; simpl; split; intros H; congruence. Qed.

Lemma isUndefined_false_iff (v : JsValue) : Js.isUndefined v = false <-> v <> JUndefined.
Proof. destruct v; simpl; split; intros H; congruence. Qed.

Lemma nonEmpty_false_iff (s : string) : JsString.nonEmpty s = false <-> s = ""%string.
Proof. destruct s; simpl; split; intros H; congruence. Qed.

Lemma setValue_interceptors (app : ServerAPI) (pm : PathManager.t) (w : World)
    (now : Timestamp) (path : string) (value : JsValue) (source : option string) :
  putHandlers (fst (PathManager.setValue app pm w now path value source)) = putHandlers w
  /\ nextHandle (fst (PathManager.setValue app pm w now path value source)) = nextHandle w.
Proof.
  unfold PathManager.setValue, hostHandleMessage.
  destruct (app_handleMessage _ _ _ _); split; reflexivity.
Qed.

Lemma createPath_interceptors (app : ServerAPI) (pm : PathManager.t) (w : World)
    (now nowMeta : Timestamp) (path : string) (value meta : JsValue) :
  putHandlers (snd (fst (PathManager.createPath app pm w now nowMeta path value meta)))
  = putHandlers w
  /\ nextHandle (snd (fst (PathManager.createPath app pm w now nowMeta path value meta)))
     = nextHandle w.
Proof.
  unfold PathManager.createPath.
  match goal with
  | |- context [PathManager.setValue app ?pm1 w now path value None] =>
      pose proof (setValue_interceptors app pm1 w now path value None) as [H1 H2];
      destruct (PathManager.setValue app pm1 w now path value None) as [w1 [u|e]]
  end; cbn [fst snd] in *.
  - destruct (Js.truthy meta); [| split; assumption].
    unfold hostHandleMessage. destruct (app_handleMessage _ _ _ _); cbn; split; assumption.
  - split; assumption.
Qed.

Lemma createPath_fulfilled_bus (app : ServerAPI) (pm pm' : PathManager.t) (w w1 : World)
    (now nowMeta : Timestamp) (path : string) (value meta : JsValue) (u : unit) :
  PathManager.createPath app pm w now nowMeta path value meta = (pm', w1, Fulfilled u) ->
  exists rest,
    bus w1 = (bus w ++ (PLUGIN_ID, valueDelta app pm w now path value) :: rest)%list.
Proof.
  assert (Hctx : PathManager.selfContext
                   (if Js.truthy meta
                    then PathManager.mk (JsMap.set (PathManager.createdPaths pm) path meta)
                                        (PathManager.selfContext pm)
                    else pm) = PathManager.selfContext pm)
    by (destruct (Js.truthy meta); reflexivity).
  unfold PathManager.createPath, PathManager.setValue, hostHandleMessage.
  rewrite Hctx. fold (valueDelta app pm w now path value).
  destruct (app_handleMessage app w PLUGIN_ID _); [| intros H; discriminate].
  destruct (Js.truthy meta).
  - destruct (app_handleMessage app _ PLUGIN_ID _); [| intros H; discriminate].
    intros H. injection H as _ <- _. cbn [bus setTimeout].
    eexists. rewrite <- app_assoc. reflexivity.
  - intros H. injection H as _ <- _. cbn [bus setTimeout].
    exists []. reflexivity.
Qed.

Lemma PutInvariant_world (m : PutHandlerManager.t) (w w' : World) :
  PutInvariant m w ->
  putHandlers w' = putHandlers w -> nextHandle w' = nextHandle w ->
  PutInvariant m w'.
Proof.
  intros [Ik Ind Ih If Ihn Ii] Hp Hn.
  constructor; rewrite ?Hp, ?Hn; assumption.
Qed.

Lemma registerHandler_has (app : ServerAPI) (m m' : PutHandlerManager.t) (w w' : World)
    (now : Timestamp) (path : string) (options : PutOptions) :
  PutHandlerManager.registerHandler app m w now path options = Ok (m', w') ->
  PutHandlerManager.hasPutHandler m' path = true.
Proof.
  unfold PutHandlerManager.registerHandler, PutHandlerManager.hasPutHandler.
  destruct (JsMap.has (PutHandlerManager.handlers m) path) eqn:Hhas.
  - intros H. injection H as <- <-. assumption.
  - destruct (hostRegisterPutHandler _ _ _ _ _) as [[w1 h]|e]; [| discriminate].
    intros H. injection H as <- <-. cbn [PutHandlerManager.handlers].
    unfold JsMap.has. rewrite JsMap_get_set_same. reflexivity.
Qed.

Lemma registerHandler_new (app : ServerAPI) (m m' : PutHandlerManager.t) (w w' : World)
    (now : Timestamp) (path : string) (options : PutOptions) :
  PutHandlerManager.hasPutHandler m path = false ->
  PutHandlerManager.registerHandler app m w now path options = Ok (m', w') ->
  PutHandlerManager.getHandler m' path
  = Some (mkPutHandlerInfo path now (PutHandlerManager.acceptAllSourcesOrFalse options))
  /\ w' = mkWorld (bus w)
                  (putHandlers w ++
                     [mkPutRegistration (nextHandle w) "vessels.self" path
                                        (PutHandlerManager.acceptedSource options)])%list
                  (S (nextHandle w)) (timers w).
Proof.
  unfold PutHandlerManager.registerHandler, PutHandlerManager.hasPutHandler,
    PutHandlerManager.getHandler, hostRegisterPutHandler.
  intros ->.
  destruct (app_registerPutHandler _ _ _ _ _); [| discriminate].
  intros H. injection H as <- <-. cbn [PutHandlerManager.handlers].
  rewrite JsMap_get_set_same. split; reflexivity.
Qed.

Lemma registerHandler_throws (app : ServerAPI) (m : PutHandlerManager.t) (w : World)
    (now : Timestamp) (path : string) (options : PutOptions) (e : Thrown) :
  PutHandlerManager.hasPutHandler m path = false ->
  app_registerPutHandler app w "vessels.self" path (PutHandlerManager.acceptedSource options)
  = Throw e ->
  PutHandlerManager.registerHandler app m w now path options = Throw e.
Proof.
  unfold PutHandlerManager.registerHandler, PutHandlerManager.hasPutHandler,
    hostRegisterPutHandler.
  intros -> ->. reflexivity.
Qed.

Lemma plugin_eta (p : Routes.Plugin) :
  Routes.mkPlugin (Routes.pathManager p) (Routes.putHandlerManager p) (Routes.world p) = p.
Proof. destruct p; reflexivity. Qed.

(** what [POST /paths] does with a request that passes the three checks *)
Lemma postPaths_accepted (app : ServerAPI) (p : Routes.Plugin) (now nowMeta nowPut : Timestamp)
    (req : Routes.CreatePathRequest) (path : string) :
  Routes.cr_path req = Some path ->
  path <> ""%string -> Routes.cr_value req <> JUndefined -> validPathFormat path = true ->
  Routes.postPaths app p now nowMeta nowPut req
  = match PathManager.createPath app (Routes.pathManager p) (Routes.world p) now nowMeta
            path (Routes.cr_value req) (Routes.cr_meta req) with
    | (pm', w', Rejected _) =>
        (Routes.mkPlugin pm' (Routes.putHandlerManager p) w',
         Routes.mkResponse 500 (Routes.ErrorBody "Failed to create path"))
    | (pm', w', Fulfilled _) =>
        match Routes.cr_enablePut req with
        | Some true =>
            match PutHandlerManager.registerHandler app (Routes.putHandlerManager p) w' nowPut
                    path (mkPutOptions (Some true)) with
            | Throw _ =>
                (Routes.mkPlugin pm' (Routes.putHandlerManager p) w',
                 Routes.mkResponse 500 (Routes.ErrorBody "Failed to create path"))
            | Ok (m', w'') =>
                (Routes.mkPlugin pm' m' w'',
                 Routes.mkResponse 201
                   (Routes.CreatedBody path (Routes.cr_value req) (Routes.cr_meta req) true))
            end
        | other =>
            (Routes.mkPlugin pm' (Routes.putHandlerManager p) w',
             Routes.mkResponse 201
               (Routes.CreatedBody path (Routes.cr_value req) (Routes.cr_meta req)
                  (match other with Some b => b | None => false end)))
        end
    end.
Proof.
  intros Hp Hne Hv Hf. unfold Routes.postPaths. rewrite Hp.
  apply nonEmpty_true_iff in Hne. apply isUndefined_false_iff in Hv.
  rewrite Hne, Hv, test_pathPattern, Hf. reflexivity.
Qed.

Lemma postPaths_refused (app : ServerAPI) (p : Routes.Plugin) (now nowMeta nowPut : Timestamp)
    (req : Routes.CreatePathRequest) :
  match Routes.cr_path req with
  | None => True
  | Some path =>
      path = ""%string \/ Routes.cr_value req = JUndefined \/ validPathFormat path = false
  end ->
  fst (Routes.postPaths app p now nowMeta nowPut req) = p
  /\ Routes.status (snd (Routes.postPaths app p now nowMeta nowPut req)) = 400.
Proof.
  unfold Routes.postPaths.
  destruct (Routes.cr_path req) as [path|]; [| split; reflexivity].
  destruct (JsString.nonEmpty path) eqn:Hne; [| split; reflexivity].
  destruct (Js.isUndefined (Routes.cr_value req)) eqn:Hv; [split; reflexivity |].
  rewrite test_pathPattern.
  destruct (validPathFormat path) eqn:Hf; [| split; reflexivity].
  apply nonEmpty_true_iff in Hne. apply isUndefined_false_iff in Hv.
  intros [H | [H | H]]; [contradiction | contradiction | discriminate].
Qed.

Lemma postPaths_accepted_status (app : ServerAPI) (p : Routes.Plugin)
    (now nowMeta nowPut : Timestamp) (req : Routes.CreatePathRequest) (path : string) :
  Routes.cr_path req = Some path ->
  path <> ""%string -> Routes.cr_value req <> JUndefined -> validPathFormat path = true ->
  Routes.status (snd (Routes.postPaths app p now nowMeta nowPut req)) = 201
  \/ Routes.status (snd (Routes.postPaths app p now nowMeta nowPut req)) = 500.
Proof.
  intros Hp Hne Hv Hf.
  rewrite (postPaths_accepted app p now nowMeta nowPut req path Hp Hne Hv Hf).
  destruct (PathManager.createPath _ _ _ _ _ _ _ _) as [[pm' w'] [u|e]]; [| right; reflexivity].
  destruct (Routes.cr_enablePut req) as [[|]|]; try (left; reflexivity).
  destruct (PutHandlerManager.registerHandler _ _ _ _ _ _) as [[m' w'']|e];
    [left | right]; reflexivity.
Qed.

(** the three checks of [POST /paths], decided *)
Lemma postPaths_checks (req : Routes.CreatePathRequest) :
  match Routes.cr_path req with
  | None => True
  | Some path =>
      path = ""%string \/ Routes.cr_value req = JUndefined \/ validPathFormat path = false
  end
  \/ exists path,
       Routes.cr_path req = Some path /\ path <> ""%string
       /\ Routes.cr_value req <> JUndefined /\ validPathFormat path = true.
Proof.
  destruct (Routes.cr_path req) as [path|]; [| left; exact I].
  destruct (JsString.nonEmpty path) eqn:Hne.
  2:{ left. left. apply nonEmpty_false_iff. assumption. }
  destruct (Js.isUndefined (Routes.cr_value req)) eqn:Hv.
  { left. right. left. apply isUndefined_true_iff. assumption. }
  destruct (validPathFormat path) eqn:Hf.
  2:{ left. right. right. reflexivity. }
  right. exists path. repeat split; try assumption.
  - apply nonEmpty_true_iff. assumption.
  - apply isUndefined_false_iff. assumption.
Qed.

(** X15.  [POST /paths] answers 400, 201 or 500.  It answers 400 exactly
    when the body has no path or an empty one, no value, or a path that is
    not made of valid dot-separated segments; then neither manager nor the
    host has been touched: nothing is injected, recorded or registered. *)
Theorem postPaths_refusal :
  forall (app : ServerAPI) (p : Routes.Plugin) (now nowMeta nowPut : Timestamp)
         (req : Routes.CreatePathRequest),
    let r := Routes.postPaths app p now nowMeta nowPut req in
    (Routes.status (snd r) = 400 <->
       match Routes.cr_path req with
       | None => True
       | Some path =>
           path = ""%string \/ Routes.cr_value req = JUndefined
           \/ forallb validSegment (segments path) = false
       end)
    /\ (Routes.status (snd r) = 400 -> fst r = p)
    /\ (Routes.status (snd r) = 400 \/ Routes.status (snd r) = 201
        \/ Routes.status (snd r) = 500).
Proof.
  intros app p now nowMeta nowPut req r. subst r.
  fold (validPathFormat).
  destruct (postPaths_checks req) as [Hbad | [path [Hp [Hne [Hv Hf]]]]].
  - destruct (postPaths_refused app p now nowMeta nowPut req Hbad) as [Hst H400].
    split; [| split].
    + split; [intros _; exact Hbad | intros _; exact H400].
    + intros _. exact Hst.
    + left. exact H400.
  - pose proof (postPaths_accepted_status app p now nowMeta nowPut req path Hp Hne Hv Hf) as Hs.
    split; [| split].
    + split.
      * intros H. destruct Hs as [Hs | Hs]; rewrite Hs in H; discriminate.
      * rewrite Hp. intros [H | [H | H]]; [contradiction | contradiction |].
        unfold validPathFormat in Hf. congruence.
    + intros H. destruct Hs as [Hs | Hs]; rewrite Hs in H; discriminate.
    + right. destruct Hs as [Hs | Hs]; [left | right]; exact Hs.
Qed.

Lemma postPaths_refusal_witness :
  let app := SampleHost.tableApp [] in
  let p := Routes.start app emptyWorld in
  let r := Routes.postPaths app p "t0" "t1" "t2"
             (Routes.mkCreatePathRequest (Some "tanks..fuel") (JNumber (1 # 2)) JUndefined None) in
  Routes.status (snd r) = 400 /\ fst r = p.
Proof.
  intros app p r. split; [reflexivity |].
  apply (proj1 (proj2 (postPaths_refusal app p "t0" "t1" "t2"
                         (Routes.mkCreatePathRequest (Some "tanks..fuel") (JNumber (1 # 2))
                                                     JUndefined None)))).
  reflexivity.
Defined.

(** X16.  When [POST /paths] answers 201, the path passed the format
    check, [createPath] was fulfilled and its value delta is on the bus, and
    the body echoes path, value and metadata.  With [enablePut] true a PUT
    handler is registered for the path afterwards (a new one accepts every
    source); otherwise the PUT handlers are as before and the
    answer says [hasPutHandler: false], also when the path already has a
    handler. *)
Theorem postPaths_created :
  forall (app : ServerAPI) (p p' : Routes.Plugin) (now nowMeta nowPut : Timestamp)
         (req : Routes.CreatePathRequest) (resp : Routes.Response),
    Routes.postPaths app p now nowMeta nowPut req = (p', resp) ->
    Routes.status resp = 201 ->
    exists (path : string) (w1 : World),
      Routes.cr_path req = Some path
      /\ RegExp.test Routes.pathPattern path = true
      /\ Routes.cr_value req <> JUndefined
      /\ PathManager.createPath app (Routes.pathManager p) (Routes.world p) now nowMeta
           path (Routes.cr_value req) (Routes.cr_meta req)
         = (Routes.pathManager p', w1, Fulfilled tt)
      /\ (exists rest,
            bus (Routes.world p')
            = (bus (Routes.world p)
               ++ (PLUGIN_ID,
                   valueDelta app (Routes.pathManager p) (Routes.world p) now path
                              (Routes.cr_value req)) :: rest)%list)
      /\ Routes.body resp
         = Routes.CreatedBody path (Routes.cr_value req) (Routes.cr_meta req)
             (match Routes.cr_enablePut req with Some b => b | None => false end)
      /\ (Routes.cr_enablePut req = Some true ->
          PutHandlerManager.hasPutHandler (Routes.putHandlerManager p') path = true
          /\ (PutHandlerManager.hasPutHandler (Routes.putHandlerManager p) path = false ->
              PutHandlerManager.getHandler (Routes.putHandlerManager p') path
              = Some (mkPutHandlerInfo path nowPut true)))
      /\ (Routes.cr_enablePut req <> Some true ->
          Routes.putHandlerManager p' = Routes.putHandlerManager p
          /\ Routes.world p' = w1).
Proof.
  intros app p p' now nowMeta nowPut req resp Hr Hst.
  destruct (postPaths_checks req) as [Hbad | [path [Hp [Hne [Hv Hf]]]]].
  { destruct (postPaths_refused app p now nowMeta nowPut req Hbad) as [_ H400].
    rewrite Hr in H400. cbn [snd] in H400. congruence. }
  rewrite (postPaths_accepted app p now nowMeta nowPut req path Hp Hne Hv Hf) in Hr.
  destruct (PathManager.createPath _ _ _ _ _ _ _ _) as [[pm' w1] [u|e]] eqn:Hc.
  2:{ injection Hr as <- <-. discriminate. }
  destruct u.
  destruct (createPath_fulfilled_bus _ _ _ _ _ _ _ _ _ _ _ Hc) as [rest Hbus].
  assert (Ht : RegExp.test Routes.pathPattern path = true)
    by (rewrite test_pathPattern; assumption).
  exists path, w1.
  destruct (Routes.cr_enablePut req) as [[|]|] eqn:He.
  - destruct (PutHandlerManager.registerHandler _ _ _ _ _ _) as [[m' w2]|e] eqn:Hreg.
    2:{ injection Hr as <- <-. discriminate. }
    injection Hr as <- <-.
    cbn [Routes.pathManager Routes.putHandlerManager Routes.world Routes.body].
    assert (Hb2 : bus w2 = bus w1).
    { unfold PutHandlerManager.registerHandler, hostRegisterPutHandler in Hreg.
      destruct (JsMap.has _ _); [injection Hreg as _ <-; reflexivity |].
      destruct (app_registerPutHandler _ _ _ _ _); [| discriminate].
      injection Hreg as _ <-. reflexivity. }
    split; [exact Hp |]. split; [exact Ht |]. split; [exact Hv |].
    split; [exact Hc |].
    split; [exists rest; rewrite Hb2; exact Hbus |].
    split; [reflexivity |].
    split.
    + intros _. split.
      * apply (registerHandler_has _ _ _ _ _ _ _ _ Hreg).
      * intros Hnew. apply (registerHandler_new _ _ _ _ _ _ _ _ Hnew Hreg).
    + intros Hne'. contradiction Hne'. reflexivity.
  - injection Hr as <- <-.
    cbn [Routes.pathManager Routes.putHandlerManager Routes.world Routes.body].
    split; [exact Hp |]. split; [exact Ht |]. split; [exact Hv |].
    split; [exact Hc |].
    split; [exists rest; exact Hbus |].
    split; [reflexivity |].
    split; [discriminate | intros _; split; reflexivity].
  - injection Hr as <- <-.
    cbn [Routes.pathManager Routes.putHandlerManager Routes.world Routes.body].
    split; [exact Hp |]. split; [exact Ht |]. split; [exact Hv |].
    split; [exact Hc |].
    split; [exists rest; exact Hbus |].
    split; [reflexivity |].
    split; [discriminate | intros _; split; reflexivity].
Qed.

Lemma postPaths_created_witness :
  let app := SampleHost.tableApp [] in
  let p := Routes.start app emptyWorld in
  let req := Routes.mkCreatePathRequest (Some "tanks.fuel.0.currentLevel") (JNumber (1 # 2))
                                        (JObject [("units", JString "ratio")]) (Some true) in
  let r := Routes.postPaths app p "t0" "t1" "t2" req in
  Routes.status (snd r) = 201
  /\ exists path : string,
       Routes.cr_path req = Some path
       /\ PutHandlerManager.hasPutHandler (Routes.putHandlerManager (fst r)) path = true.
Proof.
  intros app p req r. split; [reflexivity |].
  destruct (postPaths_created app p (fst r) "t0" "t1" "t2" req (snd r) eq_refl eq_refl)
    as [path [w1 [Hp [_ [_ [_ [_ [_ [Hput _]]]]]]]]].
  exists path. split; [exact Hp | apply Hput; reflexivity].
Defined.

(** X17.  [POST /paths] is not atomic.  For a request that passes the
    checks with [enablePut], on a path with no PUT handler yet, when
    [createPath] is fulfilled and the host then refuses the PUT
    registration, the answer is 500 "Failed to create path" although the
    path has been created: the value delta stays on the bus, the registry
    keeps what [createPath] recorded, and no PUT handler is registered. *)
Theorem postPaths_error_after_creation :
  forall (app : ServerAPI) (p : Routes.Plugin) (now nowMeta nowPut : Timestamp)
         (path : string) (value meta : JsValue) (pm' : PathManager.t) (w1 : World)
         (e : Thrown),
    RegExp.test Routes.pathPattern path = true ->
    value <> JUndefined ->
    PathManager.createPath app (Routes.pathManager p) (Routes.world p) now nowMeta
                           path value meta = (pm', w1, Fulfilled tt) ->
    PutHandlerManager.hasPutHandler (Routes.putHandlerManager p) path = false ->
    app_registerPutHandler app w1 "vessels.self" path None = Throw e ->
    Routes.postPaths app p now nowMeta nowPut
                     (Routes.mkCreatePathRequest (Some path) value meta (Some true))
    = (Routes.mkPlugin pm' (Routes.putHandlerManager p) w1,
       Routes.mkResponse 500 (Routes.ErrorBody "Failed to create path"))
    /\ (exists rest,
          bus w1
          = (bus (Routes.world p)
             ++ (PLUGIN_ID,
                 valueDelta app (Routes.pathManager p) (Routes.world p) now path value)
                :: rest)%list)
    /\ (Js.truthy meta = true -> PathManager.isCreatedPath pm' path = true)
    /\ putHandlers w1 = putHandlers (Routes.world p).
Proof.
  intros app p now nowMeta nowPut path value meta pm' w1 e Ht Hv Hc Hhas Hreg.
  assert (Hne : path <> ""%string) by (intros ->; discriminate).
  rewrite test_pathPattern in Ht.
  split; [| split; [| split]].
  - rewrite (postPaths_accepted app p now nowMeta nowPut
               (Routes.mkCreatePathRequest (Some path) value meta (Some true))
               path eq_refl Hne Hv Ht).
    cbn [Routes.cr_value Routes.cr_meta Routes.cr_enablePut].
    rewrite Hc.
    rewrite (registerHandler_throws app _ w1 nowPut path (mkPutOptions (Some true)) e Hhas Hreg).
    reflexivity.
  - apply (createPath_fulfilled_bus _ _ _ _ _ _ _ _ _ _ _ Hc).
  - intros Hm.
    pose proof (createPath_registry app (Routes.pathManager p) (Routes.world p)
                                    now nowMeta path value meta) as Hr.
    rewrite Hc, Hm in Hr. cbn [fst] in Hr.
    unfold PathManager.isCreatedPath, JsMap.has. rewrite Hr, JsMap_get_set_same. reflexivity.
  - pose proof (createPath_interceptors app (Routes.pathManager p) (Routes.world p)
                                        now nowMeta path value meta) as [Hi _].
    rewrite Hc in Hi. exact Hi.
Qed.

Lemma postPaths_error_after_creation_witness :
  let app := noPutApp [] "PUT not supported" in
  let p := Routes.start app emptyWorld in
  let r := Routes.postPaths app p "t0" "t1" "t2"
             (Routes.mkCreatePathRequest (Some "tanks.fuel") (JNumber (1 # 2))
                                         (JObject [("units", JString "ratio")]) (Some true)) in
  Routes.status (snd r) = 500
  /\ List.length (bus (Routes.world (fst r))) = 2
  /\ PathManager.getCreatedPaths (Routes.pathManager (fst r)) = ["tanks.fuel"].
Proof.
  intros app p r.
  destruct (postPaths_error_after_creation app p "t0" "t1" "t2" "tanks.fuel" (JNumber (1 # 2))
              (JObject [("units", JString "ratio")])
              (fst (fst (PathManager.createPath app (Routes.pathManager p) (Routes.world p)
                           "t0" "t1" "tanks.fuel" (JNumber (1 # 2))
                           (JObject [("units", JString "ratio")]))))
              (snd (fst (PathManager.createPath app (Routes.pathManager p) (Routes.world p)
                           "t0" "t1" "tanks.fuel" (JNumber (1 # 2))
                           (JObject [("units", JString "ratio")]))))
              (ThrownError "PUT not supported")
              eq_refl ltac:(discriminate) eq_refl eq_refl eq_refl) as [Hr _].
  subst r. rewrite Hr. split; [reflexivity | split; reflexivity].
Defined.

(** what [PUT /value/*] does with a path and a value *)
Lemma putValue_accepted (app : ServerAPI) (p : Routes.Plugin) (now nowResponse : Timestamp)
    (skPath : string) (req : Routes.SetValueRequest) :
  skPath <> ""%string -> Routes.sv_value req <> JUndefined ->
  Routes.putValue app p now nowResponse skPath req
  = match app_handleMessage app (Routes.world p) PLUGIN_ID
            (mkDelta (PathManager.selfContext (Routes.pathManager p))
               [mkUpdate (PathManager.sourceLabel app (Routes.world p) skPath
                                                  (Routes.sv_source req))
                         now (Values [(skPath, Routes.sv_value req)])]) with
    | Throw _ => (p, Routes.mkResponse 500 (Routes.ErrorBody "Failed to set value"))
    | Ok _ =>
        (Routes.mkPlugin (Routes.pathManager p) (Routes.putHandlerManager p)
           (mkWorld (bus (Routes.world p)
                     ++ [(PLUGIN_ID,
                          mkDelta (PathManager.selfContext (Routes.pathManager p))
                            [mkUpdate (PathManager.sourceLabel app (Routes.world p) skPath
                                                               (Routes.sv_source req))
                                      now (Values [(skPath, Routes.sv_value req)])])])%list
                    (putHandlers (Routes.world p)) (nextHandle (Routes.world p))
                    (timers (Routes.world p) ++ [mkTimer 500 skPath])%list),
         Routes.mkResponse 200
           (Routes.ValueBody skPath (Routes.sv_value req) (Routes.sv_source req) nowResponse))
    end.
Proof.
  intros Hne Hv. unfold Routes.putValue.
  apply nonEmpty_true_iff in Hne. apply isUndefined_false_iff in Hv.
  rewrite Hne, Hv. cbn [negb].
  unfold PathManager.setValue, hostHandleMessage.
  destruct (app_handleMessage _ _ _ _).
  - reflexivity.
  - rewrite plugin_eta. reflexivity.
Qed.

(** X18.  [PUT /value/*] awaits the injection, so its answer tells what
    happened: 400 exactly when the path is empty or the value missing, 500
    exactly when the host refused the delta, 200 exactly when the host
    accepted it.  Whenever the answer is not 200 nothing has changed; on
    200 the bus has gained exactly that delta, labelled as [setValue]
    labels it for the given source, one 500 ms verification timer is set,
    and both managers are as before.  No format check is made on the
    path. *)
Theorem putValue_answer_tells_outcome :
  forall (app : ServerAPI) (p : Routes.Plugin) (now nowResponse : Timestamp)
         (skPath : string) (req : Routes.SetValueRequest),
    let delta :=
      mkDelta (PathManager.selfContext (Routes.pathManager p))
        [mkUpdate (PathManager.sourceLabel app (Routes.world p) skPath (Routes.sv_source req))
                  now (Values [(skPath, Routes.sv_value req)])] in
    let r := Routes.putValue app p now nowResponse skPath req in
    (Routes.status (snd r) = 400 <-> skPath = ""%string \/ Routes.sv_value req = JUndefined)
    /\ (Routes.status (snd r) = 500 <->
        skPath <> ""%string /\ Routes.sv_value req <> JUndefined
        /\ exists e, app_handleMessage app (Routes.world p) PLUGIN_ID delta = Throw e)
    /\ (Routes.status (snd r) = 200 <->
        skPath <> ""%string /\ Routes.sv_value req <> JUndefined
        /\ app_handleMessage app (Routes.world p) PLUGIN_ID delta = Ok tt)
    /\ (Routes.status (snd r) <> 200 -> fst r = p)
    /\ (Routes.status (snd r) = 200 ->
        r = (Routes.mkPlugin (Routes.pathManager p) (Routes.putHandlerManager p)
               (mkWorld (bus (Routes.world p) ++ [(PLUGIN_ID, delta)])%list
                        (putHandlers (Routes.world p)) (nextHandle (Routes.world p))
                        (timers (Routes.world p) ++ [mkTimer 500 skPath])%list),
             Routes.mkResponse 200
               (Routes.ValueBody skPath (Routes.sv_value req) (Routes.sv_source req)
                                 nowResponse))).
Proof.
  intros app p now nowResponse skPath req delta r. subst r.
  destruct (JsString.nonEmpty skPath) eqn:Hne.
  2:{ unfold Routes.putValue. rewrite Hne. cbn [negb fst snd Routes.status].
      apply nonEmpty_false_iff in Hne.
      split; [| split; [| split; [| split]]].
      - split; [intros _; left; exact Hne | reflexivity].
      - split; [discriminate | intros [H _]; contradiction].
      - split; [discriminate | intros [H _]; contradiction].
      - reflexivity.
      - discriminate. }
  destruct (Js.isUndefined (Routes.sv_value req)) eqn:Hv.
  { unfold Routes.putValue. rewrite Hne, Hv. cbn [negb fst snd Routes.status].
    apply isUndefined_true_iff in Hv.
    split; [| split; [| split; [| split]]].
    - split; [intros _; right; exact Hv | reflexivity].
    - split; [discriminate | intros [_ [H _]]; contradiction].
    - split; [discriminate | intros [_ [H _]]; contradiction].
    - reflexivity.
    - discriminate. }
  apply nonEmpty_true_iff in Hne. apply isUndefined_false_iff in Hv.
  rewrite (putValue_accepted app p now nowResponse skPath req Hne Hv).
  fold delta.
  destruct (app_handleMessage app (Routes.world p) PLUGIN_ID delta) as [[]|e] eqn:Hh;
    cbn [fst snd Routes.status].
  - split; [| split; [| split; [| split]]].
    + split; [discriminate | intros [H | H]; contradiction].
    + split; [discriminate | intros [_ [_ [e He]]]; discriminate].
    + split; [intros _; repeat split; assumption | reflexivity].
    + intros H. contradiction H. reflexivity.
    + reflexivity.
  - split; [| split; [| split; [| split]]].
    + split; [discriminate | intros [H | H]; contradiction].
    + split; [intros _; split; [assumption | split; [assumption | exists e; reflexivity]]
             | reflexivity].
    + split; [discriminate | intros [_ [_ H]]; discriminate].
    + reflexivity.
    + discriminate.
Qed.

Lemma putValue_answer_tells_outcome_witness :
  let app := SampleHost.refusingApp SampleHost.n2kTable "delta rejected" in
  let p := Routes.start app emptyWorld in
  let r := Routes.putValue app p "t0" "t1" SampleHost.sog
             (Routes.mkSetValueRequest (JNumber (5 # 1)) None) in
  Routes.status (snd r) = 500 /\ fst r = p.
Proof.
  intros app p r. split; [reflexivity |].
  apply (proj1 (proj2 (proj2 (proj2
           (putValue_answer_tells_outcome app p "t0" "t1" SampleHost.sog
              (Routes.mkSetValueRequest (JNumber (5 # 1)) None)))))).
  discriminate.
Defined.

Lemma acceptedSource_flag (options : PutOptions) :
  PutHandlerManager.acceptedSource options
  = if PutHandlerManager.acceptAllSourcesOrFalse options then None else Some SOURCE_LABEL.
Proof. destruct options as [[[|]|]]; reflexivity. Qed.

(** X19.  [POST /puts] answers 400 exactly when the body has no path or
    an empty one, and 409 exactly when the path already has a PUT handler;
    whenever the answer is not 201 nothing has changed.  On 201 the path,
    whatever its format, has a handler stored with the clock reading and
    the [acceptAllSources] flag of the answer, the host holds one more
    interceptor for it on the self vessel, accepting every source with the
    flag and only ["whatif-helper"] without, the bus and the path manager
    are as before, and the same request made again answers 409. *)
Theorem postPuts_conflict_and_effect :
  forall (app : ServerAPI) (p : Routes.Plugin) (now nowResponse : Timestamp)
         (req : Routes.RegisterPutRequest),
    let r := Routes.postPuts app p now nowResponse req in
    let w := Routes.world p in
    let flag :=
      match Routes.rp_options req with
      | Some o => PutHandlerManager.acceptAllSourcesOrFalse o
      | None => false
      end in
    (Routes.status (snd r) = 400 <->
       Routes.rp_path req = None \/ Routes.rp_path req = Some ""%string)
    /\ (Routes.status (snd r) = 409 <->
        exists path, Routes.rp_path req = Some path /\ path <> ""%string
                     /\ PutHandlerManager.hasPutHandler (Routes.putHandlerManager p) path = true)
    /\ (Routes.status (snd r) <> 201 -> fst r = p)
    /\ (Routes.status (snd r) = 201 ->
        exists path,
          Routes.rp_path req = Some path
          /\ PutHandlerManager.getHandler (Routes.putHandlerManager (fst r)) path
             = Some (mkPutHandlerInfo path now flag)
          /\ Routes.world (fst r)
             = mkWorld (bus w)
                       (putHandlers w ++
                          [mkPutRegistration (nextHandle w) "vessels.self" path
                                             (if flag then None else Some SOURCE_LABEL)])%list
                       (S (nextHandle w)) (timers w)
          /\ Routes.pathManager (fst r) = Routes.pathManager p
          /\ Routes.body (snd r) = Routes.RegisteredBody path nowResponse flag
          /\ forall (now2 nowResponse2 : Timestamp) (options2 : option PutOptions),
               Routes.status
                 (snd (Routes.postPuts app (fst r) now2 nowResponse2
                         (Routes.mkRegisterPutRequest (Some path) options2))) = 409).
Proof.
  intros app p now nowResponse req r w flag. subst r.
  unfold Routes.postPuts.
  destruct (Routes.rp_path req) as [path|] eqn:Hp.
  2:{ cbn [fst snd Routes.status].
      split; [| split; [| split]].
      - split; [intros _; left; reflexivity | reflexivity].
      - split; [discriminate | intros [q [H _]]; discriminate].
      - reflexivity.
      - discriminate. }
  destruct (JsString.nonEmpty path) eqn:Hne; cbn [negb].
  2:{ cbn [fst snd Routes.status]. apply nonEmpty_false_iff in Hne. subst path.
      split; [| split; [| split]].
      - split; [intros _; right; reflexivity | reflexivity].
      - split; [discriminate | intros [q [H [Hq _]]]]. injection H as <-. contradiction.
      - reflexivity.
      - discriminate. }
  apply nonEmpty_true_iff in Hne.
  assert (H400 : ~ (Some path = None \/ Some path = Some ""%string)).
  { intros [H | H]; [discriminate | injection H as ->; contradiction]. }
  destruct (PutHandlerManager.hasPutHandler (Routes.putHandlerManager p) path) eqn:Hhas.
  { cbn [fst snd Routes.status].
    split; [| split; [| split]].
    - split; [discriminate | intros H; contradiction].
    - split; [intros _; exists path; repeat split; assumption | reflexivity].
    - reflexivity.
    - discriminate. }
  destruct (PutHandlerManager.registerHandler app (Routes.putHandlerManager p) (Routes.world p)
              now path
              (match Routes.rp_options req with Some o => o | None => mkPutOptions None end))
    as [[m' w']|e] eqn:Hreg; cbn [fst snd Routes.status].
  - split; [| split; [| split]].
    + split; [discriminate | intros H; contradiction].
    + split; [discriminate | intros [q [H [_ Hq]]]]. injection H as <-. congruence.
    + intros H. contradiction H. reflexivity.
    + intros _. exists path.
      destruct (registerHandler_new _ _ _ _ _ _ _ _ Hhas Hreg) as [Hget Hw].
      assert (Hflag : PutHandlerManager.acceptAllSourcesOrFalse
                        (match Routes.rp_options req with
                         | Some o => o | None => mkPutOptions None end) = flag)
        by (subst flag; destruct (Routes.rp_options req); reflexivity).
      rewrite acceptedSource_flag, Hflag in Hw. rewrite Hflag in Hget.
      cbn [Routes.putHandlerManager Routes.world Routes.pathManager Routes.body].
      split; [reflexivity |]. split; [exact Hget |]. split; [exact Hw |].
      split; [reflexivity |]. split; [reflexivity |].
      intros now2 nowResponse2 options2.
      cbn [Routes.rp_path Routes.rp_options].
      apply nonEmpty_true_iff in Hne. rewrite Hne. cbn [negb].
      rewrite (registerHandler_has _ _ _ _ _ _ _ _ Hreg). reflexivity.
  - split; [| split; [| split]].
    + split; [discriminate | intros H; contradiction].
    + split; [discriminate | intros [q [H [_ Hq]]]]. injection H as <-. congruence.
    + reflexivity.
    + discriminate.
Qed.

Lemma postPuts_conflict_and_effect_witness :
  let app := SampleHost.tableApp [] in
  let p := Routes.start app emptyWorld in
  let req := Routes.mkRegisterPutRequest (Some "not a path!") None in
  let r := Routes.postPuts app p "t0" "t1" req in
  Routes.status (snd r) = 201
  /\ Routes.status (snd (Routes.postPuts app (fst r) "t2" "t3" req)) = 409.
Proof.
  intros app p req r. split; [reflexivity |].
  destruct (proj2 (proj2 (proj2 (postPuts_conflict_and_effect app p "t0" "t1" req))) eq_refl)
    as [path [Hp [_ [_ [_ [_ Hagain]]]]]].
  injection Hp as <-. apply Hagain.
Defined.

Lemma JsMap_has_set {V : Type} (m : JsMap.t V) (k q : string) (v : V) :
  JsMap.has (JsMap.set m k v) q = JsMap.has m q || String.eqb k q.
Proof.
  unfold JsMap.has.
  destruct (String.eqb_spec k q) as [<- | Hne].
  - rewrite JsMap_get_set_same. symmetry. apply orb_true_r.
  - rewrite JsMap_get_set_other by congruence. symmetry. apply orb_false_r.
Qed.

Lemma applyScenarioPath_PutInvariant (app : ServerAPI) (p : Routes.Plugin)
    (now nowMeta nowPut : Timestamp) (pathConfig : Routes.ScenarioPath) :
  PutInvariant (Routes.putHandlerManager p) (Routes.world p) ->
  PutInvariant
    (Routes.putHandlerManager (fst (Routes.applyScenarioPath app p now nowMeta nowPut pathConfig)))
    (Routes.world (fst (Routes.applyScenarioPath app p now nowMeta nowPut pathConfig))).
Proof.
  intros I. unfold Routes.applyScenarioPath.
  pose proof (createPath_interceptors app (Routes.pathManager p) (Routes.world p)
                now nowMeta (Routes.sp_path pathConfig) (Routes.sp_value pathConfig)
                (Routes.sp_meta pathConfig)) as [Hi Hn].
  destruct (PathManager.createPath _ _ _ _ _ _ _ _) as [[pm' w1] [u|e]]; cbn [fst snd] in *.
  2:{ apply (PutInvariant_world _ _ _ I Hi Hn). }
  pose proof (PutInvariant_world _ _ _ I Hi Hn) as I1.
  destruct (_ && _); cbn [fst Routes.putHandlerManager Routes.world]; [| exact I1].
  destruct (PutHandlerManager.registerHandler _ _ _ _ _ _) as [[m' w2]|e] eqn:Hreg;
    cbn [fst Routes.putHandlerManager Routes.world]; [| exact I1].
  apply (PutInvariant_register _ _ _ _ _ _ _ _ I1 Hreg).
Qed.

Lemma createPath_isCreatedPath (app : ServerAPI) (pm : PathManager.t) (w : World)
    (now nowMeta : Timestamp) (path : string) (value meta : JsValue) (q : string) :
  PathManager.isCreatedPath
    (fst (fst (PathManager.createPath app pm w now nowMeta path value meta))) q
  = PathManager.isCreatedPath pm q || String.eqb path q && Js.truthy meta.
Proof.
  unfold PathManager.isCreatedPath. rewrite createPath_registry.
  destruct (Js.truthy meta).
  - rewrite JsMap_has_set, andb_true_r. reflexivity.
  - rewrite andb_false_r, orb_false_r. reflexivity.
Qed.

Lemma applyScenarioPath_registry (app : ServerAPI) (p : Routes.Plugin)
    (now nowMeta nowPut : Timestamp) (pathConfig : Routes.ScenarioPath) (q : string) :
  PathManager.isCreatedPath
    (Routes.pathManager (fst (Routes.applyScenarioPath app p now nowMeta nowPut pathConfig))) q
  = PathManager.isCreatedPath (Routes.pathManager p) q
    || String.eqb (Routes.sp_path pathConfig) q && Js.truthy (Routes.sp_meta pathConfig).
Proof.
  rewrite <- (createPath_isCreatedPath app (Routes.pathManager p) (Routes.world p) now nowMeta
                (Routes.sp_path pathConfig) (Routes.sp_value pathConfig)).
  unfold Routes.applyScenarioPath.
  destruct (PathManager.createPath _ _ _ _ _ _ _ _) as [[pm' w1] [u|e]]; [| reflexivity].
  destruct (_ && _); [| reflexivity].
  destruct (PutHandlerManager.registerHandler _ _ _ _ _ _) as [[m' w2]|e]; reflexivity.
Qed.

Lemma registerHandler_keeps (app : ServerAPI) (m m' : PutHandlerManager.t) (w w' : World)
    (now : Timestamp) (path : string) (options : PutOptions) (q : string) :
  PutHandlerManager.registerHandler app m w now path options = Ok (m', w') ->
  PutHandlerManager.hasPutHandler m q = true ->
  PutHandlerManager.hasPutHandler m' q = true.
Proof.
  unfold PutHandlerManager.registerHandler, PutHandlerManager.hasPutHandler.
  destruct (JsMap.has (PutHandlerManager.handlers m) path) eqn:Hhas.
  - intros H. injection H as <- <-. auto.
  - destruct (hostRegisterPutHandler _ _ _ _ _) as [[w1 h]|e]; [| discriminate].
    intros H Hq. injection H as <- <-. cbn [PutHandlerManager.handlers].
    rewrite JsMap_has_set, Hq. reflexivity.
Qed.

Lemma applyScenarioPath_keeps (app : ServerAPI) (p : Routes.Plugin)
    (now nowMeta nowPut : Timestamp) (pathConfig : Routes.ScenarioPath) (q : string) :
  PutHandlerManager.hasPutHandler (Routes.putHandlerManager p) q = true ->
  PutHandlerManager.hasPutHandler
    (Routes.putHandlerManager (fst (Routes.applyScenarioPath app p now nowMeta nowPut pathConfig)))
    q = true.
Proof.
  intros Hq. unfold Routes.applyScenarioPath.
  destruct (PathManager.createPath _ _ _ _ _ _ _ _) as [[pm' w1] [u|e]]; [| exact Hq].
  destruct (_ && _); [| exact Hq].
  destruct (PutHandlerManager.registerHandler _ _ _ _ _ _) as [[m' w2]|e] eqn:Hreg;
    [| exact Hq].
  apply (registerHandler_keeps _ _ _ _ _ _ _ _ _ Hreg Hq).
Qed.

Lemma applyScenarioPaths_cons (app : ServerAPI) (p : Routes.Plugin)
    (now nowMeta nowPut : Timestamp) (pathConfig : Routes.ScenarioPath)
    (rest : list (Timestamp * Timestamp * Timestamp * Routes.ScenarioPath)) :
  Routes.applyScenarioPaths app p ((now, nowMeta, nowPut, pathConfig) :: rest)
  = (fst (Routes.applyScenarioPaths app
            (fst (Routes.applyScenarioPath app p now nowMeta nowPut pathConfig)) rest),
     snd (Routes.applyScenarioPath app p now nowMeta nowPut pathConfig)
     :: snd (Routes.applyScenarioPaths app
               (fst (Routes.applyScenarioPath app p now nowMeta nowPut pathConfig)) rest)).
Proof.
  cbn [Routes.applyScenarioPaths].
  destruct (Routes.applyScenarioPath app p now nowMeta nowPut pathConfig) as [p1 result].
  cbn [fst snd].
  destruct (Routes.applyScenarioPaths app p1 rest) as [p2 results]. reflexivity.
Qed.

Lemma applyScenarioPaths_PutInvariant (app : ServerAPI)
    (steps : list (Timestamp * Timestamp * Timestamp * Routes.ScenarioPath)) :
  forall p : Routes.Plugin,
    PutInvariant (Routes.putHandlerManager p) (Routes.world p) ->
    PutInvariant (Routes.putHandlerManager (fst (Routes.applyScenarioPaths app p steps)))
                 (Routes.world (fst (Routes.applyScenarioPaths app p steps))).
Proof.
  induction steps as [|[[[now nowMeta] nowPut] pathConfig] rest IH]; intros p I.
  - exact I.
  - rewrite applyScenarioPaths_cons. cbn [fst].
    apply IH, applyScenarioPath_PutInvariant, I.
Qed.

Lemma applyScenarioPaths_registry (app : ServerAPI)
    (steps : list (Timestamp * Timestamp * Timestamp * Routes.ScenarioPath)) (q : string) :
  forall p : Routes.Plugin,
    PathManager.isCreatedPath (Routes.pathManager (fst (Routes.applyScenarioPaths app p steps))) q
    = PathManager.isCreatedPath (Routes.pathManager p) q
      || existsb (fun step =>
                    String.eqb (Routes.sp_path (snd step)) q
                    && Js.truthy (Routes.sp_meta (snd step)))
                 steps.
Proof.
  induction steps as [|[[[now nowMeta] nowPut] pathConfig] rest IH]; intros p.
  - cbn. symmetry. apply orb_false_r.
  - rewrite applyScenarioPaths_cons. cbn [fst existsb snd].
    rewrite IH, applyScenarioPath_registry, orb_assoc. reflexivity.
Qed.

Lemma applyScenarioPaths_keeps (app : ServerAPI)
    (steps : list (Timestamp * Timestamp * Timestamp * Routes.ScenarioPath)) (q : string) :
  forall p : Routes.Plugin,
    PutHandlerManager.hasPutHandler (Routes.putHandlerManager p) q = true ->
    PutHandlerManager.hasPutHandler
      (Routes.putHandlerManager (fst (Routes.applyScenarioPaths app p steps))) q = true.
Proof.
  induction steps as [|[[[now nowMeta] nowPut] pathConfig] rest IH]; intros p Hq.
  - exact Hq.
  - rewrite applyScenarioPaths_cons. cbn [fst].
    apply IH, applyScenarioPath_keeps, Hq.
Qed.

Lemma postScenarioRun_plugin (app : ServerAPI) (p : Routes.Plugin) (name : string)
    (steps : list (Timestamp * Timestamp * Timestamp * Routes.ScenarioPath)) :
  fst (Routes.postScenarioRun app p name steps) = fst (Routes.applyScenarioPaths app p steps).
Proof.
  unfold Routes.postScenarioRun.
  destruct (Routes.applyScenarioPaths app p steps). reflexivity.
Qed.

Lemma handle_PutInvariant (app : ServerAPI) (p : Routes.Plugin) (request : Routes.Request) :
  PutInvariant (Routes.putHandlerManager p) (Routes.world p) ->
  PutInvariant (Routes.putHandlerManager (fst (Routes.handle app p request)))
               (Routes.world (fst (Routes.handle app p request))).
Proof.
  intros I. destruct request as [now nowMeta nowPut req | now nowResponse skPath req
                                 | now nowResponse req | skPath | name steps];
    cbn [Routes.handle].
  - destruct (postPaths_checks req) as [Hbad | [path [Hp [Hne [Hv Hf]]]]].
    { rewrite (proj1 (postPaths_refused app p now nowMeta nowPut req Hbad)). exact I. }
    rewrite (postPaths_accepted app p now nowMeta nowPut req path Hp Hne Hv Hf).
    pose proof (createPath_interceptors app (Routes.pathManager p) (Routes.world p)
                  now nowMeta path (Routes.cr_value req) (Routes.cr_meta req)) as [Hi Hn].
    destruct (PathManager.createPath _ _ _ _ _ _ _ _) as [[pm' w1] [u|e]]; cbn [fst snd] in *.
    2:{ apply (PutInvariant_world _ _ _ I Hi Hn). }
    pose proof (PutInvariant_world _ _ _ I Hi Hn) as I1.
    destruct (Routes.cr_enablePut req) as [[|]|]; cbn [fst Routes.putHandlerManager Routes.world];
      try exact I1.
    destruct (PutHandlerManager.registerHandler _ _ _ _ _ _) as [[m' w2]|e] eqn:Hreg;
      cbn [fst Routes.putHandlerManager Routes.world]; [| exact I1].
    apply (PutInvariant_register _ _ _ _ _ _ _ _ I1 Hreg).
  - unfold Routes.putValue.
    destruct (negb (JsString.nonEmpty skPath)); [exact I |].
    destruct (Js.isUndefined (Routes.sv_value req)); [exact I |].
    pose proof (setValue_interceptors app (Routes.pathManager p) (Routes.world p) now skPath
                  (Routes.sv_value req) (Routes.sv_source req)) as [Hi Hn].
    destruct (PathManager.setValue _ _ _ _ _ _ _) as [w1 [u|e]];
      cbn [fst snd Routes.putHandlerManager Routes.world] in *;
      apply (PutInvariant_world _ _ _ I Hi Hn).
  - unfold Routes.postPuts.
    destruct (Routes.rp_path req) as [path|]; [| exact I].
    destruct (negb (JsString.nonEmpty path)); [exact I |].
    destruct (PutHandlerManager.hasPutHandler _ _); [exact I |].
    destruct (PutHandlerManager.registerHandler _ _ _ _ _ _) as [[m' w2]|e] eqn:Hreg;
      cbn [fst Routes.putHandlerManager Routes.world]; [| exact I].
    apply (PutInvariant_register _ _ _ _ _ _ _ _ I Hreg).
  - unfold Routes.deletePuts.
    destruct (negb (JsString.nonEmpty skPath)); [exact I |].
    destruct (PutHandlerManager.unregisterHandler _ _ _) as [[m' w'] success] eqn:Hun.
    pose proof (PutInvariant_unregister _ _ _ _ _ _ I Hun) as I'.
    destruct success; cbn [fst Routes.putHandlerManager Routes.world]; assumption.
  - rewrite postScenarioRun_plugin. apply applyScenarioPaths_PutInvariant, I.
Qed.

Lemma serve_snoc (app : ServerAPI) (p : Routes.Plugin) (requests : list Routes.Request)
    (request : Routes.Request) :
  Routes.serve app p (requests ++ [request])
  = fst (Routes.handle app (Routes.serve app p requests) request).
Proof. unfold Routes.serve. rewrite fold_left_app. reflexivity. Qed.

Lemma serve_PutInvariant (app : ServerAPI) (b : list (string * Delta)) (n : nat)
    (t : list Timer) (requests : list Routes.Request) :
  PutInvariant
    (Routes.putHandlerManager (Routes.serve app (Routes.start app (freshWorld b n t)) requests))
    (Routes.world (Routes.serve app (Routes.start app (freshWorld b n t)) requests)).
Proof.
  induction requests as [|request requests IH] using rev_ind.
  - apply PutInvariant_create.
  - rewrite serve_snoc. apply handle_PutInvariant. exact IH.
Qed.

(** X20.  In every state the plugin reaches from [start] by requests to
    [POST /paths], [PUT /value/*], [POST /puts], [DELETE /puts/*] and
    [POST /scenarios/:id/run], [DELETE /puts/*] on a non-empty path answers 204
    exactly when the path has a PUT handler and 404 exactly when it has
    none; 404 changes nothing; after either answer the path has no
    handler, the host holds no interceptor for it and those of the other
    paths are as before, and the same request made again answers 404. *)
Theorem deletePuts_answers :
  forall (app : ServerAPI) (b : list (string * Delta)) (n : nat) (t : list Timer)
         (requests : list Routes.Request) (skPath : string),
    let p := Routes.serve app (Routes.start app (freshWorld b n t)) requests in
    let r := Routes.deletePuts p skPath in
    skPath <> ""%string ->
    (Routes.status (snd r) = 204 <->
       PutHandlerManager.hasPutHandler (Routes.putHandlerManager p) skPath = true)
    /\ (Routes.status (snd r) = 404 <->
        PutHandlerManager.hasPutHandler (Routes.putHandlerManager p) skPath = false)
    /\ (Routes.status (snd r) = 404 -> fst r = p)
    /\ PutHandlerManager.hasPutHandler (Routes.putHandlerManager (fst r)) skPath = false
    /\ putHandlers (Routes.world (fst r))
       = filter (fun reg => negb (String.eqb (reg_path reg) skPath))
                (putHandlers (Routes.world p))
    /\ Routes.status (snd (Routes.deletePuts (fst r) skPath)) = 404.
Proof.
  intros app b n t requests skPath p r Hne.
  pose proof (serve_PutInvariant app b n t requests) as I. fold p in I.
  assert (Hkeys : forall m w, PutInvariant m w ->
            PutHandlerManager.hasPutHandler m skPath = false ->
            Routes.deletePuts (Routes.mkPlugin (Routes.pathManager p) m w) skPath
            = (Routes.mkPlugin (Routes.pathManager p) m w,
               Routes.mkResponse 404 (Routes.ErrorBody "PUT handler not found for this path"))).
  { intros m w Im Hhas. unfold Routes.deletePuts, PutHandlerManager.unregisterHandler.
    apply nonEmpty_true_iff in Hne. rewrite Hne. cbn [negb Routes.putHandlerManager Routes.world].
    unfold PutHandlerManager.hasPutHandler in Hhas. apply JsMap_has_false_iff in Hhas.
    apply (JsMap_get_same_keys _ _ skPath (inv_keys _ _ Im)) in Hhas.
    rewrite Hhas. reflexivity. }
  assert (Hnone : forall w' : World,
            filter (fun reg => negb (String.eqb (reg_path reg) skPath)) (putHandlers w')
            = putHandlers w' <->
            (forall reg, In reg (putHandlers w') -> reg_path reg <> skPath)).
  { intros w'. split.
    - intros Hf reg Hin. rewrite <- Hf in Hin. apply filter_In in Hin as [_ Hq].
      destruct (String.eqb_spec (reg_path reg) skPath); [discriminate | assumption].
    - intros Hall. apply filter_all_true. intros reg Hin.
      destruct (String.eqb_spec (reg_path reg) skPath) as [E | _]; [| reflexivity].
      contradiction (Hall reg Hin). }
  destruct (PutHandlerManager.hasPutHandler (Routes.putHandlerManager p) skPath) eqn:Hhas.
  - destruct (JsMap.get (PutHandlerManager.unregisterFunctions (Routes.putHandlerManager p))
                        skPath) as [h|] eqn:Hget.
    2:{ apply (JsMap_get_same_keys _ _ skPath (inv_keys _ _ I)) in Hget.
        apply JsMap_has_false_iff in Hget.
        unfold PutHandlerManager.hasPutHandler in Hhas. congruence. }
    assert (Hun : PutHandlerManager.unregisterHandler (Routes.putHandlerManager p)
                    (Routes.world p) skPath
                  = (PutHandlerManager.mk
                       (JsMap.delete (PutHandlerManager.handlers (Routes.putHandlerManager p)) skPath)
                       (JsMap.delete (PutHandlerManager.unregisterFunctions
                                        (Routes.putHandlerManager p)) skPath),
                     callUnregister (Routes.world p) h, true)).
    { unfold PutHandlerManager.unregisterHandler. rewrite Hget. reflexivity. }
    assert (Hr : r = (Routes.mkPlugin (Routes.pathManager p)
                        (PutHandlerManager.mk
                           (JsMap.delete (PutHandlerManager.handlers (Routes.putHandlerManager p))
                                         skPath)
                           (JsMap.delete (PutHandlerManager.unregisterFunctions
                                            (Routes.putHandlerManager p)) skPath))
                        (callUnregister (Routes.world p) h),
                      Routes.mkResponse 204 Routes.NoBody)).
    { subst r. unfold Routes.deletePuts.
      pose proof Hne as Hne'. apply nonEmpty_true_iff in Hne'. rewrite Hne'. cbn [negb].
      rewrite Hun. reflexivity. }
    pose proof (PutInvariant_unregister _ _ _ _ _ _ I Hun) as I'.
    assert (Hgone : PutHandlerManager.hasPutHandler
                      (PutHandlerManager.mk
                         (JsMap.delete (PutHandlerManager.handlers (Routes.putHandlerManager p)) skPath)
                         (JsMap.delete (PutHandlerManager.unregisterFunctions
                                          (Routes.putHandlerManager p)) skPath)) skPath = false).
    { unfold PutHandlerManager.hasPutHandler. cbn [PutHandlerManager.handlers].
      apply JsMap_has_false_iff, JsMap_get_delete_same. }
    rewrite Hr. cbn [fst snd Routes.status Routes.putHandlerManager Routes.world].
    split; [| split; [| split; [| split; [| split]]]].
    + split; reflexivity.
    + split; discriminate.
    + discriminate.
    + exact Hgone.
    + apply (callUnregister_removes_path _ _ _ _ I Hget).
    + rewrite (Hkeys _ _ I' Hgone). reflexivity.
  - assert (Hp : p = Routes.mkPlugin (Routes.pathManager p) (Routes.putHandlerManager p)
                                     (Routes.world p)) by (symmetry; apply plugin_eta).
    assert (Hr : r = (p, Routes.mkResponse 404
                           (Routes.ErrorBody "PUT handler not found for this path"))).
    { subst r. rewrite Hp at 1 2. rewrite (Hkeys _ _ I Hhas), plugin_eta. reflexivity. }
    rewrite Hr. cbn [fst snd Routes.status].
    split; [| split; [| split; [| split; [| split]]]].
    + split; discriminate.
    + split; reflexivity.
    + reflexivity.
    + exact Hhas.
    + symmetry. apply Hnone. intros reg Hin Hq.
      pose proof (PutInvariant_paths _ _ I) as Hpaths.
      unfold PutHandlerManager.hasPutHandler in Hhas.
      apply JsMap_has_false_iff, JsMap_get_None_iff in Hhas.
      apply Hhas. rewrite <- Hpaths. apply in_map_iff. exists reg. split; assumption.
    + rewrite Hp, (Hkeys _ _ I Hhas). reflexivity.
Qed.

Lemma deletePuts_answers_witness :
  let app := SampleHost.tableApp [] in
  let requests :=
    [Routes.PostPuts "t0" "t1" (Routes.mkRegisterPutRequest (Some SampleHost.sog) None)] in
  let p := Routes.serve app (Routes.start app (freshWorld [] 0 [])) requests in
  let r := Routes.deletePuts p SampleHost.sog in
  Routes.status (snd r) = 204
  /\ Routes.status (snd (Routes.deletePuts (fst r) SampleHost.sog)) = 404.
Proof.
  intros app requests p r. split; [reflexivity |].
  apply (deletePuts_answers app [] 0 [] requests SampleHost.sog).
  discriminate.
Defined.

Lemma handle_registry (app : ServerAPI) (p : Routes.Plugin) (request : Routes.Request)
    (q : string) :
  PathManager.isCreatedPath (Routes.pathManager (fst (Routes.handle app p request))) q
  = PathManager.isCreatedPath (Routes.pathManager p) q || recordsPath request q.
Proof.
  destruct request as [now nowMeta nowPut req | now nowResponse skPath req
                       | now nowResponse req | skPath | name steps];
    cbn [Routes.handle recordsPath].
  - destruct (postPaths_checks req) as [Hbad | [path [Hp [Hne [Hv Hf]]]]].
    { rewrite (proj1 (postPaths_refused app p now nowMeta nowPut req Hbad)).
      destruct (Routes.cr_path req) as [path|]; [| symmetry; apply orb_false_r].
      rewrite test_pathPattern.
      destruct Hbad as [-> | [Hv | Hf]].
      - rewrite andb_false_r. symmetry. apply orb_false_r.
      - rewrite Hv. cbn [Js.isUndefined negb]. rewrite andb_false_r.
        symmetry. apply orb_false_r.
      - rewrite Hf, andb_false_r. symmetry. apply orb_false_r. }
    rewrite (postPaths_accepted app p now nowMeta nowPut req path Hp Hne Hv Hf).
    rewrite Hp, test_pathPattern, Hf.
    apply isUndefined_false_iff in Hv. rewrite Hv. cbn [negb]. rewrite !andb_true_r.
    pose proof (createPath_registry app (Routes.pathManager p) (Routes.world p)
                  now nowMeta path (Routes.cr_value req) (Routes.cr_meta req)) as Hr.
    assert (Hreg : forall pm',
              PathManager.createdPaths pm'
              = (if Js.truthy (Routes.cr_meta req)
                 then JsMap.set (PathManager.createdPaths (Routes.pathManager p)) path
                                (Routes.cr_meta req)
                 else PathManager.createdPaths (Routes.pathManager p)) ->
              PathManager.isCreatedPath pm' q
              = PathManager.isCreatedPath (Routes.pathManager p) q
                || String.eqb path q && Js.truthy (Routes.cr_meta req)).
    { intros pm' E. unfold PathManager.isCreatedPath. rewrite E.
      destruct (Js.truthy (Routes.cr_meta req)).
      - rewrite JsMap_has_set, andb_true_r. reflexivity.
      - rewrite andb_false_r, orb_false_r. reflexivity. }
    destruct (PathManager.createPath _ _ _ _ _ _ _ _) as [[pm' w1] [u|e]]; cbn [fst] in Hr.
    + destruct (Routes.cr_enablePut req) as [[|]|]; cbn [fst Routes.pathManager];
        try (apply Hreg; exact Hr).
      destruct (PutHandlerManager.registerHandler _ _ _ _ _ _) as [[m' w2]|e];
        cbn [fst Routes.pathManager]; apply Hreg; exact Hr.
    + cbn [fst Routes.pathManager]. apply Hreg; exact Hr.
  - rewrite orb_false_r. unfold Routes.putValue.
    destruct (negb (JsString.nonEmpty skPath)); [reflexivity |].
    destruct (Js.isUndefined (Routes.sv_value req)); [reflexivity |].
    destruct (PathManager.setValue _ _ _ _ _ _ _) as [w1 [u|e]]; reflexivity.
  - rewrite orb_false_r. unfold Routes.postPuts.
    destruct (Routes.rp_path req) as [path|]; [| reflexivity].
    destruct (negb (JsString.nonEmpty path)); [reflexivity |].
    destruct (PutHandlerManager.hasPutHandler _ _); [reflexivity |].
    destruct (PutHandlerManager.registerHandler _ _ _ _ _ _) as [[m' w2]|e]; reflexivity.
  - rewrite orb_false_r. unfold Routes.deletePuts.
    destruct (negb (JsString.nonEmpty skPath)); [reflexivity |].
    destruct (PutHandlerManager.unregisterHandler _ _ _) as [[m' w'] success].
    destruct success; reflexivity.
  - rewrite postScenarioRun_plugin. apply applyScenarioPaths_registry.
Qed.

(** X21.  The registry of created paths only grows, and only by
    [createPath] calls that carry metadata: after any requests to
    [POST /paths], [PUT /value/*], [POST /puts], [DELETE /puts/*] and
    [POST /scenarios/:id/run] since [start], [isCreatedPath(q)] holds
    exactly when one of them was a [POST /paths] for [q] that passed the
    checks and carried metadata, or a scenario run naming [q] with
    metadata, whatever the answer or the result for that path was.  A
    path recorded by [POST /paths] matches the pattern of the route, so
    without scenario runs, which make no format check, every path of
    [GET /created] matches it. *)
Theorem served_registry_characterised :
  forall (app : ServerAPI) (w : World) (requests : list Routes.Request) (q : string),
    let p := Routes.serve app (Routes.start app w) requests in
    PathManager.isCreatedPath (Routes.pathManager p) q
    = existsb (fun request => recordsPath request q) requests
    /\ (In q (PathManager.getCreatedPaths (Routes.pathManager p)) ->
        (RegExp.test Routes.pathPattern q = true
         /\ exists now nowMeta nowPut req,
              In (Routes.PostPaths now nowMeta nowPut req) requests
              /\ Routes.cr_path req = Some q
              /\ Js.truthy (Routes.cr_meta req) = true)
        \/ (exists name steps step,
              In (Routes.PostScenarioRun name steps) requests
              /\ In step steps
              /\ Routes.sp_path (snd step) = q
              /\ Js.truthy (Routes.sp_meta (snd step)) = true))
    /\ ((forall name steps, ~ In (Routes.PostScenarioRun name steps) requests) ->
        In q (PathManager.getCreatedPaths (Routes.pathManager p)) ->
        RegExp.test Routes.pathPattern q = true).
Proof.
  intros app w requests q p.
  assert (Hchar : PathManager.isCreatedPath (Routes.pathManager p) q
                  = existsb (fun request => recordsPath request q) requests).
  { subst p. induction requests as [|request requests IH] using rev_ind.
    - reflexivity.
    - rewrite serve_snoc, handle_registry, IH, existsb_app. cbn [existsb].
      rewrite orb_false_r. reflexivity. }
  assert (Hin : In q (PathManager.getCreatedPaths (Routes.pathManager p)) ->
    (RegExp.test Routes.pathPattern q = true
     /\ exists now nowMeta nowPut req,
          In (Routes.PostPaths now nowMeta nowPut req) requests
          /\ Routes.cr_path req = Some q
          /\ Js.truthy (Routes.cr_meta req) = true)
    \/ (exists name steps step,
          In (Routes.PostScenarioRun name steps) requests
          /\ In step steps
          /\ Routes.sp_path (snd step) = q
          /\ Js.truthy (Routes.sp_meta (snd step)) = true)).
  { intros Hq.
    assert (Hhas : PathManager.isCreatedPath (Routes.pathManager p) q = true).
    { unfold PathManager.isCreatedPath. apply JsMap_has_true_iff. exact Hq. }
    rewrite Hchar in Hhas. apply existsb_exists in Hhas as [request [Hreq Hrec]].
    destruct request as [now nowMeta nowPut req | | | | name steps]; cbn [recordsPath] in Hrec;
      try discriminate.
    - left.
      destruct (Routes.cr_path req) as [given|] eqn:Hp; [| discriminate].
      apply andb_prop in Hrec as [Hrec Hmeta].
      apply andb_prop in Hrec as [Hrec Htest].
      apply andb_prop in Hrec as [Heq _].
      apply String.eqb_eq in Heq. subst given.
      split; [exact Htest |].
      exists now, nowMeta, nowPut, req. repeat split; assumption.
    - right.
      apply existsb_exists in Hrec as [step [Hstep Hrec]].
      apply andb_prop in Hrec as [Heq Hmeta]. apply String.eqb_eq in Heq.
      exists name, steps, step. repeat split; assumption. }
  split; [exact Hchar |]. split; [exact Hin |].
  intros Hno Hq.
  destruct (Hin Hq) as [[Htest _] | [name [steps [step [Hreq _]]]]].
  - exact Htest.
  - contradiction (Hno name steps Hreq).
Qed.

Lemma served_registry_characterised_witness :
  let app := noPutApp [] "PUT not supported" in
  let requests :=
    [Routes.PostPaths "t0" "t1" "t2"
       (Routes.mkCreatePathRequest (Some "tanks.fuel") (JNumber (1 # 2))
                                   (JObject [("units", JString "ratio")]) (Some true));
     Routes.PostPaths "t3" "t4" "t5"
       (Routes.mkCreatePathRequest (Some "tanks.water") (JNumber (1 # 4)) JUndefined None)] in
  let p := Routes.serve app (Routes.start app emptyWorld) requests in
  PathManager.getCreatedPaths (Routes.pathManager p) = ["tanks.fuel"]
  /\ RegExp.test Routes.pathPattern "tanks.fuel" = true.
Proof.
  intros app requests p. split; [reflexivity |].
  apply (proj2 (proj2 (served_registry_characterised app emptyWorld requests "tanks.fuel"))).
  - intros name steps [H | [H | []]]; discriminate.
  - left. reflexivity.
Defined.

(** X22.  [plugin.stop], in any state reached from [start] by requests to
    the five routes that change the managers, leaves no PUT handler in the manager and no interceptor at
    the host; the bus, the timers and the path manager with its registry
    are untouched, and a second [stop] changes nothing. *)
Theorem stop_removes_every_interceptor :
  forall (app : ServerAPI) (b : list (string * Delta)) (n : nat) (t : list Timer)
         (requests : list Routes.Request),
    let p := Routes.serve app (Routes.start app (freshWorld b n t)) requests in
    PutHandlerManager.getHandlers (Routes.putHandlerManager (Routes.stop p)) = []
    /\ putHandlers (Routes.world (Routes.stop p)) = []
    /\ bus (Routes.world (Routes.stop p)) = bus (Routes.world p)
    /\ timers (Routes.world (Routes.stop p)) = timers (Routes.world p)
    /\ Routes.pathManager (Routes.stop p) = Routes.pathManager p
    /\ Routes.stop (Routes.stop p) = Routes.stop p.
Proof.
  intros app b n t requests p.
  pose proof (serve_PutInvariant app b n t requests) as I. fold p in I.
  assert (Hs : Routes.stop p
               = Routes.mkPlugin (Routes.pathManager p) (PutHandlerManager.mk [] [])
                   (mkWorld (bus (Routes.world p)) [] (nextHandle (Routes.world p))
                            (timers (Routes.world p)))).
  { unfold Routes.stop. rewrite (unregisterAll_loop _ _ I). reflexivity. }
  rewrite Hs. repeat split.
Qed.

(* ===================================================================== *)
(** ** The walk and the single read on a sample tree *)
(* ===================================================================== *)

Lemma UniqueKeys_scalar (v : JsValue) : childEntries v = [] -> UniqueKeys v.
Proof.
  intros E. constructor; rewrite E; [constructor | intros key child []].
Qed.

Lemma UniqueKeys_xy : UniqueKeys SampleTree.xy.
Proof.
  constructor; [repeat constructor; intros [] |].
  intros key child [E | []]. injection E as <- <-.
  constructor; [repeat constructor; intros [] |].
  intros key child [E | []]. injection E as <- <-.
  constructor.
  - cbn. repeat constructor; cbn; intuition discriminate.
  - intros key child [E | [E | []]]; injection E as <- <-;
      apply UniqueKeys_scalar; reflexivity.
Qed.

Lemma extractPaths_lists_reachable_leaves_witness :
  In (leafSnapshot [] "x.y"
        [("value", JNumber (1 # 1)); ("$source", JString "n2k-01")] (JNumber (1 # 1)))
     (PathManager.extractPaths [] SampleTree.xy "")
  /\ exists chains : list (list string),
      NoDup chains
      /\ (forall keys, In keys chains <-> Leaf SampleTree.xy keys)
      /\ Forall2 (SnapshotAt [] SampleTree.xy "") chains
                 (PathManager.extractPaths [] SampleTree.xy "").
Proof.
  destruct (extractPaths_lists_reachable_leaves [] SampleTree.xy "") as [Hin Hone].
  split.
  - apply Hin.
    exists ["x"; "y"], [("value", JNumber (1 # 1)); ("$source", JString "n2k-01")],
           (JNumber (1 # 1)).
    split; [| split; [| split]].
    + eapply Reach_step; [left; reflexivity |].
      eapply Reach_step; [left; reflexivity |].
      apply Reach_here.
    + repeat constructor.
    + reflexivity.
    + reflexivity.
  - apply (proj2 (Hone UniqueKeys_xy)).
Defined.

Lemma getPath_not_found_and_value_witness :
  let app := SampleHost.tableApp SampleTree.xyTable in
  PathManager.getPath app (PathManager.create app) emptyWorld "no.such.path" = Fulfilled None.
Proof.
  intros app.
  apply (proj2 (proj1 (getPath_not_found_and_value app (PathManager.create app) emptyWorld
                         "no.such.path"))).
  reflexivity.
Defined.

(* ===================================================================== *)
(** ** Running a scenario *)
(* ===================================================================== *)

Lemma filter_length_split {A : Type} (f : A -> bool) (l : list A) :
  List.length (filter f l) + List.length (filter (fun x => negb (f x)) l) = List.length l.
Proof.
  induction l as [|x l IH]; [reflexivity |].
  cbn [filter]. destruct (f x); cbn [negb List.length]; lia.
Qed.

Lemma filter_length_le {A : Type} (f g : A -> bool) (l : list A) :
  (forall x, In x l -> f x = true -> g x = true) ->
  List.length (filter f l) <= List.length (filter g l).
Proof.
  induction l as [|x l IH]; intros H; [reflexivity |].
  assert (IH' : List.length (filter f l) <= List.length (filter g l)).
  { apply IH. intros y Hy. apply H. right. exact Hy. }
  cbn [filter]. destruct (f x) eqn:Hf.
  - rewrite (H x (or_introl eq_refl) Hf). cbn [List.length]. lia.
  - destruct (g x); cbn [List.length]; lia.
Qed.

(** what one turn of the loop reports *)
Lemma applyScenarioPath_result (app : ServerAPI) (p : Routes.Plugin)
    (now nowMeta nowPut : Timestamp) (pathConfig : Routes.ScenarioPath) :
  let r := Routes.applyScenarioPath app p now nowMeta nowPut pathConfig in
  Routes.rr_path (snd r) = Routes.sp_path pathConfig
  /\ (Routes.rr_success (snd r) = true ->
      Routes.sp_enablePut pathConfig = Some true ->
      PutHandlerManager.hasPutHandler (Routes.putHandlerManager (fst r))
                                      (Routes.sp_path pathConfig) = true)
  /\ (Routes.rr_putRegistered (snd r) = Some true ->
      Routes.rr_success (snd r) = true
      /\ Routes.sp_enablePut pathConfig = Some true
      /\ PutHandlerManager.hasPutHandler (Routes.putHandlerManager p)
                                         (Routes.sp_path pathConfig) = false)
  /\ (Routes.rr_success (snd r) = false <-> exists err, Routes.rr_error (snd r) = Some err).
Proof.
  unfold Routes.applyScenarioPath.
  destruct (PathManager.createPath _ _ _ _ _ _ _ _) as [[pm' w1] [u|e]].
  2:{ cbn. split; [reflexivity |]. split; [discriminate |]. split; [discriminate |].
      split; [intros _; exists e; reflexivity | reflexivity]. }
  destruct (Routes.sp_enablePut pathConfig) as [[|]|] eqn:He; cbn [andb].
  - destruct (PutHandlerManager.hasPutHandler (Routes.putHandlerManager p)
                                              (Routes.sp_path pathConfig)) eqn:Hhas;
      cbn [negb].
    + cbn. split; [reflexivity |]. split; [intros _ _; exact Hhas |].
      split; [discriminate |]. split; [discriminate | intros [err H]; discriminate].
    + destruct (PutHandlerManager.registerHandler _ _ _ _ _ _) as [[m' w2]|e] eqn:Hreg.
      * cbn [fst snd Routes.rr_path Routes.rr_success Routes.rr_putRegistered Routes.rr_error
             Routes.putHandlerManager].
        split; [reflexivity |].
        split; [intros _ _; apply (registerHandler_has _ _ _ _ _ _ _ _ Hreg) |].
        split; [intros _; repeat split; reflexivity |].
        split; [discriminate | intros [err H]; discriminate].
      * cbn. split; [reflexivity |]. split; [discriminate |]. split; [discriminate |].
        split; [intros _; exists e; reflexivity | reflexivity].
  - cbn. split; [reflexivity |]. split; [discriminate |]. split; [discriminate |].
    split; [discriminate | intros [err H]; discriminate].
  - cbn. split; [reflexivity |]. split; [discriminate |]. split; [discriminate |].
    split; [discriminate | intros [err H]; discriminate].
Qed.

Lemma applyScenarioPath_absent_before (app : ServerAPI) (p : Routes.Plugin)
    (now nowMeta nowPut : Timestamp) (pathConfig : Routes.ScenarioPath) (q : string) :
  PutHandlerManager.hasPutHandler
    (Routes.putHandlerManager (fst (Routes.applyScenarioPath app p now nowMeta nowPut pathConfig)))
    q = false ->
  PutHandlerManager.hasPutHandler (Routes.putHandlerManager p) q = false.
Proof.
  intros H.
  destruct (PutHandlerManager.hasPutHandler (Routes.putHandlerManager p) q) eqn:Hq;
    [| reflexivity].
  rewrite (applyScenarioPath_keeps app p now nowMeta nowPut pathConfig q Hq) in H.
  discriminate.
Qed.

Lemma applyScenarioPaths_results (app : ServerAPI)
    (steps : list (Timestamp * Timestamp * Timestamp * Routes.ScenarioPath)) :
  forall p : Routes.Plugin,
    Forall2
      (fun step result =>
         Routes.rr_path result = Routes.sp_path (snd step)
         /\ (Routes.rr_success result = true ->
             Routes.sp_enablePut (snd step) = Some true ->
             PutHandlerManager.hasPutHandler
               (Routes.putHandlerManager (fst (Routes.applyScenarioPaths app p steps)))
               (Routes.rr_path result) = true)
         /\ (Routes.rr_putRegistered result = Some true ->
             Routes.rr_success result = true
             /\ Routes.sp_enablePut (snd step) = Some true
             /\ PutHandlerManager.hasPutHandler (Routes.putHandlerManager p)
                                                (Routes.rr_path result) = false)
         /\ (Routes.rr_success result = false <->
             exists err, Routes.rr_error result = Some err))
      steps (snd (Routes.applyScenarioPaths app p steps)).
Proof.
  induction steps as [|[[[now nowMeta] nowPut] pathConfig] rest IH]; intros p.
  - constructor.
  - rewrite applyScenarioPaths_cons. cbn [fst snd].
    destruct (applyScenarioPath_result app p now nowMeta nowPut pathConfig)
      as [Hpath [Hput [Hreg Herr]]].
    constructor.
    + cbn [snd]. rewrite Hpath.
      split; [reflexivity |]. split; [| split; [exact Hreg | exact Herr]].
      intros Hs He. apply applyScenarioPaths_keeps. apply Hput; assumption.
    + eapply Forall2_impl; [| apply IH].
      intros step result [H1 [H2 [H3 H4]]].
      split; [exact H1 |]. split; [exact H2 |]. split; [| exact H4].
      intros Hr. destruct (H3 Hr) as [Hs [He Habs]].
      split; [exact Hs |]. split; [exact He |].
      apply (applyScenarioPath_absent_before app p now nowMeta nowPut pathConfig _ Habs).
Qed.

(** X23.  A scenario run ([POST /scenarios/:id/run], once the scenario is
    found) answers 200 with one result per entry of [scenario.paths], in
    order and for the same paths, whatever fails on the way; [applied] and
    [failed] add up to the number of entries and [putsRegistered] is at
    most [applied].  A result reports a PUT registration only for an entry
    with [enablePut] whose path had no handler when the run started, and is
    then a success; a successful entry with [enablePut] has a handler when
    the run ends; a result is a failure exactly when it carries an
    error. *)
Theorem scenario_run_results :
  forall (app : ServerAPI) (p : Routes.Plugin) (name : string)
         (steps : list (Timestamp * Timestamp * Timestamp * Routes.ScenarioPath)),
    let r := Routes.postScenarioRun app p name steps in
    let results := snd (Routes.applyScenarioPaths app p steps) in
    snd r = Routes.mkResponse 200
              (Routes.RunBody name (Routes.applied results) (Routes.failed results)
                              (Routes.putsRegistered results) results)
    /\ map Routes.rr_path results = map (fun step => Routes.sp_path (snd step)) steps
    /\ Routes.applied results + Routes.failed results = List.length steps
    /\ Routes.putsRegistered results <= Routes.applied results
    /\ Forall2
         (fun step result =>
            Routes.rr_path result = Routes.sp_path (snd step)
            /\ (Routes.rr_success result = true ->
                Routes.sp_enablePut (snd step) = Some true ->
                PutHandlerManager.hasPutHandler (Routes.putHandlerManager (fst r))
                                                (Routes.rr_path result) = true)
            /\ (Routes.rr_putRegistered result = Some true ->
                Routes.rr_success result = true
                /\ Routes.sp_enablePut (snd step) = Some true
                /\ PutHandlerManager.hasPutHandler (Routes.putHandlerManager p)
                                                   (Routes.rr_path result) = false)
            /\ (Routes.rr_success result = false <->
                exists err, Routes.rr_error result = Some err))
         steps results.
Proof.
  intros app p name steps r results.
  pose proof (applyScenarioPaths_results app steps p) as HF. fold results in HF.
  assert (Hfst : fst r = fst (Routes.applyScenarioPaths app p steps))
    by apply postScenarioRun_plugin.
  assert (Hlen : List.length results = List.length steps).
  { symmetry. apply (Forall2_length HF). }
  split; [| split; [| split; [| split]]].
  - subst r results. unfold Routes.postScenarioRun.
    destruct (Routes.applyScenarioPaths app p steps). reflexivity.
  - clear Hlen Hfst. induction HF as [|step result steps' results' [Hp _] _ IH];
      [reflexivity |].
    cbn [map]. rewrite Hp, IH. reflexivity.
  - unfold Routes.applied, Routes.failed. rewrite filter_length_split. exact Hlen.
  - unfold Routes.putsRegistered, Routes.applied. apply filter_length_le.
    intros result Hin Hreg.
    destruct (Routes.rr_putRegistered result) as [[|]|] eqn:Hr; try discriminate.
    clear Hlen Hfst Hreg.
    induction HF as [|step result' steps' results' [_ [_ [H3 _]]] _ IH]; [destruct Hin |].
    destruct Hin as [<- | Hin]; [apply (H3 Hr) | apply IH; exact Hin].
  - rewrite Hfst. exact HF.
Qed.

(* ===================================================================== *)
(** ** The snapshot after a subscription *)
(* ===================================================================== *)

Lemma skipn_cons_nth_error {A : Type} (l : list A) (n : nat) (x : A) (rest : list A) :
  skipn n l = x :: rest -> nth_error l n = Some x /\ skipn (S n) l = rest.
Proof.
  revert n. induction l as [|a l IH]; intros [|n] H; cbn in H; try discriminate.
  - injection H as -> ->. split; reflexivity.
  - apply IH in H. exact H.
Qed.

Lemma skipn_nil_nth_error {A : Type} (l : list A) (n : nat) :
  skipn n l = [] -> nth_error l n = None.
Proof.
  revert n. induction l as [|a l IH]; intros [|n] H; cbn in H; try discriminate;
    try reflexivity.
  cbn. apply IH. exact H.
Qed.

Lemma pushIfFound_found (paths : list PathInfo) (r : option PathInfo)
    (reads : list (option PathInfo)) :
  (WebSocketServer.pushIfFound paths r ++ found reads)%list
  = (paths ++ found (r :: reads))%list.
Proof.
  unfold found. cbn [flat_map]. destruct r; cbn [WebSocketServer.pushIfFound].
  - rewrite <- app_assoc. reflexivity.
  - reflexivity.
Qed.

Lemma resumeIn_settled (app : ServerAPI) (pm : PathManager.t) (worlds : list World)
    (client : WhatIfClient) (result : Promise unit) :
  resumeIn app pm worlds (client, WebSocketServer.Settled result)
  = (client, WebSocketServer.Settled result).
Proof. induction worlds as [|w worlds IH]; [reflexivity | exact IH]. Qed.

Lemma resumeIn_app (app : ServerAPI) (pm : PathManager.t) (ws1 ws2 : list World)
    (st : WhatIfClient * WebSocketServer.Call) :
  resumeIn app pm (ws1 ++ ws2) st = resumeIn app pm ws2 (resumeIn app pm ws1 st).
Proof. revert st. induction ws1 as [|w ws1 IH]; intros st; [reflexivity | apply IH]. Qed.

(** the call, when each read completes: it stands at an [await] until its
    last turn, and then sends the snapshots found *)
Lemma nextPath_resumeIn (app : ServerAPI) (pm : PathManager.t) (client : WhatIfClient)
    (rest : list string) :
  forall (cursor : nat) (paths : list PathInfo) (w : World) (worlds : list World)
         (reads : list (option PathInfo)),
    skipn cursor (subscriptions client) = rest ->
    List.length worlds = List.length rest ->
    Forall2 (fun pw r => PathManager.getPath app pm (snd pw) (fst pw) = Fulfilled r)
            (combine rest (w :: worlds)) reads ->
    resumeIn app pm worlds (WebSocketServer.nextPath app pm w client cursor paths)
    = (WebSocketServer.send client (WSFull (paths ++ found reads)),
       WebSocketServer.Settled (Fulfilled tt))
    /\ forall j, j < List.length worlds ->
         exists call,
           resumeIn app pm (firstn j worlds)
                    (WebSocketServer.nextPath app pm w client cursor paths)
           = (client, call)
           /\ standing (client_id client) call = [(client_id client, call)].
Proof.
  induction rest as [|p rest IH]; intros cursor paths w worlds reads Hs Hlen Hreads;
    unfold WebSocketServer.nextPath.
  - destruct worlds; [| discriminate Hlen]. inversion Hreads; subst.
    rewrite (skipn_nil_nth_error _ _ Hs). cbn. rewrite app_nil_r.
    split; [reflexivity | intros j Hj; lia].
  - destruct worlds as [|w1 worlds]; [discriminate Hlen |].
    injection Hlen as Hlen. cbn [combine] in Hreads.
    inversion Hreads as [| pw r comb reads' Hr Hrest]; subst. cbn [fst snd] in Hr.
    destruct (skipn_cons_nth_error _ _ _ _ Hs) as [Hn Hs'].
    rewrite Hn, Hr.
    destruct (IH (S cursor) (WebSocketServer.pushIfFound paths r) w1 worlds reads'
                 Hs' Hlen Hrest) as [Hend Hbefore].
    split.
    + cbn [resumeIn fst snd WebSocketServer.resume]. rewrite Hend, pushIfFound_found.
      reflexivity.
    + intros [|j] Hj.
      * cbn [firstn resumeIn]. eexists. split; reflexivity.
      * cbn [firstn resumeIn fst snd WebSocketServer.resume].
        apply Hbefore. cbn [List.length] in Hj. lia.
Qed.

(** the call, whatever the host answers and however many turns it is
    given: it leaves the client as it found it, or has sent it one ['full'] *)
Lemma nextPath_resumeIn_any (app : ServerAPI) (pm : PathManager.t) (client : WhatIfClient)
    (worlds : list World) :
  forall (cursor : nat) (paths : list PathInfo) (w : World),
    fst (resumeIn app pm worlds (WebSocketServer.nextPath app pm w client cursor paths))
    = client
    \/ exists snapshots,
        fst (resumeIn app pm worlds (WebSocketServer.nextPath app pm w client cursor paths))
        = WebSocketServer.send client (WSFull snapshots).
Proof.
  induction worlds as [|w1 worlds IH]; intros cursor paths w;
    unfold WebSocketServer.nextPath;
    destruct (nth_error (subscriptions client) cursor) as [p|].
  - left. reflexivity.
  - right. eexists. reflexivity.
  - cbn [resumeIn fst snd WebSocketServer.resume].
    destruct (PathManager.getPath app pm w p) as [r|e].
    + apply IH.
    + left. rewrite resumeIn_settled. reflexivity.
  - right. cbn [resumeIn fst snd WebSocketServer.resume].
    rewrite resumeIn_settled. eexists. reflexivity.
Qed.

Lemma nextPath_uninterrupted (app : ServerAPI) (pm : PathManager.t) (w : World)
    (client : WhatIfClient) (rest : list string) :
  forall (cursor : nat) (paths : list PathInfo),
    skipn cursor (subscriptions client) = rest ->
    resumeIn app pm (repeat w (List.length rest))
             (WebSocketServer.nextPath app pm w client cursor paths)
    = match WebSocketServer.readSubscribed app pm w rest with
      | Fulfilled l =>
          (WebSocketServer.send client (WSFull (paths ++ l)), WebSocketServer.Settled (Fulfilled tt))
      | Rejected e => (client, WebSocketServer.Settled (Rejected e))
      end.
Proof.
  induction rest as [|p rest IH]; intros cursor paths Hs;
    unfold WebSocketServer.nextPath.
  - rewrite (skipn_nil_nth_error _ _ Hs). cbn. rewrite app_nil_r. reflexivity.
  - destruct (skipn_cons_nth_error _ _ _ _ Hs) as [Hn Hs'].
    rewrite Hn. cbn [List.length repeat resumeIn fst snd WebSocketServer.resume
                     WebSocketServer.readSubscribed].
    destruct (PathManager.getPath app pm w p) as [r|e].
    + rewrite (IH (S cursor) _ Hs').
      destruct (WebSocketServer.readSubscribed app pm w rest) as [l|e]; [| reflexivity].
      destruct r; cbn [WebSocketServer.pushIfFound]; [rewrite <- app_assoc |]; reflexivity.
    + apply resumeIn_settled.
Qed.

(** [sendCurrentValues], the run in one go, is the call followed by as many
    resumptions as it has [await]s, with nothing in between and the host in
    the same state throughout *)
Lemma sendCurrentValues_uninterrupted {C : Collation} (app : ServerAPI)
    (pm : PathManager.t) (w : World) (client : WhatIfClient) (n : nat) :
  S (List.length (subscriptions client)) <= n ->
  resumeIn app pm (repeat w n) (WebSocketServer.callSendCurrentValues app pm w client)
  = (fst (WebSocketServer.sendCurrentValues app pm w client),
     WebSocketServer.Settled (snd (WebSocketServer.sendCurrentValues app pm w client))).
Proof.
  intros Hn.
  unfold WebSocketServer.callSendCurrentValues, WebSocketServer.sendCurrentValues.
  destruct (JsSet.has (subscriptions client) "*").
  - destruct n as [|n]; [lia |]. cbn [repeat resumeIn fst snd WebSocketServer.resume].
    apply resumeIn_settled.
  - replace n with (List.length (subscriptions client)
                    + (n - List.length (subscriptions client))) by lia.
    rewrite repeat_app, resumeIn_app.
    pose proof (nextPath_uninterrupted app pm w client (subscriptions client) 0 []
                  eq_refl) as Hrun.
    rewrite Hrun. cbn [List.app].
    destruct (WebSocketServer.readSubscribed app pm w (subscriptions client)) as [l|e];
      apply resumeIn_settled.
Qed.

(** *** Finding and replacing a client *)

Lemma find_map_id (g : WhatIfClient -> WhatIfClient) (id : string) (l : list WhatIfClient) :
  (forall c, client_id (g c) = client_id c) ->
  find (fun c => String.eqb (client_id c) id) (map g l)
  = option_map g (find (fun c => String.eqb (client_id c) id) l).
Proof.
  intros Hg. induction l as [|c l IH]; [reflexivity |].
  cbn [map find]. rewrite Hg. destruct (String.eqb (client_id c) id); [reflexivity | exact IH].
Qed.

Lemma findClient_id (srv : WebSocketServer.t) (id : string) (client : WhatIfClient) :
  findClient srv id = Some client ->
  client_id client = id /\ In client (WebSocketServer.clients srv).
Proof.
  unfold findClient. intros H. apply find_some in H as [Hin E].
  apply String.eqb_eq in E. split; assumption.
Qed.

Lemma findClient_putClient (srv : WebSocketServer.t) (client' : WhatIfClient) (id : string) :
  findClient (putClient srv client') id
  = if String.eqb id (client_id client')
    then option_map (fun _ => client') (findClient srv id)
    else findClient srv id.
Proof.
  unfold findClient, putClient. cbn [WebSocketServer.clients].
  rewrite find_map_id.
  - destruct (find _ (WebSocketServer.clients srv)) as [c|] eqn:Hf.
    + apply find_some in Hf as [_ E]. apply String.eqb_eq in E. cbn [option_map].
      rewrite E. rewrite (String.eqb_sym id). 
      destruct (String.eqb (client_id client') id); reflexivity.
    + destruct (String.eqb id (client_id client')); reflexivity.
  - intros c. destruct (String.eqb_spec (client_id c) (client_id client')); congruence.
Qed.

Lemma handleMessage_id {C : Collation} (app : ServerAPI) (pm : PathManager.t) (w : World)
    (client : WhatIfClient) (message : WSMessage) :
  client_id (fst (WebSocketServer.handleMessage app pm w client message)) = client_id client.
Proof. apply handleMessage_fields. Qed.

Lemma findClient_onMessage {C : Collation} (app : ServerAPI) (pm : PathManager.t) (w : World)
    (srv : WebSocketServer.t) (id id' : string) (message : WSMessage) :
  findClient (onMessage app pm w srv id message) id'
  = if String.eqb id' id
    then option_map (fun c => fst (WebSocketServer.handleMessage app pm w c message))
                    (findClient srv id')
    else findClient srv id'.
Proof.
  unfold findClient, onMessage. cbn [WebSocketServer.clients].
  rewrite find_map_id.
  - destruct (find _ (WebSocketServer.clients srv)) as [c|] eqn:Hf.
    + apply find_some in Hf as [_ E]. apply String.eqb_eq in E. cbn [option_map].
      rewrite E. destruct (String.eqb id' id); reflexivity.
    + destruct (String.eqb id' id); reflexivity.
  - intros c. destruct (String.eqb (client_id c) id); [apply handleMessage_id | reflexivity].
Qed.

Lemma nth_error_snoc {A : Type} (l : list A) (x : A) :
  nth_error (l ++ [x]) (List.length l) = Some x.
Proof. induction l as [|a l IH]; [reflexivity | exact IH]. Qed.

Lemma removeNth_snoc {A : Type} (l : list A) (x : A) :
  removeNth (List.length l) (l ++ [x]) = l.
Proof.
  unfold removeNth. rewrite firstn_app, skipn_app, firstn_all, Nat.sub_diag.
  rewrite (skipn_all2 l) by lia.
  replace (S (List.length l) - List.length l) with 1 by lia.
  cbn. rewrite !app_nil_r. reflexivity.
Qed.

Lemma replaceNth_snoc {A : Type} (l : list A) (x y : A) :
  replaceNth (List.length l) y (l ++ [x]) = (l ++ [y])%list.
Proof.
  unfold replaceNth. rewrite firstn_app, skipn_app, firstn_all, Nat.sub_diag.
  rewrite (skipn_all2 l) by lia.
  replace (S (List.length l) - List.length l) with 1 by lia.
  cbn. rewrite !app_nil_r. reflexivity.
Qed.

(** *** The turns of a call *)

Lemma handleMessage_subscribe {C : Collation} (app : ServerAPI) (pm : PathManager.t)
    (w : World) (client : WhatIfClient) (message : WSMessage) :
  msg_type message = "subscribe" ->
  WebSocketServer.handleMessage app pm w client message
  = (fst (WebSocketServer.callSendCurrentValues app pm w
            (WebSocketServer.withSubscriptions client
               (fold_left JsSet.add (namedPaths message) (subscriptions client)))),
     Some (snd (WebSocketServer.callSendCurrentValues app pm w
                  (WebSocketServer.withSubscriptions client
                     (fold_left JsSet.add (namedPaths message) (subscriptions client)))))).
Proof.
  intros Ht. unfold WebSocketServer.handleMessage. rewrite Ht.
  change (String.eqb "subscribe" "subscribe") with true. cbv iota.
  set (subs := match msg_paths message with Some _ => _ | None => _ end).
  assert (Hs : subs = fold_left JsSet.add (namedPaths message) (subscriptions client)).
  { subst subs. unfold namedPaths. destruct (msg_paths message); [reflexivity |].
    destruct (msg_path message) as [p|]; [| reflexivity].
    destruct (JsString.nonEmpty p); reflexivity. }
  rewrite Hs.
  destruct (WebSocketServer.callSendCurrentValues app pm w _) as [c' call]. reflexivity.
Qed.

Lemma standing_option (id : string) (call : WebSocketServer.Call) :
  match call with
  | WebSocketServer.Settled _ => []
  | other => [(id, other)]
  end = standing id call.
Proof. reflexivity. Qed.

(** the turn of the listener of a ['subscribe'] *)
Lemma turn_subscribe {C : Collation} (app : ServerAPI) (pm : PathManager.t) (rt : Runtime)
    (w : World) (id : string) (message : WSMessage) (client : WhatIfClient) :
  msg_type message = "subscribe" ->
  findClient (rt_server rt) id = Some client ->
  let st := WebSocketServer.callSendCurrentValues app pm w
              (WebSocketServer.withSubscriptions client
                 (fold_left JsSet.add (namedPaths message) (subscriptions client))) in
  let rt1 := turn app pm rt (TEvent (EvMessage w id message)) in
  findClient (rt_server rt1) id = Some (fst st)
  /\ (exists P, List.length P = List.length (rt_pending rt)
                /\ rt_pending rt1 = (P ++ standing id (snd st))%list)
  /\ forall id', id' <> id -> findClient (rt_server rt1) id' = findClient (rt_server rt) id'.
Proof.
  intros Ht Hf st rt1. subst rt1. unfold turn. rewrite Hf.
  rewrite (handleMessage_subscribe app pm w client message Ht). fold st.
  cbn [rt_server rt_pending stepWs].
  split; [| split].
  - rewrite findClient_onMessage, String.eqb_refl, Hf. cbn [option_map].
    rewrite (handleMessage_subscribe app pm w client message Ht). reflexivity.
  - eexists. split; [| f_equal; destruct (snd st); reflexivity].
    apply length_map.
  - intros id' Hne. rewrite findClient_onMessage.
    apply String.eqb_neq in Hne. rewrite Hne. reflexivity.
Qed.

Lemma turn_resume_found {C : Collation} (app : ServerAPI) (pm : PathManager.t)
    (rt : Runtime) (w : World) (k : nat) (id : string) (client : WhatIfClient)
    (call : WebSocketServer.Call) :
  nth_error (rt_pending rt) k = Some (id, call) ->
  findClient (rt_server rt) id = Some client ->
  turn app pm rt (TResume w k)
  = mkRuntime (putClient (rt_server rt) (fst (WebSocketServer.resume app pm w client call)))
              match snd (WebSocketServer.resume app pm w client call) with
              | WebSocketServer.Settled _ => removeNth k (rt_pending rt)
              | other => replaceNth k (id, other) (rt_pending rt)
              end.
Proof.
  intros Hn Hf. unfold turn. rewrite Hn, Hf.
  destruct (WebSocketServer.resume app pm w client call) as [client' call'].
  destruct call'; reflexivity.
Qed.

(** a turn in which the last of the pending calls goes on *)
Lemma turn_resume_standing {C : Collation} (app : ServerAPI) (pm : PathManager.t)
    (rt : Runtime) (w : World) (id : string) (client : WhatIfClient)
    (call : WebSocketServer.Call) (P : list (string * WebSocketServer.Call)) :
  findClient (rt_server rt) id = Some client ->
  rt_pending rt = (P ++ standing id call)%list ->
  findClient (rt_server (turn app pm rt (TResume w (List.length P)))) id
  = Some (fst (WebSocketServer.resume app pm w client call))
  /\ rt_pending (turn app pm rt (TResume w (List.length P)))
     = (P ++ standing id (snd (WebSocketServer.resume app pm w client call)))%list
  /\ forall id', id' <> id ->
       findClient (rt_server (turn app pm rt (TResume w (List.length P)))) id'
       = findClient (rt_server rt) id'.
Proof.
  intros Hf Hp.
  destruct (findClient_id _ _ _ Hf) as [Hid _].
  assert (Hstanding : standing id call = [(id, call)] ->
            nth_error (rt_pending rt) (List.length P) = Some (id, call)).
  { intros Hst. rewrite Hp, Hst. apply nth_error_snoc. }
  pose proof (resume_fields app pm w client call) as (Hcid & _ & _).
  assert (Hgo : nth_error (rt_pending rt) (List.length P) = Some (id, call) ->
                rt_pending rt = (P ++ [(id, call)])%list ->
            findClient (rt_server (turn app pm rt (TResume w (List.length P)))) id
            = Some (fst (WebSocketServer.resume app pm w client call))
            /\ rt_pending (turn app pm rt (TResume w (List.length P)))
               = (P ++ standing id (snd (WebSocketServer.resume app pm w client call)))%list
            /\ forall id', id' <> id ->
                 findClient (rt_server (turn app pm rt (TResume w (List.length P)))) id'
                 = findClient (rt_server rt) id').
  { intros Hn Hp'. rewrite (turn_resume_found app pm rt w _ id client call Hn Hf).
    cbn [rt_server rt_pending]. rewrite Hp'.
    destruct (WebSocketServer.resume app pm w client call) as [client' call'].
    cbn [fst snd] in *.
    split; [| split].
    - rewrite findClient_putClient, Hcid, Hid, String.eqb_refl, Hf. reflexivity.
    - destruct call'; cbn [standing];
        rewrite ?removeNth_snoc, ?replaceNth_snoc, ?app_nil_r; reflexivity.
    - intros id' Hne. rewrite findClient_putClient, Hcid, Hid.
      apply String.eqb_neq in Hne. rewrite Hne. reflexivity. }
  destruct call as [allPaths | cursor paths pathInfo | result].
  - apply Hgo; [apply Hstanding; reflexivity | exact Hp].
  - apply Hgo; [apply Hstanding; reflexivity | exact Hp].
  - assert (Hn : nth_error (rt_pending rt) (List.length P) = None).
    { rewrite Hp. cbn [standing]. rewrite app_nil_r. apply nth_error_None. lia. }
    unfold turn. rewrite Hn. cbn [WebSocketServer.resume fst snd].
    split; [exact Hf | split; [exact Hp | reflexivity]].
Qed.

(** the turns in which it goes on, one after the other *)
Lemma runTurns_resume {C : Collation} (app : ServerAPI) (pm : PathManager.t)
    (P : list (string * WebSocketServer.Call)) (id : string) (worlds : list World) :
  forall (rt : Runtime) (client : WhatIfClient) (call : WebSocketServer.Call),
    findClient (rt_server rt) id = Some client ->
    rt_pending rt = (P ++ standing id call)%list ->
    findClient (rt_server (runTurns app pm rt
                             (map (fun w => TResume w (List.length P)) worlds))) id
    = Some (fst (resumeIn app pm worlds (client, call)))
    /\ rt_pending (runTurns app pm rt (map (fun w => TResume w (List.length P)) worlds))
       = (P ++ standing id (snd (resumeIn app pm worlds (client, call))))%list
    /\ forall id', id' <> id ->
         findClient (rt_server (runTurns app pm rt
                                  (map (fun w => TResume w (List.length P)) worlds))) id'
         = findClient (rt_server rt) id'.
Proof.
  induction worlds as [|w worlds IH]; intros rt client call Hf Hp.
  - cbn. split; [exact Hf | split; [exact Hp | reflexivity]].
  - destruct (turn_resume_standing app pm rt w id client call P Hf Hp) as (Hf1 & Hp1 & Ho1).
    cbn [resumeIn map fst snd]. unfold runTurns. cbn [fold_left].
    destruct (WebSocketServer.resume app pm w client call) as [client1 call1] eqn:Er.
    cbn [fst snd] in Hf1, Hp1.
    destruct (IH _ client1 call1 Hf1 Hp1) as (Hf2 & Hp2 & Ho2).
    unfold runTurns in Hf2, Hp2, Ho2.
    split; [exact Hf2 | split; [exact Hp2 |]].
    intros id' Hne. rewrite (Ho2 id' Hne). apply Ho1. exact Hne.
Qed.

(** the call of [sendCurrentValues], whatever the host answers and however
    many turns it is given *)
Lemma callSendCurrentValues_any {C : Collation} (app : ServerAPI) (pm : PathManager.t)
    (w : World) (client : WhatIfClient) (worlds : list World) :
  fst (resumeIn app pm worlds (WebSocketServer.callSendCurrentValues app pm w client))
  = client
  \/ exists snapshots,
      fst (resumeIn app pm worlds (WebSocketServer.callSendCurrentValues app pm w client))
      = WebSocketServer.send client (WSFull snapshots).
Proof.
  unfold WebSocketServer.callSendCurrentValues.
  destruct (JsSet.has (subscriptions client) "*").
  - destruct worlds as [|w1 worlds]; [left; reflexivity |].
    right. cbn [resumeIn fst snd WebSocketServer.resume]. rewrite resumeIn_settled.
    eexists. reflexivity.
  - apply nextPath_resumeIn_any.
Qed.

(** the call of [sendCurrentValues], given the turns of its [await]s, each
    read completing *)
Lemma callSendCurrentValues_turns {C : Collation} (app : ServerAPI) (pm : PathManager.t)
    (w : World) (client : WhatIfClient) (worlds : list World)
    (reads : list (option PathInfo)) :
  List.length worlds
  = (if JsSet.has (subscriptions client) "*" then 1 else List.length (subscriptions client)) ->
  (JsSet.has (subscriptions client) "*" = false ->
   readsInTurn app pm (subscriptions client) (w :: worlds) reads) ->
  resumeIn app pm worlds (WebSocketServer.callSendCurrentValues app pm w client)
  = (WebSocketServer.send client
       (WSFull (if JsSet.has (subscriptions client) "*"
                then PathManager.getAllPaths app pm w None
                else found reads)),
     WebSocketServer.Settled (Fulfilled tt))
  /\ forall j, j < List.length worlds ->
       fst (resumeIn app pm (firstn j worlds)
                     (WebSocketServer.callSendCurrentValues app pm w client))
       = client.
Proof.
  unfold WebSocketServer.callSendCurrentValues, readsInTurn.
  destruct (JsSet.has (subscriptions client) "*"); intros Hlen Hreads.
  - destruct worlds as [|w1 [|w2 worlds]]; try discriminate Hlen.
    split; [reflexivity |]. intros j Hj. cbn in Hj.
    replace j with 0 by lia. reflexivity.
  - destruct (nextPath_resumeIn app pm client (subscriptions client) 0 [] w worlds reads
                eq_refl Hlen (Hreads eq_refl)) as [Hend Hbefore].
    split; [exact Hend |].
    intros j Hj. destruct (Hbefore j Hj) as (call & -> & _). reflexivity.
Qed.

Lemma send_not_open (client : WhatIfClient) (message : WSUpdate) :
  ws_readyState client <> OPEN -> WebSocketServer.send client message = client.
Proof.
  unfold WebSocketServer.send. destruct (ws_readyState client); cbn; congruence.
Qed.

Lemma send_open (client : WhatIfClient) (message : WSUpdate) :
  ws_readyState client = OPEN ->
  ws_sent (WebSocketServer.send client message) = (ws_sent client ++ [message])%list.
Proof. unfold WebSocketServer.send. intros ->. reflexivity. Qed.

(** C5 (amended).  The listener of a ['subscribe'] message adds the paths the
    message names to the set of the observer and calls [sendCurrentValues]
    without awaiting it.  When the listener returns the set is the new one
    and, unless the set is empty, nothing has been sent: the call stands at
    its first [await], the last of the pending calls.  The call goes on in
    later turns, one when ["*"] is subscribed and one a subscribed path
    otherwise.  Whatever the host answers and however many of these turns
    are taken, the call leaves the observer as the listener left it or has
    sent it one ['full'], and has sent nothing if the socket is not open.
    If no other turn comes in between and each read completes, the observer
    is untouched until the last of these turns and then is sent one
    ['full']: when ["*"] is subscribed the whole listing, the one that the
    call of [getAllPaths] made while the message is handled gives, and
    otherwise the snapshots found for the paths of the set, in the order of
    the set, each read in the state of the host at the turn that makes the
    read (the first while the message is handled), the paths read as
    not-found left out.  No other observer is touched. *)
Theorem subscribe_sends_full_snapshot :
  forall (C : Collation) (app : ServerAPI) (pm : PathManager.t) (rt : Runtime)
         (w0 : World) (id : string) (message : WSMessage) (client : WhatIfClient),
    msg_type message = "subscribe" ->
    findClient (rt_server rt) id = Some client ->
    let subs := fold_left JsSet.add (namedPaths message) (subscriptions client) in
    let subscribed := WebSocketServer.withSubscriptions client subs in
    let rt1 := turn app pm rt (TEvent (EvMessage w0 id message)) in
    let k := List.length (rt_pending rt) in
    let after := fun worlds : list World =>
                   runTurns app pm rt1 (map (fun w => TResume w k) worlds) in
    (forall x, In x subs <-> In x (subscriptions client) \/ In x (namedPaths message))
    /\ (NoDup (subscriptions client) -> NoDup subs)
    /\ (subs <> [] ->
        findClient (rt_server rt1) id = Some subscribed
        /\ List.length (rt_pending rt1) = S k)
    /\ (subs = [] ->
        findClient (rt_server rt1) id = Some (WebSocketServer.send subscribed (WSFull []))
        /\ List.length (rt_pending rt1) = k)
    /\ (forall worlds : list World,
          exists client',
            findClient (rt_server (after worlds)) id = Some client'
            /\ subscriptions client' = subs
            /\ (client' = subscribed
                \/ exists snapshots,
                    client' = WebSocketServer.send subscribed (WSFull snapshots))
            /\ (ws_readyState client <> OPEN -> ws_sent client' = ws_sent client))
    /\ (forall (worlds : list World) (reads : list (option PathInfo)),
          List.length worlds = (if JsSet.has subs "*" then 1 else List.length subs) ->
          (JsSet.has subs "*" = false -> readsInTurn app pm subs (w0 :: worlds) reads) ->
          let snapshots :=
            if JsSet.has subs "*" then PathManager.getAllPaths app pm w0 None
            else found reads in
          (forall j, j < List.length worlds ->
             findClient (rt_server (after (firstn j worlds))) id = Some subscribed)
          /\ findClient (rt_server (after worlds)) id
             = Some (WebSocketServer.send subscribed (WSFull snapshots))
          /\ List.length (rt_pending (after worlds)) = k
          /\ (ws_readyState client = OPEN ->
              ws_sent (WebSocketServer.send subscribed (WSFull snapshots))
              = (ws_sent client ++ [WSFull snapshots])%list)
          /\ (ws_readyState client <> OPEN ->
              ws_sent (WebSocketServer.send subscribed (WSFull snapshots))
              = ws_sent client))
    /\ (forall (worlds : list World) (id' : string),
          id' <> id ->
          findClient (rt_server (after worlds)) id' = findClient (rt_server rt) id').
Proof.
  intros C app pm rt w0 id message client Ht Hf subs subscribed rt1 k after.
  destruct (turn_subscribe app pm rt w0 id message client Ht Hf)
    as (Hf1 & (P & HlenP & Hp1) & Ho1).
  fold subs subscribed rt1 in Hf1, Hp1, Ho1.
  set (st0 := WebSocketServer.callSendCurrentValues app pm w0 subscribed) in *.
  assert (Hrun : forall worlds,
            findClient (rt_server (after worlds)) id
            = Some (fst (resumeIn app pm worlds st0))
            /\ rt_pending (after worlds)
               = (P ++ standing id (snd (resumeIn app pm worlds st0)))%list
            /\ forall id', id' <> id ->
                 findClient (rt_server (after worlds)) id' = findClient (rt_server rt1) id').
  { intros worlds. subst after k. cbv beta. rewrite <- HlenP.
    rewrite (surjective_pairing st0) at 1 2.
    apply runTurns_resume; assumption. }
  assert (Hsubs : subscriptions subscribed = subs) by reflexivity.
  assert (Hstate : ws_readyState subscribed = ws_readyState client) by reflexivity.
  assert (Hsent : ws_sent subscribed = ws_sent client) by reflexivity.
  split; [| split; [| split; [| split; [| split; [| split]]]]].
  - intros x. apply JsSet_add_all_In.
  - intros Hnd. now apply JsSet_add_all_NoDup.
  - intros Hne. rewrite Hf1, Hp1. subst st0.
    unfold WebSocketServer.callSendCurrentValues. rewrite Hsubs.
    destruct (JsSet.has subs "*").
    + cbn [fst snd standing]. rewrite length_app, HlenP. cbn. split; [reflexivity | lia].
    + unfold WebSocketServer.nextPath. rewrite Hsubs.
      destruct subs as [|p rest] eqn:Es; [congruence |].
      cbn [nth_error fst snd standing]. rewrite length_app, HlenP. cbn.
      split; [reflexivity | lia].
  - intros He. rewrite Hf1, Hp1. subst st0.
    unfold WebSocketServer.callSendCurrentValues, WebSocketServer.nextPath.
    rewrite Hsubs, He. cbn [JsSet.has existsb nth_error fst snd standing].
    rewrite app_nil_r. split; [reflexivity | exact HlenP].
  - intros worlds. destruct (Hrun worlds) as (Hfw & _ & _).
    eexists. split; [exact Hfw |].
    destruct (callSendCurrentValues_any app pm w0 subscribed worlds) as [E | [s E]];
      fold st0 in E; rewrite E.
    + split; [reflexivity |]. split; [left; reflexivity |]. intros _. reflexivity.
    + split; [apply send_fields |]. split; [right; exists s; reflexivity |].
      intros Hno. rewrite (send_not_open subscribed) by exact Hno. reflexivity.
  - intros worlds reads Hlen Hreads snapshots.
    destruct (callSendCurrentValues_turns app pm w0 subscribed worlds reads Hlen Hreads)
      as [Hend Hbefore].
    fold st0 in Hend, Hbefore. rewrite Hsubs in Hend. fold snapshots in Hend.
    split; [| split; [| split; [| split]]].
    + intros j Hj. destruct (Hrun (firstn j worlds)) as (Hfw & _ & _).
      rewrite Hfw, (Hbefore j Hj). reflexivity.
    + destruct (Hrun worlds) as (Hfw & _ & _). rewrite Hfw, Hend. reflexivity.
    + destruct (Hrun worlds) as (_ & Hpw & _). rewrite Hpw, Hend.
      cbn [snd standing]. rewrite app_nil_r. exact HlenP.
    + intros Hopen. apply (send_open subscribed). exact Hopen.
    + intros Hno. rewrite (send_not_open subscribed) by exact Hno. reflexivity.
  - intros worlds id' Hne. destruct (Hrun worlds) as (_ & _ & Hother).
    rewrite (Hother id' Hne). apply Ho1. exact Hne.
Qed.

Lemma subscribe_sends_full_snapshot_witness :
  let app := SampleHost.tableApp SampleTree.xyTable in
  let pm := PathManager.create app in
  let client := mkClient OPEN [WSFull []] "client-1" [] in
  let rt := @turn codeOrder app pm newRuntime (TEvent (EvConnection OPEN)) in
  let rt1 := @turn codeOrder app pm rt
               (TEvent (EvMessage emptyWorld "client-1" SampleTree.subscribeXY)) in
  let rt2 := @runTurns codeOrder app pm rt1 [TResume emptyWorld 0] in
  let rt3 := @runTurns codeOrder app pm rt1 [TResume emptyWorld 0; TResume emptyWorld 0] in
  msg_type SampleTree.subscribeXY = "subscribe"
  /\ findClient (rt_server rt) "client-1" = Some client
  /\ findClient (rt_server rt1) "client-1"
     = Some (mkClient OPEN [WSFull []] "client-1" ["x.y"; "no.such.path"])
  /\ findClient (rt_server rt2) "client-1"
     = Some (mkClient OPEN [WSFull []] "client-1" ["x.y"; "no.such.path"])
  /\ exists (client3 : WhatIfClient) (snapshots : list PathInfo),
      findClient (rt_server rt3) "client-1" = Some client3
      /\ ws_sent client3 = [WSFull []; WSFull snapshots]
      /\ map pi_path snapshots = ["x.y"]
      /\ rt_pending rt3 = [].
Proof.
  intros app pm client rt rt1 rt2 rt3.
  assert (Hreads : exists reads,
            readsInTurn app pm ["x.y"; "no.such.path"]
                        [emptyWorld; emptyWorld; emptyWorld] reads).
  { eexists. unfold readsInTurn. cbn [combine].
    constructor; [cbn [fst snd]; reflexivity |].
    constructor; [cbn [fst snd]; reflexivity | constructor]. }
  destruct Hreads as [reads Hreads].
  destruct (subscribe_sends_full_snapshot codeOrder app pm rt emptyWorld "client-1"
              SampleTree.subscribeXY client eq_refl eq_refl)
    as (_ & _ & Hreturn & _ & _ & Hturns & _).
  destruct Hreturn as [Hf1 _]; [discriminate |].
  destruct (Hturns [emptyWorld; emptyWorld] reads eq_refl (fun _ => Hreads))
    as (Hbefore & Hend & Hpending & Hopen & _).
  split; [reflexivity | split; [reflexivity | split; [exact Hf1 |]]].
  split; [exact (Hbefore 1 (le_n 2)) |].
  eexists. eexists. split; [exact Hend |].
  split; [exact (Hopen eq_refl) |].
  split.
  - inversion Hreads as [| pw1 r1 ps1 rs1 H1 Hr1]; subst.
    inversion Hr1 as [| pw2 r2 ps2 rs2 H2 Hr2]; subst.
    inversion Hr2; subst.
    cbn in H1, H2. injection H1 as <-. injection H2 as <-. reflexivity.
  - apply length_zero_iff_nil. exact Hpending.
Defined.

(** C5 as stated fails when the socket is not open: the ['subscribe'] is
    processed, the set is updated, and neither the listener nor the call of
    [sendCurrentValues], in any of its turns, sends the ['full'] message. *)
Lemma subscribe_not_open_counterexample :
  let app := SampleHost.tableApp SampleTree.xyTable in
  let pm := PathManager.create app in
  let client := mkClient CLOSING [WSFull []] "client-1" [] in
  let rt := mkRuntime (WebSocketServer.mk [client] 1) [] in
  let rt1 := @turn codeOrder app pm rt
               (TEvent (EvMessage emptyWorld "client-1" SampleTree.subscribeXY)) in
  let rt2 := @runTurns codeOrder app pm rt1 [TResume emptyWorld 0] in
  let rt3 := @runTurns codeOrder app pm rt1 [TResume emptyWorld 0; TResume emptyWorld 0] in
  let client' := mkClient CLOSING [WSFull []] "client-1" ["x.y"; "no.such.path"] in
  findClient (rt_server rt) "client-1" = Some client
  /\ findClient (rt_server rt1) "client-1" = Some client'
  /\ findClient (rt_server rt2) "client-1" = Some client'
  /\ findClient (rt_server rt3) "client-1" = Some client'
  /\ rt_pending rt3 = []
  /\ ws_sent client' = ws_sent client
  /\ ~ exists snapshots : list PathInfo,
        ws_sent client' = (ws_sent client ++ [WSFull snapshots])%list.
Proof.
  cbn. repeat (split; [reflexivity |]).
  intros [snapshots H]. discriminate H.
Qed.

(** An update can reach the observer before the ['full']: a delta for a
    subscribed path that the bus delivers while the call stands at an
    [await] is sent first. *)
Example subscribe_update_before_full :
  let app := SampleHost.tableApp SampleTree.xyTable in
  let pm := PathManager.create app in
  let delta := mkBusDelta (Some "x.y") (JNumber (2 # 1)) (JString "2024-01-01T00:00:00.000Z")
                          (JString "n2k-01") JUndefined in
  let rt := @runTurns codeOrder app pm newRuntime
              [TEvent (EvConnection OPEN);
               TEvent (EvMessage emptyWorld "client-1" SampleTree.subscribeXY);
               TEvent (EvDelta (Some delta));
               TResume emptyWorld 0;
               TResume emptyWorld 0] in
  exists (client : WhatIfClient) (update : PathInfo) (snapshots : list PathInfo),
    findClient (rt_server rt) "client-1" = Some client
    /\ ws_sent client = [WSFull []; WSUpdatePath update; WSFull snapshots]
    /\ pi_path update = "x.y"
    /\ map pi_path snapshots = ["x.y"].
Proof.
  cbn. eexists. eexists. eexists.
  split; [reflexivity |]. split; [reflexivity |]. split; reflexivity.
Qed.

(** A socket that is open when the message is handled and closes before
    the call ends is sent no ['full']: the call is left without its
    observer. *)
Example subscribe_close_before_full :
  let app := SampleHost.tableApp SampleTree.xyTable in
  let pm := PathManager.create app in
  let rt1 := @runTurns codeOrder app pm newRuntime
               [TEvent (EvConnection OPEN);
                TEvent (EvMessage emptyWorld "client-1" SampleTree.subscribeXY)] in
  let rt := @runTurns codeOrder app pm rt1
              [TResume emptyWorld 0;
               TEvent (EvClose "client-1");
               TResume emptyWorld 0] in
  findClient (rt_server rt1) "client-1"
  = Some (mkClient OPEN [WSFull []] "client-1" ["x.y"; "no.such.path"])
  /\ WebSocketServer.clients (rt_server rt) = []
  /\ rt_pending rt = [].
Proof. cbn. repeat split. Qed.

(** A ['subscribe'] handled while an earlier call still iterates over the
    set: the iterator is live, and the earlier call reads the paths added
    since, so that each of the two calls ends with a ['full'] of the whole
    set. *)
Example subscribe_twice_live_iterator :
  let app := SampleHost.tableApp SampleTree.xyTable in
  let pm := PathManager.create app in
  let rt := @runTurns codeOrder app pm newRuntime
              [TEvent (EvConnection OPEN);
               TEvent (EvMessage emptyWorld "client-1"
                                 (mkWSMessage "subscribe" None (Some "no.such.path")));
               TEvent (EvMessage emptyWorld "client-1"
                                 (mkWSMessage "subscribe" None (Some "x.y")));
               TResume emptyWorld 0; TResume emptyWorld 0;
               TResume emptyWorld 0; TResume emptyWorld 0] in
  exists (client : WhatIfClient) (first second : list PathInfo),
    findClient (rt_server rt) "client-1" = Some client
    /\ ws_sent client = [WSFull []; WSFull first; WSFull second]
    /\ map pi_path first = ["x.y"]
    /\ map pi_path second = ["x.y"]
    /\ rt_pending rt = [].
Proof.
  cbn. eexists. eexists. eexists.
  split; [reflexivity |]. split; [reflexivity |]. repeat split.
Qed.
